(** * near-mpc-oracle: agent identity, balance aggregation and snapshot signing

    A shallow embedding of the TypeScript sources
      - [src/services/nearContractService.ts]  (module [NearContract])
      - [src/services/balanceFetcher.ts] and [src/config/chains.ts]
        (module [BalanceFetcher])
      - [src/services/oracleService.ts], [getPoolValue]  (module [Oracle])
      - [derive-agent-address.ts] / [verify-agent-address.ts]
        (module [Derive])
    together with the properties of the attestation protocol proved about
    them.  Library calls that leave the process (RPC providers, the NEAR
    transaction, the curve and hash primitives of secp256k1 / sha3 / ethers)
    are section variables; everything the repository itself computes is a
    definition. *)

From Stdlib Require Import ZArith String Ascii List Lia Bool.
From Stdlib Require Import DecimalString DecimalZ.
From stdpp Require Import base option gmap strings list.

Local Open Scope string_scope.
Local Open Scope Z_scope.

(** ** JavaScript values shared by the three modules *)

Module JS.

(** A thrown value.  [ename] is the constructor name ("Error",
    "SyntaxError", ...), [ecode] the [code] property that ethers attaches to
    its errors ("BAD_DATA", "CALL_EXCEPTION", ...). *)
Record jserror := mkError {
  ename : string;
  ecode : option string;
  emessage : string
}.

(** [new Error(msg)] *)
Definition Error (msg : string) : jserror := mkError "Error" None msg.

(** [`${error}`], i.e. [Error.prototype.toString]. *)
Definition error_toString (e : jserror) : string :=
  if String.eqb (ename e) "" then emessage e
  else if String.eqb (emessage e) "" then ename e
  else ename e +:+ ": " +:+ emessage e.

(** The outcome of an expression that may throw (or of an awaited promise). *)
Inductive result (A : Type) : Type :=
| Ok (a : A)
| Err (e : jserror).
Arguments Ok {A} a.
Arguments Err {A} e.

Definition is_ok {A} (r : result A) : bool :=
  match r with Ok _ => true | Err _ => false end.

Definition is_err {A} (r : result A) : bool := negb (is_ok r).

(** [x || dflt] on an environment variable: [undefined] and the empty string
    are falsy. *)
Definition truthy (o : option string) : bool :=
  match o with
  | Some s => negb (String.eqb s "")
  | None => false
  end.

Definition or_default (o : option string) (dflt : string) : string :=
  match o with
  | Some s => if String.eqb s "" then dflt else s
  | None => dflt
  end.

(** *** Strings

    A string of the embedding is a sequence of bytes: the UTF-8 encoding of
    the JavaScript string it stands for (the literals of the program are
    written as they are in the sources). *)

Definition lower_ascii (c : ascii) : ascii :=
  let n := N_of_ascii c in
  if ((65 <=? n) && (n <=? 90))%N then ascii_of_N (n + 32) else c.

(** [String.prototype.toLowerCase] on strings whose letters are ASCII
    (addresses and hex strings): bytes outside [A-Z] are kept. *)
Fixpoint toLowerCase (s : string) : string :=
  match s with
  | EmptyString => EmptyString
  | String c s' => String (lower_ascii c) (toLowerCase s')
  end.

(** [bigint.prototype.toString()] / [number.prototype.toString()] on
    integers: decimal, a leading minus sign for negatives. *)
Definition toString (z : Z) : string := NilZero.string_of_int (Z.to_int z).

(** *** Bytes and hex *)

Definition hex_digit (n : Z) : ascii :=
  match String.get (Z.to_nat n) "0123456789abcdef" with
  | Some c => c
  | None => "0"%char
  end.

Definition hex_byte (b : Z) : string :=
  String (hex_digit (b / 16)) (String (hex_digit (b mod 16)) EmptyString).

Fixpoint hex_bytes (bs : list Z) : string :=
  match bs with
  | [] => EmptyString
  | b :: bs' => hex_byte b +:+ hex_bytes bs'
  end.

(** [ethers.hexlify(bytes)]: "0x" followed by two lower-case hex digits per
    byte. *)
Definition hexlify (bs : list Z) : string := "0x" +:+ hex_bytes bs.

(** [Buffer.prototype.toString('hex')] *)
Definition toHex (bs : list Z) : string := hex_bytes bs.

(** The inverse reading of a hex string, as [ethers.getBytes] does it. *)
Definition hex_value (c : ascii) : option Z :=
  let n := Z.of_N (N_of_ascii c) in
  if ((48 <=? n) && (n <=? 57))%Z then Some (n - 48)
  else if ((97 <=? n) && (n <=? 102))%Z then Some (n - 87)
  else if ((65 <=? n) && (n <=? 70))%Z then Some (n - 55)
  else None.

Fixpoint unhex_bytes (s : string) : option (list Z) :=
  match s with
  | EmptyString => Some []
  | String h (String l s') =>
      match hex_value h, hex_value l, unhex_bytes s' with
      | Some a, Some b, Some bs => Some (16 * a + b :: bs)
      | _, _, _ => None
      end
  | String _ EmptyString => None
  end.

Definition getBytes (s : string) : option (list Z) :=
  match s with
  | String "0"%char (String "x"%char s') => unhex_bytes s'
  | _ => None
  end.

(** [new Uint8Array([v])] and [Buffer.from([v])] store [v] modulo 256. *)
Definition toUint8 (v : Z) : Z := v mod 256.

Definition is_byte (b : Z) : Prop := 0 <= b < 256.

(** *** Numbers

    A JavaScript [number] that holds an integer, [NaN] or an infinity —
    the only values [parseInt] and the integer literals of this program
    produce.  [Num z] is the double whose value is exactly [z]. *)
Inductive number :=
| NaN
| Infinity (negative : bool)
| Num (z : Z).

(** The double nearest to the non-negative integer [n] (round to nearest,
    ties to even, 53 bits of significand), the Number value of a
    mathematical integer. *)
Definition roundToDouble (n : Z) : number :=
  if n <? 2 ^ 53 then Num n
  else
    let e := Z.log2 n - 52 in
    let q := Z.shiftr n e in
    let r := n mod 2 ^ e in
    let half := 2 ^ (e - 1) in
    let q' := if (half <? r) || ((r =? half) && Z.odd q) then q + 1 else q in
    let v := q' * 2 ^ e in
    if 2 ^ 1024 <=? v then Infinity false else Num v.

Definition negate (x : number) : number :=
  match x with
  | NaN => NaN
  | Infinity b => Infinity (negb b)
  | Num z => Num (- z)
  end.

(** The byte at position [n], or -1 past the end. *)
Definition byte_at (n : nat) (s : string) : Z :=
  match String.get n s with
  | Some c => Z.of_N (N_of_ascii c)
  | None => -1
  end.

(** StrWhiteSpaceChar (WhiteSpace and LineTerminator): the number of bytes
    of the white-space character [s] starts with, 0 when it starts with
    none.  The characters are TAB, LF, VT, FF, CR and SP; U+00A0 (C2 A0);
    U+1680 (E1 9A 80); U+2000 to U+200A, U+2028, U+2029 and U+202F
    (E2 80 80..8A, A8, A9, AF); U+205F (E2 81 9F); U+3000 (E3 80 80); and
    U+FEFF (EF BB BF). *)
Definition StrWhiteSpaceChar (s : string) : nat :=
  let a := byte_at 0 s in
  let b := byte_at 1 s in
  let c := byte_at 2 s in
  if ((9 <=? a) && (a <=? 13)) || (a =? 32) then 1
  else if (a =? 194) && (b =? 160) then 2
  else if (a =? 225) && (b =? 154) && (c =? 128) then 3
  else if (a =? 226) && (b =? 128)
          && (((128 <=? c) && (c <=? 138)) || (c =? 168) || (c =? 169) || (c =? 175))
       then 3
  else if (a =? 226) && (b =? 129) && (c =? 159) then 3
  else if (a =? 227) && (b =? 128) && (c =? 128) then 3
  else if (a =? 239) && (b =? 187) && (c =? 191) then 3
  else 0.

Fixpoint drop_bytes (n : nat) (s : string) : string :=
  match n, s with
  | O, _ => s
  | S n', String _ s' => drop_bytes n' s'
  | S _, EmptyString => EmptyString
  end.

(** [s] without its leading white space; [fuel] bounds the number of
    characters dropped. *)
Fixpoint skip_spaces_from (fuel : nat) (s : string) : string :=
  match fuel with
  | O => s
  | S fuel' =>
      match StrWhiteSpaceChar s with
      | O => s
      | n => skip_spaces_from fuel' (drop_bytes n s)
      end
  end.

Definition skip_spaces (s : string) : string := skip_spaces_from (String.length s) s.

(** [s] without its trailing white space: the shortest prefix after which
    only white space follows. *)
Fixpoint rtrim (s : string) : string :=
  match s with
  | EmptyString => EmptyString
  | String c s' =>
      if String.eqb (skip_spaces s) "" then EmptyString else String c (rtrim s')
  end.

Definition trim (s : string) : string := rtrim (skip_spaces s).

(** The value of one digit in the given radix ([0-9], [a-z], [A-Z]). *)
Definition digit_value (radix : Z) (c : ascii) : option Z :=
  let n := Z.of_N (N_of_ascii c) in
  let v := if ((48 <=? n) && (n <=? 57))%Z then Some (n - 48)
           else if ((97 <=? n) && (n <=? 122))%Z then Some (n - 87)
           else if ((65 <=? n) && (n <=? 90))%Z then Some (n - 55)
           else None in
  match v with
  | Some d => if d <? radix then Some d else None
  | None => None
  end.

(** The longest prefix of [s] made of digits of the radix. *)
Fixpoint take_digits (radix : Z) (s : string) : string :=
  match s with
  | EmptyString => EmptyString
  | String c s' =>
      match digit_value radix c with
      | Some _ => String c (take_digits radix s')
      | None => EmptyString
      end
  end.

(** The value of a string all of whose characters are digits of the radix
    ([acc] is the value read so far). *)
Fixpoint radix_digits (radix : Z) (s : string) (acc : Z) : option Z :=
  match s with
  | EmptyString => Some acc
  | String c s' =>
      match digit_value radix c with
      | Some d => radix_digits radix s' (radix * acc + d)
      | None => None
      end
  end.

Definition radix_value (radix : Z) (s : string) : option Z :=
  match s with
  | EmptyString => None
  | _ => radix_digits radix s 0
  end.

(** The value of a non-empty string of decimal digits. *)
Definition decimal_value (s : string) : option Z :=
  match s with
  | EmptyString => None
  | _ => option_map Z.of_uint (NilEmpty.uint_of_string s)
  end.

(** [parseInt(s)] with no radix argument: leading white space, an optional
    sign, an optional [0x] prefix selecting radix 16, then the longest run
    of digits; [NaN] when that run is empty.  The integer read is converted
    to a Number, i.e. rounded to the nearest double.  (Beyond 20 significant
    decimal digits ECMAScript lets an implementation approximate the
    integer before rounding; the exact integer is rounded here, as V8
    does.) *)
Definition parseInt (s : string) : number :=
  let s1 := skip_spaces s in
  let '(neg, s2) :=
    match s1 with
    | String "-"%char t => (true, t)
    | String "+"%char t => (false, t)
    | _ => (false, s1)
    end in
  let mathInt :=
    match s2 with
    | String "0"%char (String "x"%char t)
    | String "0"%char (String "X"%char t) => radix_value 16 (take_digits 16 t)
    | _ => decimal_value (take_digits 10 s2)
    end in
  match mathInt with
  | None => NaN
  | Some n => if neg then negate (roundToDouble n) else roundToDouble n
  end.

(** [BigInt(s)] on a string (StringToBigInt): surrounding white space is
    dropped, the empty string is [0n], a [0x]/[0o]/[0b] prefix selects the
    radix (no sign allowed then), otherwise an optional sign and decimal
    digits; anything else throws a SyntaxError. *)
Definition BigInt (s : string) : result Z :=
  let t := trim s in
  let parsed :=
    match t with
    | EmptyString => Some 0
    | String "0"%char (String "x"%char d)
    | String "0"%char (String "X"%char d) => radix_value 16 d
    | String "0"%char (String "o"%char d)
    | String "0"%char (String "O"%char d) => radix_value 8 d
    | String "0"%char (String "b"%char d)
    | String "0"%char (String "B"%char d) => radix_value 2 d
    | String "-"%char d => option_map Z.opp (decimal_value d)
    | String "+"%char d => decimal_value d
    | _ => decimal_value t
    end in
  match parsed with
  | Some z => Ok z
  | None => Err (mkError "SyntaxError" None ("Cannot convert " +:+ s +:+ " to a BigInt"))
  end.

End JS.

Import JS.

(** [result] is the exception monad of the embedding: [x ← m; k] is
    [const x = m] (or [await m]) followed by [k], a thrown value skipping
    [k]. *)
#[global] Instance result_ret : MRet result := fun _ a => Ok a.
#[global] Instance result_bind : MBind result := fun _ _ f m =>
  match m with
  | Ok a => f a
  | Err e => Err e
  end.

(** ** src/services/nearContractService.ts *)

Module NearContract.

(** Modelled from the spec: the interface [CrossChainBalanceSnapshot] of
    services/nearMpcService, which is not among the sources.  Its fields are
    those of the specification's Attestation record ([balance], [nonce],
    [deadline], [assets], [receiver]); as the callers build it, every field
    is a string, the integers in decimal. *)
Record CrossChainBalanceSnapshot := mkSnapshot {
  balance : string;
  nonce : string;
  deadline : string;
  assets : string;
  receiver : string
}.

Record MpcSignatureResponse := mkResponse {
  response_signature : string;
  response_agentAddress : string
}.

(** [process.env], the variables this file reads. *)
Record ProcessEnv := mkEnv {
  NEAR_ACCOUNT_ID : option string;
  NEAR_PRIVATE_KEY : option string;
  NEAR_CONTRACT_ID : option string;
  NEAR_RPC_URL : option string
}.

(** The object literal [args] handed to [account.functionCall]. *)
Record SnapshotDigestArgs := mkDigestArgs {
  args_balance : number;
  args_chain_id : number;
  args_verifying_contract : string;
  args_nonce : number;
  args_deadline : number;
  args_assets : string;
  args_receiver : string
}.

Record CallArgs := mkCallArgs {
  args : SnapshotDigestArgs;
  callback_gas_tgas : number
}.

Record FunctionCallOptions := mkCall {
  contractId : string;
  methodName : string;
  call_args : CallArgs;
  gas : string;
  attachedDeposit : string
}.

(** The part of the transaction outcome that is read:
    [result.status?.SuccessValue]. *)
Record ExecutionStatus := mkStatus { SuccessValue : option string }.
Record FinalExecutionOutcome := mkOutcome { status : option ExecutionStatus }.

(** A parsed JSON text.  Numbers are the integer literals ([Vec<u8>] is
    serialised as an array of them); a literal with a fraction or an
    exponent is outside the model. *)
#[local] Unset Elimination Schemes.
Inductive json :=
| JNull
| JBool (b : bool)
| JNumber (z : Z)
| JString (s : string)
| JArray (elements : list json)
| JObject (fields : list (string * json)).
#[local] Set Elimination Schemes.

(** The EIP-712 domain and type table passed to [TypedDataEncoder.hash]. *)
Record TypedDataDomain := mkDomain {
  name : string;
  version : string;
  chainId : Z;
  verifyingContract : string
}.

Definition TypedDataTypes := list (string * list (string * string)).

(** What the service calls outside the process: near-api-js ([KeyPair],
    [connect]/[account]/[functionCall]), Node's [Buffer] and [JSON], and
    ethers.  [World] is the state of the NEAR network, which a function call
    reads and changes. *)
Class External := {
  World : Type;
  KeyPair : Type;
  KeyPair_fromString : option string -> result KeyPair;
  (** [connect({networkId, keyStore, nodeUrl})], [near.account(accountId)]
      and [account.functionCall(options)] *)
  functionCall :
    World -> string -> list (string * string * KeyPair) -> string -> string ->
    FunctionCallOptions -> result FinalExecutionOutcome * World;
  (** [Buffer.from(v, 'base64').toString('utf8')] *)
  base64_to_utf8 : string -> string;
  JSON_parse : string -> result json;
  (** the number [Buffer.from(array)] reads from an element that is not a
      number literal *)
  ToNumber_other : json -> Z;
  TypedDataEncoder_hash :
    TypedDataDomain -> TypedDataTypes -> CrossChainBalanceSnapshot -> result string;
  recoverAddress : string -> string -> result string
}.

Section Service.
Context `{X : External}.

(** [InMemoryKeyStore]: the keys set so far, as (networkId, accountId, key). *)
Definition InMemoryKeyStore := list (string * string * KeyPair).

(** The fields of [class NearContractService]. *)
Record NearContractService := mkService {
  nearContractId : string;
  nearAccountId : string;
  agentAddress : string;
  keyStore : option InMemoryKeyStore;
  isInitialized : bool
}.

(** [constructor()] *)
Definition constructor (env : ProcessEnv) : result NearContractService :=
  if negb (truthy (NEAR_ACCOUNT_ID env)) || negb (truthy (NEAR_PRIVATE_KEY env)) then
    Err (Error "NEAR credentials required: Set NEAR_ACCOUNT_ID and NEAR_PRIVATE_KEY in .env")
  else if negb (truthy (NEAR_CONTRACT_ID env)) then
    Err (Error "NEAR_CONTRACT_ID required in .env")
  else
    Ok {| nearContractId := or_default (NEAR_CONTRACT_ID env) "";
          nearAccountId := or_default (NEAR_ACCOUNT_ID env) "";
          agentAddress := "0x20f2747bbc52453ac0774b5b2fe0e28dc6637f30";
          keyStore := None;
          isInitialized := false |}.

(** [initialize()]: the result and the object after the call. *)
Definition initialize (env : ProcessEnv) (this : NearContractService)
  : result unit * NearContractService :=
  if isInitialized this then (Ok tt, this)
  else
    let this1 := {| nearContractId := nearContractId this;
                    nearAccountId := nearAccountId this;
                    agentAddress := agentAddress this;
                    keyStore := Some [];
                    isInitialized := isInitialized this |} in
    match KeyPair_fromString (NEAR_PRIVATE_KEY env) with
    | Err e => (Err e, this1)
    | Ok keyPair =>
        (Ok tt,
         {| nearContractId := nearContractId this;
            nearAccountId := nearAccountId this;
            agentAddress := agentAddress this;
            keyStore := Some [("testnet", nearAccountId this, keyPair)];
            isInitialized := true |})
    end.

(** [getAgentAddress()] *)
Definition getAgentAddress (this : NearContractService) : string :=
  agentAddress this.

(** [const args = { args: {...}, callback_gas_tgas: 50 }] *)
Definition build_args (snapshot : CrossChainBalanceSnapshot)
    (vaultAddress : string) (chainId : Z) : CallArgs :=
  {| args := {| args_balance := parseInt (balance snapshot);
                args_chain_id := Num chainId;
                args_verifying_contract := vaultAddress;
                args_nonce := parseInt (nonce snapshot);
                args_deadline := parseInt (deadline snapshot);
                args_assets := assets snapshot;
                args_receiver := receiver snapshot |};
     callback_gas_tgas := Num 50 |}.

(** [Buffer.from(signatureArray)]: one byte per element. *)
Definition Buffer_from (elements : list json) : list Z :=
  map (fun j => match j with
                | JNumber z => toUint8 z
                | _ => toUint8 (ToNumber_other j)
                end) elements.

Definition domain_of (chainId : Z) (vaultAddress : string) : TypedDataDomain :=
  {| name := "AaveVault"; version := "1";
     chainId := chainId; verifyingContract := vaultAddress |}.

Definition types : TypedDataTypes :=
  [("CrossChainBalanceSnapshot",
    [("balance", "uint256"); ("nonce", "uint256"); ("deadline", "uint256");
     ("assets", "uint256"); ("receiver", "address")])].

(** [r || s || v] of the signature handed to [recoverAddress], from the
    65 bytes returned by the contract. *)
Definition signature65_of (signatureBytes : list Z) : string :=
  let r := firstn 32 signatureBytes in
  let s := firstn 32 (skipn 32 signatureBytes) in
  let recoveryId := nth 64 signatureBytes 0 in
  let v := recoveryId + 27 in
  hexlify (r ++ s ++ [toUint8 v]).

(** The body of [signBalanceSnapshot] after the transaction has completed:
    decode the return value, rebuild the signature, verify the signer. *)
Definition decode_and_verify (this : NearContractService)
    (snapshot : CrossChainBalanceSnapshot) (vaultAddress : string) (chainId : Z)
    (outcome : FinalExecutionOutcome) : result MpcSignatureResponse :=
  match status outcome ≫= SuccessValue with
  | None => Err (Error "No SuccessValue in NEAR transaction result")
  | Some successValue =>
    if String.eqb successValue "" then
      Err (Error "No SuccessValue in NEAR transaction result")
    else
      let returnString := base64_to_utf8 successValue in
      signatureArray ← JSON_parse returnString;
      match signatureArray with
      | JArray elements =>
          let signatureBytes := Buffer_from elements in
          if negb (Z.of_nat (length signatureBytes) =? 65) then
            Err (Error ("Invalid signature length: "
                        +:+ toString (Z.of_nat (length signatureBytes))
                        +:+ ", expected 65"))
          else
            let signature65 := signature65_of signatureBytes in
            digest ← TypedDataEncoder_hash (domain_of chainId vaultAddress) types
                       {| balance := balance snapshot; nonce := nonce snapshot;
                          deadline := deadline snapshot; assets := assets snapshot;
                          receiver := receiver snapshot |};
            recoveredAddress ← recoverAddress digest signature65;
            if negb (String.eqb (toLowerCase recoveredAddress)
                                (toLowerCase (agentAddress this))) then
              Err (Error ("Signature verification failed! Recovered "
                          +:+ recoveredAddress +:+ ", expected "
                          +:+ agentAddress this))
            else
              Ok {| response_signature := signature65;
                    response_agentAddress := agentAddress this |}
      | _ => Err (Error "Expected signature to be an array of bytes")
      end
  end.

(** The remote call of [signBalanceSnapshot]: [connect], [near.account]
    and [account.functionCall] with the arguments built from the snapshot. *)
Definition call_contract (env : ProcessEnv) (w : World) (this : NearContractService)
    (snapshot : CrossChainBalanceSnapshot) (vaultAddress : string) (chainId : Z)
  : result FinalExecutionOutcome * World :=
  let args := build_args snapshot vaultAddress chainId in
  functionCall w "testnet" (default [] (keyStore this))
    (or_default (NEAR_RPC_URL env) "https://rpc.testnet.near.org")
    (nearAccountId this)
    {| contractId := nearContractId this;
       methodName := "build_and_sign_crosschain_balance_snapshot_tx";
       call_args := args;
       gas := "300000000000000";
       attachedDeposit := "0" |}.

(** [signBalanceSnapshot(snapshot, vaultAddress, chainId)]: the value the
    promise settles with, the object and the network after the call.  The
    [catch] block logs and rethrows, so a thrown value is the result. *)
Definition signBalanceSnapshot (env : ProcessEnv) (w : World)
    (this : NearContractService)
    (snapshot : CrossChainBalanceSnapshot) (vaultAddress : string) (chainId : Z)
  : result MpcSignatureResponse * NearContractService * World :=
  let '(initialized, this1) :=
    if negb (isInitialized this) then initialize env this else (Ok tt, this) in
  match initialized with
  | Err e => (Err e, this1, w)
  | Ok _ =>
      let '(called, w1) := call_contract env w this1 snapshot vaultAddress chainId in
      match called with
      | Err e => (Err e, this1, w1)
      | Ok outcome =>
          (decode_and_verify this1 snapshot vaultAddress chainId outcome, this1, w1)
      end
  end.

(** [getNearContract()] with the module-level [instance]. *)
Definition getNearContract (env : ProcessEnv) (instance : option NearContractService)
  : result NearContractService * option NearContractService :=
  match instance with
  | Some i => (Ok i, instance)
  | None =>
      match constructor env with
      | Ok i => (Ok i, Some i)
      | Err e => (Err e, None)
      end
  end.

(** The states of the service object a process can be in: built by the
    constructor, then any number of calls of its methods, under any
    environment and any behaviour of the network. *)
Inductive reachable : NearContractService -> Prop :=
| reach_constructor env this :
    constructor env = Ok this -> reachable this
| reach_initialize env this r this' :
    reachable this -> initialize env this = (r, this') -> reachable this'
| reach_sign env w this snapshot vaultAddress chainId r this' w' :
    reachable this ->
    signBalanceSnapshot env w this snapshot vaultAddress chainId = (r, this', w') ->
    reachable this'.

End Service.

End NearContract.

(** ** src/config/chains.ts and src/services/balanceFetcher.ts *)

Module BalanceFetcher.

(** Modelled from the spec: the interfaces [ChainConfig], [ChainBalance],
    [VaultBalance] and [AggregatedBalances] of src/types, which is not among
    the sources.  The fields are those the specification's data model lists
    and the code reads and writes; balances are decimal strings, and
    [vaultAddress] is optional. *)
Record ChainConfig := mkChain {
  chainId : Z;
  name : string;
  rpcUrl : string;
  aavePoolAddress : string;
  usdcAddress : string;
  vaultAddress : option string
}.

Record ChainBalance := mkChainBalance {
  cb_chainId : Z;
  cb_chainName : string;
  cb_aTokenBalance : string;
  cb_aTokenAddress : string;
  cb_blockNumber : Z;
  cb_timestamp : Z
}.

Record VaultBalance := mkVaultBalance {
  vb_chainId : Z;
  vb_chainName : string;
  vb_vaultAddress : string;
  vb_usdcBalance : string;
  vb_aTokenBalance : string;
  vb_blockNumber : Z;
  vb_timestamp : Z
}.

(** [Omit<AggregatedBalances, 'agentAddress'>] *)
Record AggregatedBalances := mkAggregated {
  totalATokens : string;
  totalUSDC : string;
  totalValue : string;
  chainBalances : list ChainBalance;
  vaultBalances : list VaultBalance;
  timestamp : Z
}.

(** *** config/chains.ts *)

Record ChainsEnv := mkChainsEnv {
  ETHEREUM_SEPOLIA_RPC : option string;
  BASE_SEPOLIA_RPC : option string;
  ARBITRUM_SEPOLIA_RPC : option string;
  OPTIMISM_SEPOLIA_RPC : option string;
  BASE_VAULT_ADDRESS : option string;
  ARBITRUM_VAULT_ADDRESS : option string
}.

(** The record [SUPPORTED_CHAINS], in property order. *)
Definition SUPPORTED_CHAINS (env : ChainsEnv) : list (string * ChainConfig) :=
  [ ("ethereumSepolia",
     {| chainId := 11155111;
        name := "Ethereum Sepolia";
        rpcUrl := or_default (ETHEREUM_SEPOLIA_RPC env)
                    "https://ethereum-sepolia-rpc.publicnode.com";
        aavePoolAddress := "0x6Ae43d3271ff6888e7Fc43Fd7321a503ff738951";
        usdcAddress := "0xaA8E23Fb1079EA71e0a56F48a2aA51851D8433D0";
        vaultAddress := None |});
    ("baseSepolia",
     {| chainId := 84532;
        name := "Base Sepolia";
        rpcUrl := or_default (BASE_SEPOLIA_RPC env) "https://sepolia.base.org";
        aavePoolAddress := "0x6a9d64f93db660eacb2b6e9424792c630cda87d8";
        usdcAddress := "0x036CbD53842c5426634e7929541eC2318f3dCF7e";
        vaultAddress := Some (or_default (BASE_VAULT_ADDRESS env)
                                "0x773035EABdA16B5416B26E12156483C6B6F56451") |});
    ("arbitrumSepolia",
     {| chainId := 421614;
        name := "Arbitrum Sepolia";
        rpcUrl := or_default (ARBITRUM_SEPOLIA_RPC env)
                    "https://sepolia-rollup.arbitrum.io/rpc";
        aavePoolAddress := "0xBfC91D59fdAA134A4ED45f7B584cAf96D7792Eff";
        usdcAddress := "0x75faf114eafb1BDbe2F0316DF893fd58CE46AA4d";
        vaultAddress := Some (or_default (ARBITRUM_VAULT_ADDRESS env)
                                "0xE168d95f8d1B8EC167A63c8E696076EC8EE95337") |});
    ("optimismSepolia",
     {| chainId := 11155420;
        name := "Optimism Sepolia";
        rpcUrl := or_default (OPTIMISM_SEPOLIA_RPC env) "https://sepolia.optimism.io";
        aavePoolAddress := "0xb50201558B00496A145fE76f7424749556E326D8";
        usdcAddress := "0x5fd84259d66Cd46123540766Be93DFE6D43130D7";
        vaultAddress := None |}) ].

(** The functions of chains.ts take the table they read as an argument, so
    that they can be stated for any configuration. *)
Definition getAllChains (supported : list (string * ChainConfig)) : list ChainConfig :=
  map snd supported.

Definition getChainById (supported : list (string * ChainConfig)) (id : Z)
  : option ChainConfig :=
  find (fun chain => chainId chain =? id) (map snd supported).

Definition getAllVaults (supported : list (string * ChainConfig)) : list (Z * string) :=
  omap (fun chain =>
          match vaultAddress chain with
          | Some v => if String.eqb v "" then None else Some (chainId chain, v)
          | None => None
          end) (map snd supported).

(** *** balanceFetcher.ts *)

(** The property names every object literal inherits from
    [Object.prototype]. *)
Definition Object_prototype_names : list string :=
  [ "constructor"; "__proto__"; "hasOwnProperty"; "isPrototypeOf";
    "propertyIsEnumerable"; "toLocaleString"; "toString"; "valueOf";
    "__defineGetter__"; "__defineSetter__"; "__lookupGetter__"; "__lookupSetter__" ].

(** [KNOWN_ATOKEN_ADDRESSES]: chain id, then lower-case asset address.  The
    map holds the own properties of the object literal.  Read with a key of
    [Object_prototype_names], a chain's object answers with the inherited
    member, which is no string: [getATokenAddress] is embedded for the
    assets whose lower-case form is none of these names, and the statements
    about the table say so. *)
Definition KNOWN_ATOKEN_ADDRESSES : gmap Z (gmap string string) :=
  list_to_map
    [ (11155111,
       list_to_map
         [ ("0xaa8e23fb1079ea71e0a56f48a2aa51851d8433d0",
            "0x8A458A9dc9048e005d22849F470891b840296619") ]);
      (84532,
       list_to_map
         [ ("0x036cbd53842c5426634e7929541ec2318f3dcf7e",
            "0x4e65fE4DbA92790696d040ac24Aa414708F5c0AB");
           ("0x75faf114eafb1bdbe2f0316df893fd58ce46aa4d",
            "0x4e65fE4DbA92790696d040ac24Aa414708F5c0AB") ]);
      (421614,
       list_to_map
         [ ("0x75faf114eafb1bdbe2f0316df893fd58ce46aa4d",
            "0x460b97BD498E1157530AEb3086301d5225b91216") ]);
      (11155420,
       list_to_map
         [ ("0x5fd84259d66cd46123540766be93dfe6d43130d7",
            "0x16dA4541aD1807f4443d92D26044C1147406EB80") ]) ].

(** The chain RPC endpoints, through ethers' [JsonRpcProvider] and
    [Contract], and ethers' [formatUnits].  [World] is everything outside
    the process (the chains and the clock); every call reads it and may
    change it.  A call names the endpoint URL, the contract address and its
    arguments.

    A method that returns [uint256] ([totalAssets], and [balanceOf] with
    the ERC-20 signature: [ERC20_ABI] of config/abis is not among the
    sources) is a request followed by the decoding of the return data
    ([Interface.decodeFunctionResult]).  The request fails with whatever
    error the provider reports, or yields the bytes the node returned; the
    decoding yields an integer below 2^256, or throws an error with the code
    BAD_DATA, as it does for empty return data.

    [formatUnits(value, 6)] goes through a signed fixed-point number of 512
    bits: it throws a RangeError (code NUMERIC_FAULT) exactly when [value]
    is outside [-2^511, 2^511). *)
Class Rpc := {
  World : Type;
  (** [aavePool.getReserveData(asset)] then [.aTokenAddress] *)
  getReserveData : World -> string -> string -> string -> result string * World;
  (** the request of [token.balanceOf(holder)] *)
  call_balanceOf : World -> string -> string -> string -> result (list Z) * World;
  (** [provider.getBlockNumber()] *)
  getBlockNumber : World -> string -> result Z * World;
  (** the request of [vault.totalAssets()] *)
  call_totalAssets : World -> string -> string -> result (list Z) * World;
  (** the decoding of return data as one [uint256] *)
  decode_uint256 : list Z -> result Z;
  (** [ethers.formatUnits(value, decimals)] *)
  formatUnits : Z -> Z -> result string;
  (** [Date.now()], in milliseconds *)
  Date_now : World -> Z;
  decode_uint256_range : forall data v,
    decode_uint256 data = Ok v -> 0 <= v < 2 ^ 256;
  decode_uint256_BAD_DATA : forall data e,
    decode_uint256 data = Err e -> ecode e = Some "BAD_DATA";
  decode_uint256_empty : is_err (decode_uint256 []) = true;
  formatUnits_fits : forall value,
    - 2 ^ 511 <= value < 2 ^ 511 -> is_ok (formatUnits value 6) = true;
  formatUnits_overflow : forall value,
    ~ (- 2 ^ 511 <= value < 2 ^ 511) ->
    exists message,
      formatUnits value 6 = Err (mkError "RangeError" (Some "NUMERIC_FAULT") message)
}.

Section Fetcher.
Context `{R : Rpc}.

(** [token.balanceOf(holder)] *)
Definition balanceOf (w : World) (url token holder : string) : result Z * World :=
  let '(data, w') := call_balanceOf w url token holder in
  (data ≫= decode_uint256, w').

(** [vault.totalAssets()] *)
Definition totalAssets (w : World) (url vault : string) : result Z * World :=
  let '(data, w') := call_totalAssets w url vault in
  (data ≫= decode_uint256, w').

(** The module-level cache and the world. *)
Record State := mkState {
  aTokenAddressCache : gmap string string;
  world : World
}.

(** The state with the world replaced. *)
Definition with_world (st : State) (w : World) : State :=
  {| aTokenAddressCache := aTokenAddressCache st; world := w |}.

(** An [async] function body: it settles with a value or a thrown error and
    leaves a new state behind. *)
Definition Async (A : Type) : Type := State -> result A * State.

Definition async_ret {A} (a : A) : Async A := fun st => (Ok a, st).

Definition async_bind {A B} (m : Async A) (k : A -> Async B) : Async B :=
  fun st =>
    match m st with
    | (Ok a, st') => k a st'
    | (Err e, st') => (Err e, st')
    end.

Definition throw {A} (e : jserror) : Async A := fun st => (Err e, st).

(** [try { m } catch (e) { handler e }] *)
Definition try_catch {A} (m : Async A) (handler : jserror -> Async A) : Async A :=
  fun st =>
    match m st with
    | (Ok a, st') => (Ok a, st')
    | (Err e, st') => handler e st'
    end.

(** An awaited RPC call. *)
Definition call {A} (f : World -> result A * World) : Async A :=
  fun st =>
    let '(r, w) := f (world st) in
    (r, {| aTokenAddressCache := aTokenAddressCache st; world := w |}).

Definition now_seconds : Async Z :=
  fun st => (Ok (Date_now (world st) / 1000), st).

(** An expression that may throw, inside an [async] body. *)
Definition lift {A} (r : result A) : Async A := fun st => (r, st).

#[local] Notation "x <~ m ;; k" := (async_bind m (fun x => k))
  (at level 100, m at next level, right associativity, only parsing).

(** [Promise.all(promises)]: every branch runs; the result is the array of
    their values when all fulfil and a rejection when one rejects.  The
    branches are run here in array order, and of several rejections the one
    reported is the first in that order (in the program it is the first in
    time). *)
Fixpoint run_all {A} (ms : list (Async A)) (st : State) : list (result A) * State :=
  match ms with
  | [] => ([], st)
  | m :: ms' =>
      let '(r, st1) := m st in
      let '(rs, st2) := run_all ms' st1 in
      (r :: rs, st2)
  end.

Fixpoint all_fulfilled {A} (rs : list (result A)) : result (list A) :=
  match rs with
  | [] => Ok []
  | Err e :: _ => Err e
  | Ok a :: rs' =>
      match all_fulfilled rs' with
      | Ok l => Ok (a :: l)
      | Err e => Err e
      end
  end.

Definition Promise_all {A} (ms : list (Async A)) : Async (list A) :=
  fun st => let '(rs, st') := run_all ms st in (all_fulfilled rs, st').

(** [getATokenAddress(chainConfig, usdcAddress)] *)
Definition getATokenAddress (chainConfig : ChainConfig) (usdcAddress : string)
  : Async string :=
  fun st =>
    let cacheKey := toString (chainId chainConfig) +:+ "-" +:+ usdcAddress in
    match aTokenAddressCache st !! cacheKey with
    | Some cached => (Ok cached, st)
    | None =>
        try_catch
          (aTokenAddress <~ call (fun w => getReserveData w (rpcUrl chainConfig)
                                             (aavePoolAddress chainConfig) usdcAddress) ;;
           fun st1 =>
             (Ok aTokenAddress,
              {| aTokenAddressCache := <[cacheKey := aTokenAddress]> (aTokenAddressCache st1);
                 world := world st1 |}))
          (fun error st1 =>
             match KNOWN_ATOKEN_ADDRESSES !! chainId chainConfig
                     ≫= (fun chainAddresses => chainAddresses !! toLowerCase usdcAddress) with
             | Some aTokenAddress =>
                 if String.eqb aTokenAddress "" then
                   (Err (Error ("Failed to get aToken address on " +:+ name chainConfig
                                +:+ ": " +:+ error_toString error)), st1)
                 else
                   (Ok aTokenAddress,
                    {| aTokenAddressCache :=
                         <[cacheKey := aTokenAddress]> (aTokenAddressCache st1);
                       world := world st1 |})
             | None =>
                 (Err (Error ("Failed to get aToken address on " +:+ name chainConfig
                              +:+ ": " +:+ error_toString error)), st1)
             end)
          st
    end.

(** [fetchATokenBalance(chainConfig, agentAddress)].  Of the log lines
    only the one that calls [formatUnits] can throw; [logged] is its
    text. *)
Definition fetchATokenBalance (chainConfig : ChainConfig) (agentAddress : string)
  : Async ChainBalance :=
  try_catch
    (aTokenAddress <~ getATokenAddress chainConfig (usdcAddress chainConfig) ;;
     balance <~ try_catch
                  (call (fun w => balanceOf w (rpcUrl chainConfig) aTokenAddress agentAddress))
                  (fun balanceError =>
                     if decide (ecode balanceError = Some "BAD_DATA")
                     then async_ret 0
                     else throw balanceError) ;;
     blockNumber <~ call (fun w => getBlockNumber w (rpcUrl chainConfig)) ;;
     seconds <~ now_seconds ;;
     logged <~ lift (formatUnits balance 6) ;;
     async_ret {| cb_chainId := chainId chainConfig;
                  cb_chainName := name chainConfig;
                  cb_aTokenBalance := toString balance;
                  cb_aTokenAddress := aTokenAddress;
                  cb_blockNumber := blockNumber;
                  cb_timestamp := seconds |})
    (fun error =>
       throw (Error ("Failed to fetch aToken balance on " +:+ name chainConfig
                     +:+ ": " +:+ error_toString error))).

(** [fetchVaultUSDCBalance(chainConfig, vaultAddress)] *)
Definition fetchVaultUSDCBalance (chainConfig : ChainConfig) (vaultAddress : string)
  : Async string :=
  try_catch
    (balance <~ try_catch
                  (call (fun w => balanceOf w (rpcUrl chainConfig)
                                    (usdcAddress chainConfig) vaultAddress))
                  (fun balanceError =>
                     if decide (ecode balanceError = Some "BAD_DATA")
                     then async_ret 0
                     else throw balanceError) ;;
     logged <~ lift (formatUnits balance 6) ;;
     async_ret (toString balance))
    (fun error =>
       throw (Error ("Failed to fetch USDC balance on " +:+ name chainConfig
                     +:+ ": " +:+ error_toString error))).

(** [fetchVaultATokenBalance(chainConfig, vaultAddress)] *)
Definition fetchVaultATokenBalance (chainConfig : ChainConfig) (vaultAddress : string)
  : Async string :=
  try_catch
    (aTokenAddress <~ getATokenAddress chainConfig (usdcAddress chainConfig) ;;
     balance <~ try_catch
                  (call (fun w => balanceOf w (rpcUrl chainConfig) aTokenAddress vaultAddress))
                  (fun balanceError =>
                     if decide (ecode balanceError = Some "BAD_DATA")
                     then async_ret 0
                     else throw balanceError) ;;
     logged <~ lift (formatUnits balance 6) ;;
     async_ret (toString balance))
    (fun error =>
       throw (Error ("Failed to fetch vault aToken balance on " +:+ name chainConfig
                     +:+ ": " +:+ error_toString error))).

(** [fetchVaultBalance(chainConfig, vaultAddress)].  The inner [try]
    either assigns [totalAssets] ([inl]) or, in its [catch], returns the
    fallback record ([inr]). *)
Definition fetchVaultBalance (chainConfig : ChainConfig) (vaultAddress : string)
  : Async VaultBalance :=
  try_catch
    (blockNumber <~ call (fun w => getBlockNumber w (rpcUrl chainConfig)) ;;
     attempt <~ try_catch
       (totalAssets <~ call (fun w => totalAssets w (rpcUrl chainConfig) vaultAddress) ;;
        logged <~ lift (formatUnits totalAssets 6) ;;
        async_ret (inl totalAssets))
       (fun error =>
          balances <~ Promise_all [ fetchVaultUSDCBalance chainConfig vaultAddress;
                                    fetchVaultATokenBalance chainConfig vaultAddress ] ;;
          seconds <~ now_seconds ;;
          async_ret (inr {| vb_chainId := chainId chainConfig;
                            vb_chainName := name chainConfig;
                            vb_vaultAddress := vaultAddress;
                            vb_usdcBalance := nth 0 balances "";
                            vb_aTokenBalance := nth 1 balances "";
                            vb_blockNumber := blockNumber;
                            vb_timestamp := seconds |})) ;;
     match attempt with
     | inr fallback => async_ret fallback
     | inl totalAssets =>
         seconds <~ now_seconds ;;
         async_ret {| vb_chainId := chainId chainConfig;
                      vb_chainName := name chainConfig;
                      vb_vaultAddress := vaultAddress;
                      vb_usdcBalance := "0";
                      vb_aTokenBalance := toString totalAssets;
                      vb_blockNumber := blockNumber;
                      vb_timestamp := seconds |}
     end)
    (fun error =>
       throw (Error ("Failed to fetch vault balance on " +:+ name chainConfig
                     +:+ ": " +:+ error_toString error))).

(** The array of promises [chains.map(async (chain) => {...})] of
    [fetchChainBalances]; the [catch] logs and rethrows. *)
Definition chain_promises (supported : list (string * ChainConfig))
    (agentAddress : string) : list (Async ChainBalance) :=
  map (fun chain =>
         try_catch (fetchATokenBalance chain agentAddress)
                   (fun error => throw error))
      (getAllChains supported).

(** [fetchChainBalances(agentAddress)] *)
Definition fetchChainBalances (supported : list (string * ChainConfig))
    (agentAddress : string) : Async (list ChainBalance) :=
  Promise_all (chain_promises supported agentAddress).

(** The array of promises [vaults.map(async ({chainId, vaultAddress}) =>
    {...})] of [fetchVaultBalances]. *)
Definition vault_promises (supported : list (string * ChainConfig))
  : list (Async VaultBalance) :=
  map (fun '(chainId, vaultAddress) =>
         match getChainById supported chainId with
         | None => throw (Error ("Chain " +:+ toString chainId +:+ " not found"))
         | Some chain =>
             try_catch (fetchVaultBalance chain vaultAddress)
                       (fun error => throw error)
         end)
      (getAllVaults supported).

(** [fetchVaultBalances()] *)
Definition fetchVaultBalances (supported : list (string * ChainConfig))
  : Async (list VaultBalance) :=
  Promise_all (vault_promises supported).

(** [array.reduce((sum, x) => sum + BigInt(f(x)), BigInt(0))] *)
Definition sum_BigInt {A} (f : A -> string) (l : list A) : result Z :=
  fold_left (fun sum x => s ← sum; b ← BigInt (f x); Ok (s + b)) l (Ok 0).

(** [aggregateBalances(chainBalances, vaultBalances)]; [now] is the value
    of [Date.now()].  The four log lines call [formatUnits] on the totals,
    in this order. *)
Definition aggregateBalances (now : Z)
    (chainBalances : list ChainBalance) (vaultBalances : list VaultBalance)
  : result AggregatedBalances :=
  totalVaultATokens ← sum_BigInt vb_aTokenBalance vaultBalances;
  totalVaultUSDC ← sum_BigInt vb_usdcBalance vaultBalances;
  let totalATokens := totalVaultATokens in
  let totalValue := totalATokens + totalVaultUSDC in
  logged1 ← formatUnits totalVaultATokens 6;
  logged2 ← formatUnits totalVaultUSDC 6;
  logged3 ← formatUnits totalATokens 6;
  logged4 ← formatUnits totalValue 6;
  Ok {| totalATokens := toString totalATokens;
        totalUSDC := toString totalVaultUSDC;
        totalValue := toString totalValue;
        chainBalances := chainBalances;
        vaultBalances := vaultBalances;
        timestamp := now / 1000 |}.

End Fetcher.

(** The exact sum of a list of integers. *)
Definition Zsum (l : list Z) : Z := foldr Z.add 0 l.

End BalanceFetcher.

(** ** src/services/oracleService.ts: [getPoolValue] *)

Module Oracle.

Import BalanceFetcher.

Record BreakdownEntry := mkBreakdown {
  entry_chainId : Z;
  entry_chainName : string;
  aTokens : string;
  usdc : string
}.

Record PoolValueResponse := mkPoolValue {
  pool_totalATokens : string;
  pool_totalUSDC : string;
  totalPoolValue : string;
  breakdown : list BreakdownEntry;
  pool_timestamp : Z
}.

Section OracleService.
Context `{X : NearContract.External} `{R : Rpc}.

(** [class OracleService]: its one field. *)
Record OracleService := mkOracle {
  nearMpc : NearContract.NearContractService
}.

#[local] Notation "x <~ m ;; k" := (async_bind m (fun x => k))
  (at level 100, m at next level, right associativity, only parsing).

(** [getPoolValue(vaultChainId?)]; the argument is not read.  The [catch]
    logs and rethrows. *)
Definition getPoolValue (supported : list (string * ChainConfig)) (this : OracleService)
  : Async PoolValueResponse :=
  try_catch
    (let agentAddress := NearContract.getAgentAddress (nearMpc this) in
     chainBalances <~ fetchChainBalances supported agentAddress ;;
     vaultBalances <~ fetchVaultBalances supported ;;
     aggregated <~ (fun st =>
                      (aggregateBalances (Date_now (world st)) chainBalances vaultBalances,
                       st)) ;;
     let breakdown :=
       map (fun vb => {| entry_chainId := vb_chainId vb;
                         entry_chainName := vb_chainName vb;
                         aTokens := vb_aTokenBalance vb;
                         usdc := vb_usdcBalance vb |}) vaultBalances in
     seconds <~ now_seconds ;;
     async_ret {| pool_totalATokens := totalATokens aggregated;
                  pool_totalUSDC := totalUSDC aggregated;
                  totalPoolValue := totalValue aggregated;
                  breakdown := breakdown;
                  pool_timestamp := seconds |})
    (fun error => throw error).

End OracleService.

(** *** [generateBalanceSnapshot] *)

(** [SignedBalanceSnapshot]: the snapshot's fields, the signature and the
    agent address. *)
Record SignedBalanceSnapshot := mkSigned {
  signed_balance : string;
  signed_nonce : string;
  signed_deadline : string;
  signed_assets : string;
  signed_receiver : string;
  signed_signature : string;
  signed_agentAddress : string
}.

(** The two readers of services/vaultService, which is not among the
    sources: they are taken as calls to the chain, like the other RPC
    calls.  Each is given (vaultAddress, rpcUrl, chainId) and settles with an
    integer, on which the caller calls [toString()]. *)
Class VaultService `{R : Rpc} := {
  getCrossChainInvestedAssets : World -> string -> string -> Z -> result Z * World;
  getVaultNonce : World -> string -> string -> Z -> result Z * World
}.

Section Snapshot.
Context `{X : NearContract.External} `{R : Rpc} `{V : !VaultService}.

(** [getChainById(vaultChainId)] together with the test
    [!vaultChain || !vaultChain.vaultAddress]: the chain and its vault
    address when both are there. *)
Definition configured_vault (supported : list (string * ChainConfig)) (vaultChainId : Z)
  : option (ChainConfig * string) :=
  match getChainById supported vaultChainId with
  | Some vaultChain =>
      match vaultAddress vaultChain with
      | Some v => if String.eqb v "" then None else Some (vaultChain, v)
      | None => None
      end
  | None => None
  end.

(** [generateBalanceSnapshot(assets, receiver, vaultChainId)]: the value the
    promise settles with, the oracle object (whose [nearMpc] the signing
    call may initialise), the fetcher's state and the NEAR network after the
    call.  The [catch] logs and rethrows. *)
Definition generateBalanceSnapshot (supported : list (string * ChainConfig))
    (env : NearContract.ProcessEnv) (this : OracleService)
    (assets receiver : string) (vaultChainId : Z)
    (st : State) (w : NearContract.World)
  : result SignedBalanceSnapshot * OracleService * State * NearContract.World :=
  let agentAddress := NearContract.getAgentAddress (nearMpc this) in
  match fetchChainBalances supported agentAddress st with
  | (Err e, st1) => (Err e, this, st1, w)
  | (Ok chainBalances, st1) =>
  match fetchVaultBalances supported st1 with
  | (Err e, st2) => (Err e, this, st2, w)
  | (Ok vaultBalances, st2) =>
  match aggregateBalances (Date_now (world st2)) chainBalances vaultBalances with
  | Err e => (Err e, this, st2, w)
  | Ok aggregated =>
  match configured_vault supported vaultChainId with
  | None =>
      (Err (Error ("No vault configured for chain " +:+ toString vaultChainId)),
       this, st2, w)
  | Some (vaultChain, vault) =>
  match call (fun rw => getCrossChainInvestedAssets rw vault (rpcUrl vaultChain)
                          vaultChainId) st2 with
  | (Err e, st3) => (Err e, this, st3, w)
  | (Ok crossChainBalance, st3) =>
  match call (fun rw => getVaultNonce rw vault (rpcUrl vaultChain) vaultChainId) st3 with
  | (Err e, st4) => (Err e, this, st4, w)
  | (Ok nonce, st4) =>
      let deadline := Date_now (world st4) / 1000 + 300 in
      let snapshot :=
        {| NearContract.balance := toString crossChainBalance;
           NearContract.nonce := toString nonce;
           NearContract.deadline := toString deadline;
           NearContract.assets := assets;
           NearContract.receiver := receiver |} in
      match NearContract.signBalanceSnapshot env w (nearMpc this) snapshot vault
              (chainId vaultChain) with
      | (Err e, nearMpc', w') => (Err e, {| nearMpc := nearMpc' |}, st4, w')
      | (Ok response, nearMpc', w') =>
          (Ok {| signed_balance := NearContract.balance snapshot;
                 signed_nonce := NearContract.nonce snapshot;
                 signed_deadline := NearContract.deadline snapshot;
                 signed_assets := NearContract.assets snapshot;
                 signed_receiver := NearContract.receiver snapshot;
                 signed_signature := NearContract.response_signature response;
                 signed_agentAddress := agentAddress |},
           {| nearMpc := nearMpc' |}, st4, w')
      end
  end end end end end end.

End Snapshot.

End Oracle.

(** ** derive-agent-address.ts (the same function is repeated in
    verify-agent-address.ts) *)

Module Derive.

Definition NEAR_CONTRACT_ID : string := "rebalancer-abcdefghij-57.testnet".
Definition PATH : string := "ethereum-1".
Definition MPC_CONTRACT : string := "v1.signer-prod.testnet".
Definition EPSILON_DERIVATION_PREFIX : string :=
  "near-mpc-recovery v0.1.0 epsilon derivation:".

(** What the script imports: the NEAR provider, base58, sha3, js-sha3 and
    secp256k1 (all three curve functions are called with
    [compressed = false]). *)
Class Libraries := {
  (** [provider.query({... account_id, method_name: 'public_key' ...})]
      followed by [JSON.parse(Buffer.from(result.result).toString())] *)
  query_public_key : string -> result string;
  base_decode : string -> result (list Z);
  (** [new SHA3(256)], [update(string)], [digest()] *)
  SHA3_256 : string -> list Z;
  keccak256 : list Z -> list Z;
  publicKeyConvert : list Z -> result (list Z);
  publicKeyCreate : list Z -> result (list Z);
  publicKeyCombine : list (list Z) -> result (list Z)
}.

Fixpoint starts_with (pat s : string) : bool :=
  match pat, s with
  | EmptyString, _ => true
  | String a pat', String b s' => Ascii.eqb a b && starts_with pat' s'
  | String _ _, EmptyString => false
  end.

Fixpoint drop_chars (n : nat) (s : string) : string :=
  match n, s with
  | O, _ => s
  | S n', String _ s' => drop_chars n' s'
  | S _, EmptyString => EmptyString
  end.

(** [s.replace(pat, rep)] with a string pattern: the first occurrence. *)
Fixpoint replace (pat rep s : string) : string :=
  if starts_with pat s then rep +:+ drop_chars (String.length pat) s
  else match s with
       | EmptyString => EmptyString
       | String c s' => String c (replace pat rep s')
       end.

(** [buf.slice(-n)] *)
Definition slice_last (n : nat) (bs : list Z) : list Z :=
  skipn (length bs - n) bs.

Section Script.
Context `{L : Libraries}.

(** [deriveAgentAddress()], with the two module constants it reads as
    arguments. *)
Definition deriveAgentAddress (contractId path : string) : result string :=
  publicKeyStr ← query_public_key MPC_CONTRACT;
  let rootPublicKey := replace "secp256k1:" "" publicKeyStr in
  let derivationString :=
    EPSILON_DERIVATION_PREFIX +:+ contractId +:+ "," +:+ path in
  let epsilonHash := SHA3_256 derivationString in
  decoded ← base_decode rootPublicKey;
  rootPkBytes ←
    (if (length decoded =? 64)%nat then Ok (4 :: decoded)
     else if (length decoded =? 33)%nat then publicKeyConvert decoded
     else Ok decoded);
  epsilonPoint ← publicKeyCreate epsilonHash;
  derivedPkBytes ← publicKeyCombine [rootPkBytes; epsilonPoint];
  let pkForHashing := skipn 1 derivedPkBytes in
  let addressHash := keccak256 pkForHashing in
  Ok ("0x" +:+ toHex (slice_last 20 addressHash)).

End Script.

(** The big-endian integer held in a byte string. *)
Definition be_int (bytes : list Z) : Z :=
  fold_left (fun acc b => 256 * acc + b) bytes 0.

(** *** The derivation as the specification words it

    The curve as a group, and what the libraries compute in terms of it.
    [mulG k] is [k * G] ([None] when [k] is not a valid scalar), [padd] is
    point addition ([None] for the point at infinity), [raw P] is [X || Y]
    (the uncompressed form without its marker byte) and [compressed P] the
    33-byte form.  A SHA3-256 digest has 32 bytes; [publicKeyCreate] takes
    a private key of exactly 32 bytes (it throws on any other length) and
    reads it as a big-endian scalar. *)
Class Secp256k1 `{L : Libraries} := {
  Point : Type;
  mulG : Z -> option Point;
  padd : Point -> Point -> option Point;
  raw : Point -> list Z;
  compressed : Point -> list Z;
  raw_length : forall P, length (raw P) = 64%nat;
  compressed_length : forall P, length (compressed P) = 33%nat;
  SHA3_256_length : forall s, length (SHA3_256 s) = 32%nat;
  SHA3_256_bytes : forall s, Forall is_byte (SHA3_256 s);
  publicKeyConvert_spec : forall P,
    publicKeyConvert (compressed P) = Ok (4 :: raw P);
  publicKeyCreate_spec : forall bytes E,
    length bytes = 32%nat -> Forall is_byte bytes ->
    mulG (be_int bytes) = Some E ->
    publicKeyCreate bytes = Ok (4 :: raw E);
  publicKeyCombine_spec : forall P Q D,
    padd P Q = Some D ->
    publicKeyCombine [4 :: raw P; 4 :: raw Q] = Ok (4 :: raw D)
}.

(** Steps 1, 3, 4 and 5 of the specification's algorithm: epsilon is the
    hash of [prefix || contractId || "," || path], the derived point is
    [root + epsilon * G], the address the last 20 bytes of the Keccak hash of
    the derived point without its marker byte. *)
Definition spec_address `{C : Secp256k1} (root : Point) (contractId path : string)
  : option (list Z) :=
  let epsilon :=
    be_int (SHA3_256 ("near-mpc-recovery v0.1.0 epsilon derivation:"
                      +:+ contractId +:+ "," +:+ path)) in
  epsilonPoint ← mulG epsilon;
  derivedPoint ← padd root epsilonPoint;
  Some (slice_last 20 (keccak256 (raw derivedPoint))).

End Derive.

(** ** verify-agent-address.ts: [checkChain] and [verify] *)

Module VerifyScript.

Definition VAULT_ADDRESS : string := "0xE168d95f8d1B8EC167A63c8E696076EC8EE95337".

(** [CHAINS]: name and RPC endpoint. *)
Definition CHAINS : list (string * string) :=
  [ ("Base Sepolia", "https://sepolia.base.org");
    ("Arbitrum Sepolia", "https://sepolia-rollup.arbitrum.io/rpc") ].

(** The two chain calls of the script, by endpoint URL and contract
    address: [provider.getCode(address)] and [vault.AI_AGENT()]. *)
Class ChainCalls := {
  getCode : string -> string -> result string;
  AI_AGENT : string -> string -> result string
}.

Section Script.
Context `{L : Derive.Libraries} `{K : ChainCalls}.

(** [checkChain(chain)]: the result and the lines written to the console. *)
Definition checkChain (chain : string * string) : result unit * list string :=
  let '(name, rpc) := chain in
  match getCode rpc VAULT_ADDRESS with
  | Err e => (Err e, [])
  | Ok code =>
      if String.eqb code "0x" then
        (Ok tt, [name +:+ ": ❌ No contract at this address"])
      else
        match AI_AGENT rpc VAULT_ADDRESS with
        | Ok vaultAgent =>
            (Ok tt, [name +:+ ": ✅ Contract found"; "  AI_AGENT: " +:+ vaultAgent])
        | Err _ =>
            (Ok tt, [name +:+ ": ⚠️ Contract exists but AI_AGENT() failed"])
        end
  end.

(** [for (const chain of chains) await checkChain(chain)] *)
Fixpoint check_each (chains : list (string * string)) : result unit * list string :=
  match chains with
  | [] => (Ok tt, [])
  | chain :: rest =>
      match checkChain chain with
      | (Err e, out) => (Err e, out)
      | (Ok _, out) =>
          let '(r, out') := check_each rest in (r, (out ++ out')%list)
      end
  end.

(** [verify()] *)
Definition verify : result unit * list string :=
  let line1 := "Deriving agent address from MPC..." in
  match Derive.deriveAgentAddress Derive.NEAR_CONTRACT_ID Derive.PATH with
  | Err e => (Err e, [line1])
  | Ok derivedAddress =>
      let intro := [ line1;
                    "Derived Agent: " +:+ derivedAddress +:+ "
";
                    "Checking vault " +:+ VAULT_ADDRESS +:+ " on chains:
" ] in
      let '(r, out) := check_each CHAINS in
      (r, (intro ++ out)%list)
  end.

End Script.

End VerifyScript.

(** ** Vocabulary of the properties *)

Module Invariants.

Import BalanceFetcher.

Section Cache.
Context `{R : Rpc}.

(** The key [`${chainConfig.chainId}-${usdcAddress}`] of the address
    cache. *)
Definition cacheKey (chainConfig : ChainConfig) (usdcAddress : string) : string :=
  toString (chainId chainConfig) +:+ "-" +:+ usdcAddress.

(** An asynchronous function keeps every cache entry it finds. *)
Definition cache_grows {A} (m : Async A) : Prop :=
  forall st r st', m st = (r, st') -> aTokenAddressCache st ⊆ aTokenAddressCache st'.

(** What a balance reader goes on with after [balanceOf]: the balance, 0
    for a failure with the code BAD_DATA, the error of any other failure. *)
Definition balance_or_zero (r : result Z) : result Z :=
  match r with
  | Ok balance => Ok balance
  | Err e => if decide (ecode e = Some "BAD_DATA") then Ok 0 else Err e
  end.

(** The values [formatUnits(value, 6)] accepts. *)
Definition fits_512 (value : Z) : Prop := - 2 ^ 511 <= value < 2 ^ 511.

(** The queries behind [fetchChainBalances] and [fetchVaultBalances], in
    configuration order: the balance readers themselves, without the
    wrappers of the promise arrays. *)
Definition chain_queries (supported : list (string * ChainConfig)) (agentAddress : string)
  : list (Async ChainBalance) :=
  map (fun chain => fetchATokenBalance chain agentAddress) (getAllChains supported).

Definition vault_queries (supported : list (string * ChainConfig))
  : list (Async VaultBalance) :=
  omap (fun '(chainId, vaultAddress) =>
          chain ← getChainById supported chainId;
          Some (fetchVaultBalance chain vaultAddress))
       (getAllVaults supported).

End Cache.

End Invariants.

(** ** Concrete collaborators

    Small, computable stand-ins for the external world, on which the
    statements below are exercised. *)

Module Fixtures.

Import NearContract.

(** A remote signer that answers every call with the JSON array [response],
    and a recovery function that always recovers [signer]. *)
Definition toy_external (response : list json) (signer : string) : External :=
  {| World := nat;
     KeyPair := string;
     KeyPair_fromString := fun k =>
       match k with
       | Some s => Ok s
       | None => Err (Error "invalid key")
       end;
     functionCall := fun w _ _ _ _ _ =>
       (Ok {| status := Some {| SuccessValue := Some "W10=" |} |}, S w);
     base64_to_utf8 := fun s => s;
     JSON_parse := fun _ => Ok (JArray response);
     ToNumber_other := fun _ => 0;
     TypedDataEncoder_hash := fun _ _ _ => Ok "0xd1";
     recoverAddress := fun _ _ => Ok signer |}.

(** 32 bytes of [r], 32 bytes of [s] and a last byte. *)
Definition sample_response (last : Z) : list json :=
  map JNumber (repeat 17 32 ++ repeat 34 32 ++ [last]).

Definition sample_env : ProcessEnv :=
  {| NEAR_ACCOUNT_ID := Some "oracle.testnet";
     NEAR_PRIVATE_KEY := Some "ed25519:key";
     NEAR_CONTRACT_ID := Some "rebalancer-abcdefghij-57.testnet";
     NEAR_RPC_URL := None |}.

Definition sample_snapshot : CrossChainBalanceSnapshot :=
  {| balance := "1000000"; nonce := "0"; deadline := "1762041600";
     assets := "500000";
     receiver := "0x742d35Cc6634C0532925a3b844Bc454e7595f5dE" |}.

Definition sample_vault : string := "0xE168d95f8d1B8EC167A63c8E696076EC8EE95337".

Definition sample_service (X : External) : NearContractService :=
  {| nearContractId := "rebalancer-abcdefghij-57.testnet";
     nearAccountId := "oracle.testnet";
     agentAddress := "0x20f2747bbc52453ac0774b5b2fe0e28dc6637f30";
     keyStore := None;
     isInitialized := false |}.

Import BalanceFetcher.

Definition network_error : jserror :=
  mkError "Error" (Some "NETWORK_ERROR") "failed to detect network".

(** The return data of a call that returns the unsigned integer [v]: its
    32 bytes, big-endian. *)
Definition uint256_data (v : Z) : list Z :=
  map (fun i => (v / 256 ^ (31 - Z.of_nat i)) mod 256) (seq 0 32).

(** Return data decodes when it is a whole number of 32-byte words, at
    least one: the integer is its first word. *)
Definition toy_decode (data : list Z) : result Z :=
  if ((length data mod 32 =? 0) && (32 <=? length data))%nat
  then Ok (Derive.be_int (firstn 32 data) mod 2 ^ 256)
  else Err (mkError "Error" (Some "BAD_DATA") "could not decode result data").

Definition toy_formatUnits (value decimals : Z) : result string :=
  if (- 2 ^ 511 <=? value) && (value <? 2 ^ 511) then Ok (toString value)
  else Err (mkError "RangeError" (Some "NUMERIC_FAULT") "overflow").

(** Chains that answer by endpoint URL; the world counts the calls made and
    drives the clock. *)
Definition toy_rpc (reserve : string -> result string)
    (balance : string -> string -> result (list Z))
    (block : string -> result Z) (total : string -> result (list Z)) : Rpc.
Proof.
  refine {| BalanceFetcher.World := nat;
            getReserveData := fun w url _ _ => (reserve url, S w);
            call_balanceOf := fun w url token _ => (balance url token, S w);
            getBlockNumber := fun w url => (block url, S w);
            call_totalAssets := fun w url _ => (total url, S w);
            decode_uint256 := toy_decode;
            formatUnits := toy_formatUnits;
            Date_now := fun w => 1762041600000 + Z.of_nat w |}.
  - intros data v. unfold toy_decode.
    destruct ((length data mod 32 =? 0) && (32 <=? length data))%nat; [|discriminate].
    intros [= <-]. apply Z.mod_pos_bound. lia.
  - intros data e. unfold toy_decode.
    destruct ((length data mod 32 =? 0) && (32 <=? length data))%nat; [discriminate|].
    intros [= <-]. reflexivity.
  - reflexivity.
  - intros value [Hlo Hhi]. unfold toy_formatUnits.
    apply Z.leb_le in Hlo. apply Z.ltb_lt in Hhi. rewrite Hlo, Hhi. reflexivity.
  - intros value Hout. unfold toy_formatUnits.
    destruct (- 2 ^ 511 <=? value) eqn:Hlo; [destruct (value <? 2 ^ 511) eqn:Hhi|].
    + exfalso. apply Hout. apply Z.leb_le in Hlo. apply Z.ltb_lt in Hhi.
      split; assumption.
    + exists "overflow". reflexivity.
    + exists "overflow". reflexivity.
Defined.

Definition no_env : ChainsEnv :=
  {| ETHEREUM_SEPOLIA_RPC := None; BASE_SEPOLIA_RPC := None;
     ARBITRUM_SEPOLIA_RPC := None; OPTIMISM_SEPOLIA_RPC := None;
     BASE_VAULT_ADDRESS := None; ARBITRUM_VAULT_ADDRESS := None |}.

Definition base_sepolia : ChainConfig :=
  {| BalanceFetcher.chainId := 84532;
     BalanceFetcher.name := "Base Sepolia";
     rpcUrl := "https://sepolia.base.org";
     aavePoolAddress := "0x6a9d64f93db660eacb2b6e9424792c630cda87d8";
     usdcAddress := "0x036CbD53842c5426634e7929541eC2318f3dCF7e";
     vaultAddress := Some "0x773035EABdA16B5416B26E12156483C6B6F56451" |}.

Definition fresh (R : Rpc) (w : BalanceFetcher.World) : State :=
  {| aTokenAddressCache := ∅; world := w |}.

(** Every chain is up. *)
Definition healthy_rpc : Rpc :=
  toy_rpc (fun _ => Ok "0x4e65fE4DbA92790696d040ac24Aa414708F5c0AB")
          (fun _ _ => Ok (uint256_data 1500000)) (fun _ => Ok 42)
          (fun _ => Ok (uint256_data 5000000)).

(** The endpoint [down] does not answer; the others do. *)
Definition one_down_rpc (down : string) : Rpc :=
  let answer {A} (a : A) (url : string) : result A :=
    if String.eqb url down then Err network_error else Ok a in
  toy_rpc (answer "0x4e65fE4DbA92790696d040ac24Aa414708F5c0AB")
          (fun url _ => answer (uint256_data 1500000) url) (answer 42)
          (answer (uint256_data 5000000)).

(** Every [balanceOf] request returns the bytes [data]. *)
Definition balance_data_rpc (data : list Z) : Rpc :=
  toy_rpc (fun _ => Ok "0x4e65fE4DbA92790696d040ac24Aa414708F5c0AB")
          (fun _ _ => Ok data) (fun _ => Ok 42) (fun _ => Ok (uint256_data 5000000)).

Import Derive.

(** A toy group: the integers modulo 251 with generator 1.  A point is
    serialised as 63 zero bytes and the point itself; the compressed form
    has the marker 2 and 31 zero bytes before it. *)
Definition toy_raw (P : Z) : list Z := repeat 0 63 ++ [P].
Definition toy_compressed (P : Z) : list Z := 2 :: repeat 0 31 ++ [P].
Definition toy_mulG (k : Z) : option Z := if k mod 251 =? 0 then None else Some (k mod 251).
Definition toy_padd (P Q : Z) : option Z :=
  if (P + Q) mod 251 =? 0 then None else Some ((P + Q) mod 251).

(** A 32-byte digest, and a key creation that takes 32 bytes only. *)
Definition toy_SHA3_256 (s : string) : list Z :=
  repeat 0 30 ++ [Z.of_nat (String.length s) mod 256; 7].

Definition toy_publicKeyCreate (bytes : list Z) : result (list Z) :=
  if (length bytes =? 32)%nat then
    match toy_mulG (be_int bytes) with
    | Some E => Ok (4 :: toy_raw E)
    | None => Err (Error "Private key is invalid")
    end
  else Err (Error "Expected private key to be an Uint8Array with length 32").

Definition toy_libraries (rootKey : list Z) : Libraries :=
  {| query_public_key := fun _ => Ok "secp256k1:4vJ9JU1bJJE96FWSJKvHsmmFADCg4gpZQff4P3bkLKi";
     base_decode := fun _ => Ok rootKey;
     SHA3_256 := toy_SHA3_256;
     keccak256 := fun bs => map (fun b => (b + 1) mod 256) bs;
     publicKeyConvert := fun c => Ok (4 :: toy_raw (List.last c 0));
     publicKeyCreate := toy_publicKeyCreate;
     publicKeyCombine := fun keys =>
       match keys with
       | [a; b] =>
           match toy_padd (List.last a 0) (List.last b 0) with
           | Some D => Ok (4 :: toy_raw D)
           | None => Err (Error "The sum of the public keys is not valid")
           end
       | _ => Err (Error "Expected two public keys")
       end |}.

Definition toy_curve (rootKey : list Z) : Secp256k1 (L := toy_libraries rootKey).
Proof.
  refine (@Build_Secp256k1 (toy_libraries rootKey) Z toy_mulG toy_padd toy_raw
            toy_compressed (fun P => eq_refl) (fun P => eq_refl) (fun s => eq_refl)
            _ (fun P => eq_refl) _ _).
  - intros s. unfold SHA3_256, toy_libraries, toy_SHA3_256.
    apply Forall_app_2.
    + apply Forall_forall. intros b Hb.
      apply list_elem_of_In, repeat_spec in Hb. subst b. unfold is_byte. lia.
    + apply Forall_cons_2; [apply Z.mod_pos_bound; lia|].
      apply Forall_cons_2; [unfold is_byte; lia | apply Forall_nil_2].
  - intros bytes E Hlen _ H. cbn [publicKeyCreate toy_libraries].
    unfold toy_publicKeyCreate. rewrite Hlen, H. reflexivity.
  - intros P Q D H. cbn [publicKeyCombine toy_libraries].
    change (List.last (4 :: toy_raw P) 0) with P.
    change (List.last (4 :: toy_raw Q) 0) with Q.
    rewrite H. reflexivity.
Defined.

(** The sample service once initialised with the key [keyPair]. *)
Definition initialized_service (X : NearContract.External)
    (keyPair : NearContract.KeyPair) : NearContract.NearContractService :=
  {| NearContract.nearContractId := "rebalancer-abcdefghij-57.testnet";
     NearContract.nearAccountId := "oracle.testnet";
     NearContract.agentAddress := "0x20f2747bbc52453ac0774b5b2fe0e28dc6637f30";
     NearContract.keyStore := Some [("testnet", "oracle.testnet", keyPair)];
     NearContract.isInitialized := true |}.

(** An environment without a private key. *)
Definition keyless_env : NearContract.ProcessEnv :=
  {| NearContract.NEAR_ACCOUNT_ID := Some "oracle.testnet";
     NearContract.NEAR_PRIVATE_KEY := None;
     NearContract.NEAR_CONTRACT_ID := Some "rebalancer-abcdefghij-57.testnet";
     NearContract.NEAR_RPC_URL := None |}.

(** A remote signer with a given outcome of the call and a given reading of
    its return value. *)
Definition toy_external_with (called : result NearContract.FinalExecutionOutcome)
    (parsed : result NearContract.json) (signer : string) : NearContract.External :=
  {| NearContract.World := nat;
     NearContract.KeyPair := string;
     NearContract.KeyPair_fromString := fun k =>
       match k with
       | Some s => Ok s
       | None => Err (Error "invalid key")
       end;
     NearContract.functionCall := fun w _ _ _ _ _ => (called, S w);
     NearContract.base64_to_utf8 := fun s => s;
     NearContract.JSON_parse := fun _ => parsed;
     NearContract.ToNumber_other := fun _ => 0;
     NearContract.TypedDataEncoder_hash := fun _ _ _ => Ok "0xd1";
     NearContract.recoverAddress := fun _ _ => Ok signer |}.

(** A signer whose answers verify: it is recovered as the agent address,
    written in upper case. *)
Definition good_signer : NearContract.External :=
  toy_external (sample_response 1) "0x20F2747BBC52453AC0774B5B2FE0E28DC6637F30".

Definition arbitrum_sepolia : ChainConfig :=
  {| BalanceFetcher.chainId := 421614;
     BalanceFetcher.name := "Arbitrum Sepolia";
     rpcUrl := "https://sepolia-rollup.arbitrum.io/rpc";
     aavePoolAddress := "0xBfC91D59fdAA134A4ED45f7B584cAf96D7792Eff";
     usdcAddress := "0x75faf114eafb1BDbe2F0316DF893fd58CE46AA4d";
     vaultAddress := Some "0xE168d95f8d1B8EC167A63c8E696076EC8EE95337" |}.

(** Vault readers that always answer. *)
Definition toy_vault_service (R : Rpc) (step : BalanceFetcher.World -> BalanceFetcher.World)
  : Oracle.VaultService (R := R) :=
  {| Oracle.getCrossChainInvestedAssets := fun w _ _ _ => (Ok 2500000, step w);
     Oracle.getVaultNonce := fun w _ _ _ => (Ok 7, step w) |}.

Definition sample_oracle (X : NearContract.External) : Oracle.OracleService :=
  {| Oracle.nearMpc := sample_service X |}.

(** Libraries whose Keccak digest has 32 bytes. *)
Definition toy_libraries32 : Libraries :=
  {| query_public_key := fun _ => Ok "secp256k1:4vJ9JU1bJJE96FWSJKvHsmmFADCg4gpZQff4P3bkLKi";
     base_decode := fun _ => Ok (toy_raw 5);
     SHA3_256 := toy_SHA3_256;
     keccak256 := fun bs =>
       map (fun i => (be_int bs + Z.of_nat i) mod 256) (seq 0 32);
     publicKeyConvert := fun c => Ok (4 :: toy_raw (List.last c 0));
     publicKeyCreate := toy_publicKeyCreate;
     publicKeyCombine := fun keys =>
       match keys with
       | [a; b] => Ok (4 :: toy_raw ((List.last a 0 + List.last b 0) mod 251))
       | _ => Err (Error "Expected two public keys")
       end |}.

(** Chain calls that answer by endpoint URL. *)
Definition toy_chain_calls (code agent : string -> result string)
  : VerifyScript.ChainCalls :=
  {| VerifyScript.getCode := fun url _ => code url;
     VerifyScript.AI_AGENT := fun url _ => agent url |}.

End Fixtures.

(** * Properties *)

(** ** Decimal strings *)

Module JSProps.

Import Decimal.

Lemma skip_spaces_digits u :
  skip_spaces (NilEmpty.string_of_uint u) = NilEmpty.string_of_uint u.
Proof. destruct u; reflexivity. Qed.

Lemma rtrim_digits u :
  rtrim (NilEmpty.string_of_uint u) = NilEmpty.string_of_uint u.
Proof.
  induction u; cbn [NilEmpty.string_of_uint rtrim]; rewrite ?IHu; reflexivity.
Qed.

Lemma trim_digits u : trim (NilEmpty.string_of_uint u) = NilEmpty.string_of_uint u.
Proof. unfold trim. rewrite skip_spaces_digits. apply rtrim_digits. Qed.

Lemma take_digits_digits u :
  take_digits 10 (NilEmpty.string_of_uint u) = NilEmpty.string_of_uint u.
Proof.
  induction u; cbn [NilEmpty.string_of_uint take_digits]; [reflexivity|..];
    (change (digit_value 10 _) with (Some 0)
     || change (digit_value 10 _) with (Some 1)
     || change (digit_value 10 _) with (Some 2)
     || change (digit_value 10 _) with (Some 3)
     || change (digit_value 10 _) with (Some 4)
     || change (digit_value 10 _) with (Some 5)
     || change (digit_value 10 _) with (Some 6)
     || change (digit_value 10 _) with (Some 7)
     || change (digit_value 10 _) with (Some 8)
     || change (digit_value 10 _) with (Some 9));
    cbv iota; rewrite IHu; reflexivity.
Qed.

Lemma decimal_value_digits u :
  u <> Nil -> decimal_value (NilEmpty.string_of_uint u) = Some (Z.of_uint u).
Proof.
  intros Hu. unfold decimal_value.
  pose proof (NilEmpty.usu u) as E.
  destruct u; [contradiction|..];
    cbn [NilEmpty.string_of_uint] in *; rewrite E; reflexivity.
Qed.

(** A string of decimal digits is not taken for a sign or a radix prefix. *)
Lemma BigInt_digits u :
  u <> Nil -> BigInt (NilEmpty.string_of_uint u) = Ok (Z.of_uint u).
Proof.
  intros Hu. unfold BigInt. rewrite trim_digits.
  pose proof (decimal_value_digits u Hu) as E.
  destruct u as [|u|u|u|u|u|u|u|u|u|u]; [contradiction|..];
    cbn [NilEmpty.string_of_uint] in *;
    try (rewrite E; reflexivity).
  destruct u; cbn [NilEmpty.string_of_uint] in *; rewrite E; reflexivity.
Qed.

Lemma BigInt_minus_digits u :
  u <> Nil ->
  BigInt (String "-" (NilEmpty.string_of_uint u)) = Ok (- Z.of_uint u).
Proof.
  intros Hu. unfold BigInt, trim.
  change (skip_spaces (String "-" (NilEmpty.string_of_uint u)))
    with (String "-" (NilEmpty.string_of_uint u)).
  assert (rtrim (String "-" (NilEmpty.string_of_uint u))
          = String "-" (NilEmpty.string_of_uint u)) as ->.
  { cbn [rtrim]. rewrite rtrim_digits. reflexivity. }
  cbv iota beta. rewrite (decimal_value_digits u Hu). reflexivity.
Qed.

Lemma toString_pos p : toString (Z.pos p) = NilEmpty.string_of_uint (Pos.to_uint p).
Proof.
  unfold toString. cbn [Z.to_int NilZero.string_of_int]. unfold NilZero.string_of_uint.
  pose proof (DecimalPos.Unsigned.to_uint_nonnil p).
  destruct (Pos.to_uint p); [contradiction|..]; reflexivity.
Qed.

Lemma toString_neg p :
  toString (Z.neg p) = String "-" (NilEmpty.string_of_uint (Pos.to_uint p)).
Proof.
  unfold toString. cbn [Z.to_int NilZero.string_of_int]. unfold NilZero.string_of_uint.
  pose proof (DecimalPos.Unsigned.to_uint_nonnil p).
  destruct (Pos.to_uint p); [contradiction|..]; reflexivity.
Qed.

Lemma of_uint_to_uint p : Z.of_uint (Pos.to_uint p) = Z.pos p.
Proof. unfold Z.of_uint. rewrite DecimalPos.Unsigned.of_to. reflexivity. Qed.

(** [BigInt(n.toString()) = n] for every integer, of any size. *)
Lemma BigInt_toString z : BigInt (toString z) = Ok z.
Proof.
  destruct z as [|p|p].
  - reflexivity.
  - rewrite toString_pos, BigInt_digits by apply DecimalPos.Unsigned.to_uint_nonnil.
    rewrite of_uint_to_uint. reflexivity.
  - rewrite toString_neg, BigInt_minus_digits by apply DecimalPos.Unsigned.to_uint_nonnil.
    rewrite of_uint_to_uint. reflexivity.
Qed.

Lemma parseInt_digits u :
  u <> Nil -> parseInt (NilEmpty.string_of_uint u) = roundToDouble (Z.of_uint u).
Proof.
  intros Hu. unfold parseInt. rewrite skip_spaces_digits.
  pose proof (take_digits_digits u) as T.
  pose proof (decimal_value_digits u Hu) as E.
  destruct u as [|u|u|u|u|u|u|u|u|u|u]; [contradiction|..];
    cbn [NilEmpty.string_of_uint] in *;
    try (cbv iota beta; rewrite T, E; reflexivity).
  destruct u; cbn [NilEmpty.string_of_uint] in *;
    cbv iota beta; rewrite T, E; reflexivity.
Qed.

(** [parseInt] is exact on the decimal strings of the integers below 2^53. *)
Lemma parseInt_toString n : 0 <= n < 2 ^ 53 -> parseInt (toString n) = Num n.
Proof.
  intros [Hlo Hhi]. destruct n as [|p|p]; [reflexivity| |lia].
  rewrite toString_pos, parseInt_digits by apply DecimalPos.Unsigned.to_uint_nonnil.
  rewrite of_uint_to_uint. unfold roundToDouble.
  apply Z.ltb_lt in Hhi. rewrite Hhi. reflexivity.
Qed.

End JSProps.

(** ** The signing service *)

Module SignerProps.

Import NearContract.

Section Signer.
Context `{X : External}.

Lemma if_initialized_initialize env (this : NearContractService) :
  (if negb (isInitialized this) then initialize env this else (Ok tt, this))
  = initialize env this.
Proof.
  unfold initialize. destruct (isInitialized this); reflexivity.
Qed.

Lemma initialize_agentAddress env (this : NearContractService) r this' :
  initialize env this = (r, this') -> agentAddress this' = agentAddress this.
Proof.
  unfold initialize.
  destruct (isInitialized this).
  - intros [= _ <-]. reflexivity.
  - destruct (KeyPair_fromString (NEAR_PRIVATE_KEY env)); intros [= _ <-]; reflexivity.
Qed.

Lemma snapshot_eta (snapshot : CrossChainBalanceSnapshot) :
  {| balance := balance snapshot; nonce := nonce snapshot;
     deadline := deadline snapshot; assets := assets snapshot;
     receiver := receiver snapshot |} = snapshot.
Proof. destruct snapshot; reflexivity. Qed.

Lemma Buffer_from_length elements : length (Buffer_from elements) = length elements.
Proof. unfold Buffer_from. apply length_map. Qed.

(** The object after [signBalanceSnapshot] is the object after
    [initialize], and the result is an early error or that of the decoding
    and verification. *)
Lemma signBalanceSnapshot_unfold env w this snapshot vaultAddress chainId :
  signBalanceSnapshot env w this snapshot vaultAddress chainId =
  match initialize env this with
  | (Err e, this1) => (Err e, this1, w)
  | (Ok _, this1) =>
      match call_contract env w this1 snapshot vaultAddress chainId with
      | (Err e, w1) => (Err e, this1, w1)
      | (Ok outcome, w1) =>
          (decode_and_verify this1 snapshot vaultAddress chainId outcome, this1, w1)
      end
  end.
Proof.
  unfold signBalanceSnapshot. rewrite if_initialized_initialize.
  destruct (initialize env this) as [[u|e] this1]; [|reflexivity].
  destruct (call_contract env w this1 snapshot vaultAddress chainId) as [[o|e] w1];
    reflexivity.
Qed.

Lemma signBalanceSnapshot_agentAddress env w this snapshot vaultAddress chainId r this' w' :
  signBalanceSnapshot env w this snapshot vaultAddress chainId = (r, this', w') ->
  agentAddress this' = agentAddress this.
Proof.
  rewrite signBalanceSnapshot_unfold.
  destruct (initialize env this) as [[u|e] this1] eqn:Hi.
  - destruct (call_contract env w this1 snapshot vaultAddress chainId) as [[o|e] w1];
      intros [= _ <- _]; eapply initialize_agentAddress; eassumption.
  - intros [= _ <- _]. eapply initialize_agentAddress; eassumption.
Qed.

(** What a fulfilled [decode_and_verify] went through. *)
Lemma decode_and_verify_Ok this snapshot vaultAddress chainId outcome resp :
  decode_and_verify this snapshot vaultAddress chainId outcome = Ok resp ->
  exists successValue elements digest recovered,
    status outcome ≫= SuccessValue = Some successValue /\
    JSON_parse (base64_to_utf8 successValue) = Ok (JArray elements) /\
    length elements = 65%nat /\
    TypedDataEncoder_hash (domain_of chainId vaultAddress) types snapshot = Ok digest /\
    recoverAddress digest (signature65_of (Buffer_from elements)) = Ok recovered /\
    toLowerCase recovered = toLowerCase (agentAddress this) /\
    resp = {| response_signature := signature65_of (Buffer_from elements);
              response_agentAddress := agentAddress this |}.
Proof.
  unfold decode_and_verify. rewrite snapshot_eta.
  destruct (status outcome ≫= SuccessValue) as [sv|]; [|discriminate].
  destruct (String.eqb sv ""); [discriminate|].
  destruct (JSON_parse (base64_to_utf8 sv)) as [j|e] eqn:Hparse; [|discriminate].
  cbn [mbind result_bind].
  destruct j as [| | | |elements|]; try discriminate.
  rewrite Buffer_from_length.
  destruct (Z.of_nat (length elements) =? 65) eqn:Hlen; [|discriminate].
  cbn [negb].
  destruct (TypedDataEncoder_hash _ _ _) as [digest|e] eqn:Hhash; [|discriminate].
  cbn [mbind result_bind].
  destruct (recoverAddress _ _) as [recovered|e] eqn:Hrec; [|discriminate].
  cbn [mbind result_bind].
  destruct (String.eqb (toLowerCase recovered) (toLowerCase (agentAddress this))) eqn:Heq;
    [|discriminate].
  cbn [negb]. intros [= <-].
  exists sv, elements, digest, recovered.
  apply Z.eqb_eq in Hlen. apply String.eqb_eq in Heq.
  repeat split; try assumption; try reflexivity. lia.
Qed.

(** Every response that is returned has been verified against the
    [agentAddress] field of the object. *)
Lemma signBalanceSnapshot_Ok_verified env w this snapshot vaultAddress chainId resp this' w' :
  signBalanceSnapshot env w this snapshot vaultAddress chainId = (Ok resp, this', w') ->
  response_agentAddress resp = agentAddress this /\
  exists digest recovered,
    TypedDataEncoder_hash (domain_of chainId vaultAddress) types snapshot = Ok digest /\
    recoverAddress digest (response_signature resp) = Ok recovered /\
    toLowerCase recovered = toLowerCase (agentAddress this).
Proof.
  rewrite signBalanceSnapshot_unfold.
  destruct (initialize env this) as [[u|e] this1] eqn:Hi; [|discriminate].
  destruct (call_contract env w this1 snapshot vaultAddress chainId) as [[o|e] w1];
    [|discriminate].
  intros [= Hd _ _].
  apply decode_and_verify_Ok in Hd
    as (sv & elements & digest & recovered & _ & _ & _ & Hh & Hr & Hl & ->).
  apply initialize_agentAddress in Hi. rewrite Hi in *.
  split; [reflexivity|]. exists digest, recovered. auto.
Qed.

Lemma reachable_agentAddress (this : NearContractService) :
  reachable this -> agentAddress this = "0x20f2747bbc52453ac0774b5b2fe0e28dc6637f30".
Proof.
  induction 1 as [env this Hc | env this r this' _ IH Hi
                 | env w this snapshot vaultAddress chainId r this' w' _ IH Hs].
  - unfold constructor in Hc.
    destruct (negb (truthy (NEAR_ACCOUNT_ID env)) || negb (truthy (NEAR_PRIVATE_KEY env)));
      [discriminate|].
    destruct (negb (truthy (NEAR_CONTRACT_ID env))); [discriminate|].
    injection Hc as <-. reflexivity.
  - apply initialize_agentAddress in Hi. congruence.
  - apply signBalanceSnapshot_agentAddress in Hs. congruence.
Qed.

(** A run that gets as far as recovering a signer is decided by the
    comparison of that signer with the [agentAddress] field, in lower
    case. *)
Lemma signBalanceSnapshot_verdict env w this snapshot vaultAddress chainId
    this1 outcome w1 successValue elements digest recovered :
  initialize env this = (Ok tt, this1) ->
  call_contract env w this1 snapshot vaultAddress chainId = (Ok outcome, w1) ->
  status outcome ≫= SuccessValue = Some successValue ->
  successValue <> "" ->
  JSON_parse (base64_to_utf8 successValue) = Ok (JArray elements) ->
  length elements = 65%nat ->
  TypedDataEncoder_hash (domain_of chainId vaultAddress) types snapshot = Ok digest ->
  recoverAddress digest (signature65_of (Buffer_from elements)) = Ok recovered ->
  signBalanceSnapshot env w this snapshot vaultAddress chainId
  = (if String.eqb (toLowerCase recovered) (toLowerCase (agentAddress this))
     then Ok {| response_signature := signature65_of (Buffer_from elements);
                response_agentAddress := agentAddress this |}
     else Err (Error ("Signature verification failed! Recovered " +:+ recovered
                      +:+ ", expected " +:+ agentAddress this)),
     this1, w1).
Proof.
  intros Hi Hc Hs Hne Hp Hlen Hh Hr.
  rewrite signBalanceSnapshot_unfold, Hi, Hc.
  pose proof (initialize_agentAddress _ _ _ _ Hi) as Ha.
  unfold decode_and_verify. rewrite snapshot_eta, Hs.
  apply String.eqb_neq in Hne. rewrite Hne, Hp. cbn [mbind result_bind].
  rewrite Buffer_from_length, Hlen.
  change (Z.of_nat 65 =? 65) with true. cbn [negb].
  rewrite Hh. cbn [mbind result_bind]. rewrite Hr. cbn [mbind result_bind].
  rewrite Ha.
  destruct (String.eqb (toLowerCase recovered) (toLowerCase (agentAddress this)));
    reflexivity.
Qed.

(** *** Hex strings *)

Lemma hex_value_hex_digit d : 0 <= d < 16 -> hex_value (hex_digit d) = Some d.
Proof.
  intros H.
  assert (d = 0 \/ d = 1 \/ d = 2 \/ d = 3 \/ d = 4 \/ d = 5 \/ d = 6 \/ d = 7 \/
          d = 8 \/ d = 9 \/ d = 10 \/ d = 11 \/ d = 12 \/ d = 13 \/ d = 14 \/ d = 15)
    as Hd by lia.
  repeat (destruct Hd as [-> | Hd]; [reflexivity|]). subst. reflexivity.
Qed.

Lemma unhex_hex_bytes bs :
  Forall is_byte bs -> unhex_bytes (hex_bytes bs) = Some bs.
Proof.
  induction 1 as [|b bs Hb _ IH]; [reflexivity|].
  unfold is_byte in Hb.
  cbn [hex_bytes]. unfold hex_byte.
  change (unhex_bytes (String (hex_digit (b / 16))
                        (String (hex_digit (b mod 16)) (hex_bytes bs)))
          = Some (b :: bs)).
  cbn [unhex_bytes].
  rewrite !hex_value_hex_digit, IH.
  - f_equal. f_equal. pose proof (Z.div_mod b 16). lia.
  - apply Z.mod_pos_bound. lia.
  - split; [apply Z.div_pos; lia | apply Z.div_lt_upper_bound; lia].
Qed.

Lemma getBytes_hexlify bs : Forall is_byte bs -> getBytes (hexlify bs) = Some bs.
Proof. intros H. unfold hexlify. cbn. apply unhex_hex_bytes, H. Qed.

Lemma toUint8_is_byte v : is_byte (toUint8 v).
Proof. unfold is_byte, toUint8. apply Z.mod_pos_bound. lia. Qed.

Lemma Buffer_from_bytes elements : Forall is_byte (Buffer_from elements).
Proof.
  unfold Buffer_from. apply Forall_map, Forall_forall. intros j _.
  destruct j; apply toUint8_is_byte.
Qed.

Lemma signature65_bytes bytes :
  Forall is_byte bytes ->
  Forall is_byte (firstn 32 bytes ++ firstn 32 (skipn 32 bytes)
                  ++ [toUint8 (nth 64 bytes 0 + 27)]).
Proof.
  intros H. apply Forall_app_2; [|apply Forall_app_2].
  - apply Forall_take, H.
  - apply Forall_take, Forall_drop, H.
  - apply Forall_cons_2; [apply toUint8_is_byte | apply Forall_nil_2].
Qed.

(** *** Claims about [signBalanceSnapshot] and [getAgentAddress] *)

(** C1.  Whenever a signing request gets as far as recovering a signer from
    the locally recomputed digest and the decoded 65-byte signature, and
    that signer differs (ignoring case) from the expected agent address,
    [signBalanceSnapshot] settles with the "Signature verification failed"
    error: no signature / agent-address record is returned. *)
Theorem signBalanceSnapshot_signer_mismatch_fails
    env w this snapshot vaultAddress chainId
    this1 outcome w1 successValue elements digest recovered :
  initialize env this = (Ok tt, this1) ->
  call_contract env w this1 snapshot vaultAddress chainId = (Ok outcome, w1) ->
  status outcome ≫= SuccessValue = Some successValue ->
  successValue <> "" ->
  JSON_parse (base64_to_utf8 successValue) = Ok (JArray elements) ->
  length elements = 65%nat ->
  TypedDataEncoder_hash (domain_of chainId vaultAddress) types snapshot = Ok digest ->
  recoverAddress digest (signature65_of (Buffer_from elements)) = Ok recovered ->
  toLowerCase recovered <> toLowerCase (agentAddress this) ->
  signBalanceSnapshot env w this snapshot vaultAddress chainId
  = (Err (Error ("Signature verification failed! Recovered " +:+ recovered
                 +:+ ", expected " +:+ agentAddress this)), this1, w1)
  /\ forall resp, fst (fst (signBalanceSnapshot env w this snapshot vaultAddress chainId))
                  <> Ok resp.
Proof.
  intros Hi Hc Hs Hne Hp Hlen Hh Hr Hmis.
  assert (signBalanceSnapshot env w this snapshot vaultAddress chainId
          = (Err (Error ("Signature verification failed! Recovered " +:+ recovered
                         +:+ ", expected " +:+ agentAddress this)), this1, w1)) as E.
  { rewrite signBalanceSnapshot_unfold, Hi, Hc.
    pose proof (initialize_agentAddress _ _ _ _ Hi) as Ha.
    unfold decode_and_verify. rewrite snapshot_eta, Hs.
    apply String.eqb_neq in Hne. rewrite Hne, Hp. cbn [mbind result_bind].
    rewrite Buffer_from_length, Hlen.
    change (Z.of_nat 65 =? 65) with true. cbn [negb].
    rewrite Hh. cbn [mbind result_bind]. rewrite Hr. cbn [mbind result_bind].
    rewrite Ha. apply String.eqb_neq in Hmis. rewrite Hmis. reflexivity. }
  split; [exact E|]. intros resp. rewrite E. discriminate.
Qed.

(** C2.  In every state the service object can reach, under every
    environment, [getAgentAddress] returns the literal
    0x20f2747bbc52453ac0774b5b2fe0e28dc6637f30.  The verification in
    [signBalanceSnapshot] compares the recovered signer with that literal:
    a response that is returned carries the literal and its signer has been
    compared with it; and whenever a run gets as far as recovering a signer,
    it returns the rebuilt signature with the literal exactly when the
    signer, in lower case, is the literal, and fails with the mismatch
    error otherwise. *)
Theorem getAgentAddress_is_fixed_literal (this : NearContractService) :
  reachable this ->
  getAgentAddress this = "0x20f2747bbc52453ac0774b5b2fe0e28dc6637f30" /\
  (forall env w snapshot vaultAddress chainId resp this' w',
    signBalanceSnapshot env w this snapshot vaultAddress chainId = (Ok resp, this', w') ->
    response_agentAddress resp = "0x20f2747bbc52453ac0774b5b2fe0e28dc6637f30" /\
    getAgentAddress this' = "0x20f2747bbc52453ac0774b5b2fe0e28dc6637f30" /\
    exists digest recovered,
      TypedDataEncoder_hash (domain_of chainId vaultAddress) types snapshot = Ok digest /\
      recoverAddress digest (response_signature resp) = Ok recovered /\
      toLowerCase recovered = "0x20f2747bbc52453ac0774b5b2fe0e28dc6637f30") /\
  (forall env w snapshot vaultAddress chainId
          this1 outcome w1 successValue elements digest recovered,
    initialize env this = (Ok tt, this1) ->
    call_contract env w this1 snapshot vaultAddress chainId = (Ok outcome, w1) ->
    status outcome ≫= SuccessValue = Some successValue ->
    successValue <> "" ->
    JSON_parse (base64_to_utf8 successValue) = Ok (JArray elements) ->
    length elements = 65%nat ->
    TypedDataEncoder_hash (domain_of chainId vaultAddress) types snapshot = Ok digest ->
    recoverAddress digest (signature65_of (Buffer_from elements)) = Ok recovered ->
    signBalanceSnapshot env w this snapshot vaultAddress chainId
    = (if String.eqb (toLowerCase recovered) "0x20f2747bbc52453ac0774b5b2fe0e28dc6637f30"
       then Ok {| response_signature := signature65_of (Buffer_from elements);
                  response_agentAddress := "0x20f2747bbc52453ac0774b5b2fe0e28dc6637f30" |}
       else Err (Error ("Signature verification failed! Recovered " +:+ recovered
                        +:+ ", expected 0x20f2747bbc52453ac0774b5b2fe0e28dc6637f30")),
       this1, w1)).
Proof.
  intros Hreach. pose proof (reachable_agentAddress _ Hreach) as Ha.
  split; [exact Ha|]. split.
  - intros env w snapshot vaultAddress chainId resp this' w' Hs.
    pose proof (signBalanceSnapshot_agentAddress _ _ _ _ _ _ _ _ _ Hs) as Ha'.
    apply signBalanceSnapshot_Ok_verified in Hs
      as (Hresp & digest & recovered & Hh & Hr & Hl).
    rewrite Ha in *.
    split; [exact Hresp|]. split; [exact Ha'|].
    exists digest, recovered. split; [exact Hh|]. split; [exact Hr|].
    rewrite Hl. reflexivity.
  - intros env w snapshot vaultAddress chainId this1 outcome w1 successValue elements
      digest recovered Hi Hc Hs Hne Hp Hlen Hh Hr.
    rewrite (signBalanceSnapshot_verdict _ _ _ _ _ _ _ _ _ _ _ _ _
               Hi Hc Hs Hne Hp Hlen Hh Hr).
    rewrite Ha. reflexivity.
Qed.

(** C3 (as amended).  A decoded response whose length is not 65 is rejected
    with the "Invalid signature length" error, whatever the recovery
    function would answer.  For a 65-byte response every returned signature
    is the hex string of [r(32) || s(32) || v] with
    [v = (recoveryId + 27) mod 256], which is [recoveryId + 27] whenever the
    response's last byte is at most 228. *)
Theorem signBalanceSnapshot_signature_layout
    env w this snapshot vaultAddress chainId this1 outcome w1 successValue elements :
  initialize env this = (Ok tt, this1) ->
  call_contract env w this1 snapshot vaultAddress chainId = (Ok outcome, w1) ->
  status outcome ≫= SuccessValue = Some successValue ->
  successValue <> "" ->
  JSON_parse (base64_to_utf8 successValue) = Ok (JArray elements) ->
  let signatureBytes := Buffer_from elements in
  let r := firstn 32 signatureBytes in
  let s := firstn 32 (skipn 32 signatureBytes) in
  let recoveryId := nth 64 signatureBytes 0 in
  (length signatureBytes <> 65%nat ->
   signBalanceSnapshot env w this snapshot vaultAddress chainId
   = (Err (Error ("Invalid signature length: "
                  +:+ toString (Z.of_nat (length signatureBytes))
                  +:+ ", expected 65")), this1, w1))
  /\
  (length signatureBytes = 65%nat ->
   forall resp,
     fst (fst (signBalanceSnapshot env w this snapshot vaultAddress chainId)) = Ok resp ->
     response_signature resp = hexlify (r ++ s ++ [(recoveryId + 27) mod 256]) /\
     getBytes (response_signature resp) = Some (r ++ s ++ [(recoveryId + 27) mod 256])%list /\
     (recoveryId <= 228 ->
      getBytes (response_signature resp) = Some (r ++ s ++ [recoveryId + 27])%list)).
Proof.
  intros Hi Hc Hs Hne Hp signatureBytes r s recoveryId.
  assert (signBalanceSnapshot env w this snapshot vaultAddress chainId
          = (decode_and_verify this1 snapshot vaultAddress chainId outcome, this1, w1)) as E.
  { rewrite signBalanceSnapshot_unfold, Hi, Hc. reflexivity. }
  rewrite E. cbn [fst]. split.
  - intros Hlen. f_equal. f_equal.
    unfold decode_and_verify. rewrite Hs.
    apply String.eqb_neq in Hne. rewrite Hne, Hp. cbn [mbind result_bind].
    fold signatureBytes.
    destruct (Z.eqb_spec (Z.of_nat (length signatureBytes)) 65) as [Heq|_]; [lia|].
    reflexivity.
  - intros Hlen resp Hd.
    apply decode_and_verify_Ok in Hd
      as (sv & elements' & digest & recovered & Hs' & Hp' & _ & _ & _ & _ & ->).
    rewrite Hs in Hs'. injection Hs' as <-.
    rewrite Hp in Hp'. injection Hp' as <-.
    cbn [response_signature]. unfold signature65_of.
    fold signatureBytes r s recoveryId. unfold toUint8.
    assert (0 <= recoveryId < 256) as Hrange.
    { pose proof (Buffer_from_bytes elements) as Hb. fold signatureBytes in Hb.
      rewrite Forall_forall in Hb. apply (Hb recoveryId).
      apply list_elem_of_In, nth_In. lia. }
    assert (getBytes (hexlify (r ++ s ++ [(recoveryId + 27) mod 256]))
            = Some (r ++ s ++ [(recoveryId + 27) mod 256])%list) as Hg.
    { apply getBytes_hexlify.
      apply (signature65_bytes signatureBytes), Buffer_from_bytes. }
    repeat split; [exact Hg|].
    intros Hsmall. rewrite Hg. rewrite Z.mod_small by lia. reflexivity.
Qed.

(** C5 (the code at the failing input).  For the balance 2^53 + 1 the
    argument object sent to the remote signer holds 2^53: [parseInt] rounds
    the decimal string to a double, so the numeric [balance] differs from
    the value of the snapshot's string (the value the local digest is
    computed from).  The string fields are passed through unchanged. *)
Theorem build_args_balance_rounded_to_double :
  let snapshot := {| balance := "9007199254740993"; nonce := "7";
                     deadline := "1762041600"; assets := "500000";
                     receiver := "0x742d35Cc6634C0532925a3b844Bc454e7595f5dE" |} in
  let sent := args (build_args snapshot "0xE168d95f8d1B8EC167A63c8E696076EC8EE95337" 421614) in
  BigInt (balance snapshot) = Ok 9007199254740993 /\
  args_balance sent = Num 9007199254740992 /\
  args_balance sent <> Num 9007199254740993 /\
  args_nonce sent = Num 7 /\
  args_deadline sent = Num 1762041600 /\
  args_assets sent = assets snapshot /\
  args_receiver sent = receiver snapshot.
Proof.
  cbv zeta. repeat split; try (vm_compute; reflexivity).
  vm_compute. discriminate.
Qed.

(** The three numeric fields are exact for values below 2^53. *)
Lemma build_args_exact_below_2_53 (b n d : Z) (a r vaultAddress : string) (chainId : Z) :
  0 <= b < 2 ^ 53 -> 0 <= n < 2 ^ 53 -> 0 <= d < 2 ^ 53 ->
  args (build_args {| balance := toString b; nonce := toString n;
                      deadline := toString d; assets := a;
                      receiver := r |} vaultAddress chainId)
  = {| args_balance := Num b;
       args_chain_id := Num chainId;
       args_verifying_contract := vaultAddress;
       args_nonce := Num n;
       args_deadline := Num d;
       args_assets := a;
       args_receiver := r |}.
Proof.
  intros Hb Hn Hd. unfold build_args. cbn [args balance nonce deadline assets receiver].
  rewrite !JSProps.parseInt_toString by assumption. reflexivity.
Qed.

End Signer.

(** *** The statements at concrete collaborators *)

Import Fixtures.

Lemma signBalanceSnapshot_signer_mismatch_fails_witness :
  let X := toy_external (sample_response 0) "0x000000000000000000000000000000000000dEaD" in
  is_err (fst (fst (signBalanceSnapshot (X := X) sample_env 0%nat (sample_service X)
                      sample_snapshot sample_vault 421614))) = true.
Proof.
  intros X.
  destruct (signBalanceSnapshot_signer_mismatch_fails (X := X)
              sample_env 0%nat (sample_service X) sample_snapshot sample_vault 421614
              _ _ _ "W10=" (sample_response 0) "0xd1"
              "0x000000000000000000000000000000000000dEaD"
              eq_refl eq_refl eq_refl) as [E _].
  - vm_compute. discriminate.
  - reflexivity.
  - reflexivity.
  - reflexivity.
  - reflexivity.
  - vm_compute. discriminate.
  - rewrite E. reflexivity.
Defined.

Lemma getAgentAddress_is_fixed_literal_witness :
  let X := toy_external (sample_response 1) "0x20F2747BBC52453AC0774B5B2FE0E28DC6637F30" in
  signBalanceSnapshot (X := X) sample_env 0%nat (sample_service X)
    sample_snapshot sample_vault 421614
  = (Ok {| response_signature := "0x111111111111111111111111111111111111111111111111111111111111111122222222222222222222222222222222222222222222222222222222222222221c";
           response_agentAddress := "0x20f2747bbc52453ac0774b5b2fe0e28dc6637f30" |},
     initialized_service X "ed25519:key", 1%nat).
Proof.
  intros X.
  refine (proj2 (proj2 (getAgentAddress_is_fixed_literal (X := X) (sample_service X) _))
            sample_env 0%nat sample_snapshot sample_vault 421614
            (initialized_service X "ed25519:key")
            {| status := Some {| SuccessValue := Some "W10=" |} |} 1%nat
            "W10=" (sample_response 1) "0xd1" "0x20F2747BBC52453AC0774B5B2FE0E28DC6637F30"
            eq_refl eq_refl eq_refl _ eq_refl eq_refl eq_refl eq_refl).
  - apply (reach_constructor sample_env). reflexivity.
  - discriminate.
Defined.

Lemma signBalanceSnapshot_signature_layout_witness :
  let X := toy_external (sample_response 1) "0x20F2747BBC52453AC0774B5B2FE0E28DC6637F30" in
  match fst (fst (signBalanceSnapshot (X := X) sample_env 0%nat (sample_service X)
                    sample_snapshot sample_vault 421614)) with
  | Ok resp =>
      getBytes (response_signature resp) = Some (repeat 17 32 ++ repeat 34 32 ++ [28])%list
  | Err _ => False
  end.
Proof.
  intros X.
  destruct (signBalanceSnapshot_signature_layout (X := X)
              sample_env 0%nat (sample_service X) sample_snapshot sample_vault 421614
              _ _ _ "W10=" (sample_response 1) eq_refl eq_refl eq_refl) as [_ H].
  - vm_compute. discriminate.
  - reflexivity.
  - destruct (fst (fst (signBalanceSnapshot (X := X) sample_env 0%nat (sample_service X)
                          sample_snapshot sample_vault 421614))) as [resp|e] eqn:E.
    + destruct (H eq_refl resp eq_refl) as (_ & _ & H3).
      rewrite H3; [reflexivity | vm_compute; discriminate].
    + vm_compute in E. discriminate.
Defined.

(** C3 as stated fails when the response's last byte is 229 or more: the
    signer is accepted, and the returned signature ends in the byte 0, not
    in 229 + 27. *)
Lemma signature_last_byte_wraps_at_229 :
  let X := toy_external (sample_response 229) "0x20F2747BBC52453AC0774B5B2FE0E28DC6637F30" in
  exists resp bytes,
    fst (fst (signBalanceSnapshot (X := X) sample_env 0%nat (sample_service X)
                sample_snapshot sample_vault 421614)) = Ok resp /\
    length (Buffer_from (X := X) (sample_response 229)) = 65%nat /\
    getBytes (response_signature resp) = Some bytes /\
    nth 64 bytes 0 = 0 /\
    nth 64 bytes 0 <> nth 64 (Buffer_from (X := X) (sample_response 229)) 0 + 27.
Proof.
  intros X. eexists. eexists.
  split; [vm_compute; reflexivity|].
  split; [reflexivity|].
  split; [vm_compute; reflexivity|].
  split; [reflexivity|].
  vm_compute. discriminate.
Qed.

End SignerProps.

(** ** The balance fetcher *)

Module FetcherProps.

Import BalanceFetcher Invariants.

Section Fetcher.
Context `{R : Rpc}.

Lemma try_catch_rethrow {A} (m : Async A) st :
  try_catch m (fun error => throw error) st = m st.
Proof. unfold try_catch, throw. destruct (m st) as [[a|e] st']; reflexivity. Qed.

(** *** The library: decoded integers and [formatUnits] *)

Lemma balanceOf_range w url token holder v w' :
  balanceOf w url token holder = (Ok v, w') -> 0 <= v < 2 ^ 256.
Proof.
  unfold balanceOf. destruct (call_balanceOf w url token holder) as [[data|e] w1];
    cbn [mbind result_bind]; intros [= H _].
  eapply decode_uint256_range, H.
Qed.

Lemma totalAssets_range w url vault v w' :
  totalAssets w url vault = (Ok v, w') -> 0 <= v < 2 ^ 256.
Proof.
  unfold totalAssets. destruct (call_totalAssets w url vault) as [[data|e] w1];
    cbn [mbind result_bind]; intros [= H _].
  eapply decode_uint256_range, H.
Qed.

Lemma pow_256_511 : 2 ^ 256 < 2 ^ 511.
Proof. apply Z.pow_lt_mono_r; lia. Qed.

Lemma formatUnits_Ok value :
  fits_512 value -> exists text, formatUnits value 6 = Ok text.
Proof.
  intros H. pose proof (formatUnits_fits value H) as Hok.
  destruct (formatUnits value 6) as [text|e]; [eexists; reflexivity | discriminate].
Qed.

Lemma uint256_fits value : 0 <= value < 2 ^ 256 -> fits_512 value.
Proof.
  intros [Hlo Hhi]. pose proof pow_256_511. unfold fits_512.
  assert (0 < 2 ^ 511) by (apply Z.pow_pos_nonneg; lia). lia.
Qed.

Lemma balance_or_zero_range w url token holder r w' b :
  balanceOf w url token holder = (r, w') ->
  balance_or_zero r = Ok b -> 0 <= b < 2 ^ 256.
Proof.
  intros Hb. destruct r as [v|e]; cbn [balance_or_zero].
  - intros [= <-]. eapply balanceOf_range, Hb.
  - destruct (decide (ecode e = Some "BAD_DATA")); [|discriminate].
    intros [= <-]. split; [lia | apply Z.pow_pos_nonneg; lia].
Qed.

(** The [try]/[catch] around [balanceOf] that the three balance readers
    share. *)
Lemma balanceOf_or_zero (f : World -> result Z * World) st :
  try_catch (call f)
    (fun balanceError =>
       if decide (ecode balanceError = Some "BAD_DATA")
       then async_ret 0 else throw balanceError) st
  = (balance_or_zero (fst (f (world st))), with_world st (snd (f (world st)))).
Proof.
  unfold try_catch, call, with_world, balance_or_zero.
  destruct (f (world st)) as [[b|e] w]; [reflexivity|]. cbn [fst snd].
  destruct (decide (ecode e = Some "BAD_DATA")); reflexivity.
Qed.

Lemma toString_0 : toString 0 = "0".
Proof. reflexivity. Qed.

(** *** The balance readers, as the calls they make *)

Lemma fetchVaultUSDCBalance_eq chainConfig vault st :
  fetchVaultUSDCBalance chainConfig vault st =
  match balanceOf (world st) (rpcUrl chainConfig) (usdcAddress chainConfig) vault with
  | (r, w) =>
      (match balance_or_zero r with
       | Ok balance => Ok (toString balance)
       | Err e => Err (Error ("Failed to fetch USDC balance on " +:+ name chainConfig
                              +:+ ": " +:+ error_toString e))
       end, with_world st w)
  end.
Proof.
  unfold fetchVaultUSDCBalance. unfold try_catch at 1. unfold async_bind at 1.
  rewrite balanceOf_or_zero.
  destruct (balanceOf _ _ _ _) as [r w] eqn:Hb. cbn [fst snd].
  destruct (balance_or_zero r) as [b|e] eqn:Hz; [|reflexivity].
  destruct (formatUnits_Ok b (uint256_fits b (balance_or_zero_range _ _ _ _ _ _ _ Hb Hz)))
    as [text Ht].
  unfold async_bind, lift. rewrite Ht. reflexivity.
Qed.

Lemma fetchVaultATokenBalance_eq chainConfig vault st :
  fetchVaultATokenBalance chainConfig vault st =
  match getATokenAddress chainConfig (usdcAddress chainConfig) st with
  | (Err e, st1) =>
      (Err (Error ("Failed to fetch vault aToken balance on " +:+ name chainConfig
                   +:+ ": " +:+ error_toString e)), st1)
  | (Ok aTokenAddress, st1) =>
      match balanceOf (world st1) (rpcUrl chainConfig) aTokenAddress vault with
      | (r, w) =>
          (match balance_or_zero r with
           | Ok balance => Ok (toString balance)
           | Err e => Err (Error ("Failed to fetch vault aToken balance on "
                                  +:+ name chainConfig +:+ ": " +:+ error_toString e))
           end, with_world st1 w)
      end
  end.
Proof.
  unfold fetchVaultATokenBalance. unfold try_catch at 1. unfold async_bind at 1.
  destruct (getATokenAddress _ _ st) as [[a|e] st1]; [|reflexivity].
  unfold async_bind at 1. rewrite balanceOf_or_zero.
  destruct (balanceOf _ _ _ _) as [r w] eqn:Hb. cbn [fst snd].
  destruct (balance_or_zero r) as [b|e] eqn:Hz; [|reflexivity].
  destruct (formatUnits_Ok b (uint256_fits b (balance_or_zero_range _ _ _ _ _ _ _ Hb Hz)))
    as [text Ht].
  unfold async_bind, lift. rewrite Ht. reflexivity.
Qed.

Lemma fetchATokenBalance_eq chainConfig holder st :
  fetchATokenBalance chainConfig holder st =
  let wrap e := Error ("Failed to fetch aToken balance on " +:+ name chainConfig
                       +:+ ": " +:+ error_toString e) in
  match getATokenAddress chainConfig (usdcAddress chainConfig) st with
  | (Err e, st1) => (Err (wrap e), st1)
  | (Ok aTokenAddress, st1) =>
      match balanceOf (world st1) (rpcUrl chainConfig) aTokenAddress holder with
      | (r, w2) =>
          match balance_or_zero r with
          | Err e => (Err (wrap e), with_world st1 w2)
          | Ok balance =>
              match getBlockNumber w2 (rpcUrl chainConfig) with
              | (Err e, w3) => (Err (wrap e), with_world st1 w3)
              | (Ok blockNumber, w3) =>
                  (Ok {| cb_chainId := chainId chainConfig;
                         cb_chainName := name chainConfig;
                         cb_aTokenBalance := toString balance;
                         cb_aTokenAddress := aTokenAddress;
                         cb_blockNumber := blockNumber;
                         cb_timestamp := Date_now w3 / 1000 |}, with_world st1 w3)
              end
          end
      end
  end.
Proof.
  cbv zeta. unfold fetchATokenBalance. unfold try_catch at 1. unfold async_bind at 1.
  destruct (getATokenAddress _ _ st) as [[a|e] st1]; [|reflexivity].
  unfold async_bind at 1. rewrite balanceOf_or_zero.
  destruct (balanceOf _ _ _ _) as [r w2] eqn:Hb. cbn [fst snd].
  destruct (balance_or_zero r) as [b|e] eqn:Hz; [|reflexivity].
  unfold async_bind at 1. unfold call at 1. cbn [world with_world].
  destruct (getBlockNumber w2 (rpcUrl chainConfig)) as [[bn|e] w3]; [|reflexivity].
  destruct (formatUnits_Ok b (uint256_fits b (balance_or_zero_range _ _ _ _ _ _ _ Hb Hz)))
    as [text Ht].
  unfold async_bind, now_seconds, lift, async_ret, with_world. cbn [world aTokenAddressCache].
  rewrite Ht. reflexivity.
Qed.

Lemma fetchVaultBalance_eq chainConfig vault st :
  fetchVaultBalance chainConfig vault st =
  let wrap e := Error ("Failed to fetch vault balance on " +:+ name chainConfig
                       +:+ ": " +:+ error_toString e) in
  match getBlockNumber (world st) (rpcUrl chainConfig) with
  | (Err e, w1) => (Err (wrap e), with_world st w1)
  | (Ok blockNumber, w1) =>
      match totalAssets w1 (rpcUrl chainConfig) vault with
      | (Ok total, w2) =>
          (Ok {| vb_chainId := chainId chainConfig;
                 vb_chainName := name chainConfig;
                 vb_vaultAddress := vault;
                 vb_usdcBalance := "0";
                 vb_aTokenBalance := toString total;
                 vb_blockNumber := blockNumber;
                 vb_timestamp := Date_now w2 / 1000 |}, with_world st w2)
      | (Err _, w2) =>
          match fetchVaultUSDCBalance chainConfig vault (with_world st w2) with
          | (usdc, st3) =>
              match fetchVaultATokenBalance chainConfig vault st3 with
              | (aToken, st4) =>
                  (match usdc, aToken with
                   | Ok usdcBalance, Ok aTokenBalance =>
                       Ok {| vb_chainId := chainId chainConfig;
                             vb_chainName := name chainConfig;
                             vb_vaultAddress := vault;
                             vb_usdcBalance := usdcBalance;
                             vb_aTokenBalance := aTokenBalance;
                             vb_blockNumber := blockNumber;
                             vb_timestamp := Date_now (world st4) / 1000 |}
                   | Err e, _ => Err (wrap e)
                   | Ok _, Err e => Err (wrap e)
                   end, st4)
              end
          end
      end
  end.
Proof.
  cbv zeta. unfold fetchVaultBalance. unfold try_catch at 1. unfold async_bind at 1.
  unfold call at 1.
  destruct (getBlockNumber _ _) as [[bn|e] w1]; [|reflexivity].
  unfold async_bind at 1. unfold try_catch at 1. unfold async_bind at 1.
  unfold call at 1. cbn [world aTokenAddressCache].
  destruct (totalAssets w1 (rpcUrl chainConfig) vault) as [[total|e] w2] eqn:Ht.
  - destruct (formatUnits_Ok total (uint256_fits total (totalAssets_range _ _ _ _ _ Ht)))
      as [text Hf].
    unfold async_bind, lift, now_seconds, async_ret, with_world.
    cbn [world aTokenAddressCache]. rewrite Hf. reflexivity.
  - unfold async_bind at 1. unfold Promise_all. cbn [run_all].
    unfold with_world.
    destruct (fetchVaultUSDCBalance _ _ _) as [[u|e1] st3];
      destruct (fetchVaultATokenBalance _ _ _) as [[a|e2] st4];
      reflexivity.
Qed.

(** *** Token-address resolution *)

Lemma KNOWN_ATOKEN_ADDRESSES_nonempty id (chainAddresses : gmap string string) asset a :
  KNOWN_ATOKEN_ADDRESSES !! id = Some chainAddresses ->
  chainAddresses !! asset = Some a ->
  a <> "".
Proof.
  unfold KNOWN_ATOKEN_ADDRESSES. intros Hid Ha.
  apply elem_of_list_to_map_2 in Hid.
  repeat (apply elem_of_cons in Hid as [Hid | Hid];
          [ injection Hid as -> ->;
            repeat (apply lookup_insert_Some in Ha as [[_ <-] | [_ Ha]];
                    [discriminate|]);
            rewrite lookup_empty in Ha; discriminate | ]).
  apply elem_of_nil in Hid. contradiction.
Qed.

Lemma getATokenAddress_cached chainConfig usdcAddress st cached :
  aTokenAddressCache st !! (toString (chainId chainConfig) +:+ "-" +:+ usdcAddress)
  = Some cached ->
  getATokenAddress chainConfig usdcAddress st = (Ok cached, st).
Proof. intros H. unfold getATokenAddress. rewrite H. reflexivity. Qed.

Lemma getATokenAddress_miss chainConfig usdcAddress st r w1 :
  let cacheKey := toString (chainId chainConfig) +:+ "-" +:+ usdcAddress in
  aTokenAddressCache st !! cacheKey = None ->
  getReserveData (world st) (rpcUrl chainConfig) (aavePoolAddress chainConfig) usdcAddress
  = (r, w1) ->
  getATokenAddress chainConfig usdcAddress st =
  match r, KNOWN_ATOKEN_ADDRESSES !! chainId chainConfig
           ≫= (fun chainAddresses => chainAddresses !! toLowerCase usdcAddress) with
  | Ok aTokenAddress, _
  | Err _, Some aTokenAddress =>
      (Ok aTokenAddress,
       {| aTokenAddressCache := <[cacheKey := aTokenAddress]> (aTokenAddressCache st);
          world := w1 |})
  | Err error, None =>
      (Err (Error ("Failed to get aToken address on " +:+ name chainConfig
                   +:+ ": " +:+ error_toString error)), with_world st w1)
  end.
Proof.
  intros cacheKey Hmiss Hr. unfold getATokenAddress. fold cacheKey. rewrite Hmiss.
  unfold try_catch, async_bind, call. rewrite Hr.
  destruct r as [a|e]; [reflexivity|].
  cbn [aTokenAddressCache world].
  destruct (KNOWN_ATOKEN_ADDRESSES !! chainId chainConfig) as [chainAddresses|] eqn:Hid;
    [|reflexivity].
  cbn [mbind option_bind].
  destruct (chainAddresses !! toLowerCase usdcAddress) as [a|] eqn:Ha; [|reflexivity].
  pose proof (KNOWN_ATOKEN_ADDRESSES_nonempty _ _ _ _ Hid Ha) as Hne.
  apply String.eqb_neq in Hne. rewrite Hne. reflexivity.
Qed.

(** The cache only grows: an entry, once written, is never overwritten or
    removed by a resolution. *)
Lemma getATokenAddress_cache_grows chainConfig usdcAddress st r st' :
  getATokenAddress chainConfig usdcAddress st = (r, st') ->
  aTokenAddressCache st ⊆ aTokenAddressCache st'.
Proof.
  set (cacheKey := toString (chainId chainConfig) +:+ "-" +:+ usdcAddress).
  destruct (aTokenAddressCache st !! cacheKey) as [cached|] eqn:Hc.
  - rewrite (getATokenAddress_cached _ _ _ _ Hc). intros [= _ <-]. reflexivity.
  - destruct (getReserveData (world st) (rpcUrl chainConfig)
                (aavePoolAddress chainConfig) usdcAddress) as [r0 w1] eqn:Hr.
    rewrite (getATokenAddress_miss _ _ _ _ _ Hc Hr).
    destruct r0 as [a|e];
      [|destruct (KNOWN_ATOKEN_ADDRESSES !! chainId chainConfig ≫= _)];
      intros [= _ <-]; cbn [aTokenAddressCache with_world];
      try reflexivity; apply insert_subseteq, Hc.
Qed.

Lemma getATokenAddress_Ok_cached chainConfig usdcAddress st a st' :
  getATokenAddress chainConfig usdcAddress st = (Ok a, st') ->
  aTokenAddressCache st' !! (toString (chainId chainConfig) +:+ "-" +:+ usdcAddress)
  = Some a.
Proof.
  set (cacheKey := toString (chainId chainConfig) +:+ "-" +:+ usdcAddress).
  destruct (aTokenAddressCache st !! cacheKey) as [cached|] eqn:Hc.
  - rewrite (getATokenAddress_cached _ _ _ _ Hc). intros [= <- <-]. exact Hc.
  - destruct (getReserveData (world st) (rpcUrl chainConfig)
                (aavePoolAddress chainConfig) usdcAddress) as [r0 w1] eqn:Hr.
    rewrite (getATokenAddress_miss _ _ _ _ _ Hc Hr).
    destruct r0 as [a0|e];
      [|destruct (KNOWN_ATOKEN_ADDRESSES !! chainId chainConfig ≫= _)];
      intros [= <- <-] || discriminate; cbn [aTokenAddressCache];
      apply lookup_insert_eq.
Qed.

Lemma resolutions_cache_grow (later : list (ChainConfig * string)) st :
  aTokenAddressCache st ⊆
  aTokenAddressCache
    (snd (run_all (map (fun '(c, x) => getATokenAddress c x) later) st)).
Proof.
  revert st. induction later as [|[c x] later IH]; intros st; [reflexivity|].
  cbn [map run_all].
  destruct (getATokenAddress c x st) as [r st1] eqn:E.
  specialize (IH st1).
  destruct (run_all (map (fun '(c0, x0) => getATokenAddress c0 x0) later) st1)
    as [rs st2].
  cbn [snd] in *.
  etransitivity; [|exact IH]. eapply getATokenAddress_cache_grows, E.
Qed.

(** Every chain of [SUPPORTED_CHAINS] has its asset in the static table, so
    the fallback is available for all of them. *)
Lemma SUPPORTED_CHAINS_known env chain :
  chain ∈ getAllChains (SUPPORTED_CHAINS env) ->
  is_Some (KNOWN_ATOKEN_ADDRESSES !! chainId chain
           ≫= (fun chainAddresses => chainAddresses !! toLowerCase (usdcAddress chain))).
Proof.
  unfold getAllChains, SUPPORTED_CHAINS. cbn [map snd]. intros H.
  apply elem_of_cons in H as [-> | H];
    [exists "0x8A458A9dc9048e005d22849F470891b840296619"; vm_compute; reflexivity|].
  apply elem_of_cons in H as [-> | H];
    [exists "0x4e65fE4DbA92790696d040ac24Aa414708F5c0AB"; vm_compute; reflexivity|].
  apply elem_of_cons in H as [-> | H];
    [exists "0x460b97BD498E1157530AEb3086301d5225b91216"; vm_compute; reflexivity|].
  apply elem_of_cons in H as [-> | H];
    [exists "0x16dA4541aD1807f4443d92D26044C1147406EB80"; vm_compute; reflexivity|].
  apply elem_of_nil in H. contradiction.
Qed.

(** C9.  A cached entry is returned without any lookup (the state, and so
    the world, is unchanged).  Otherwise the lending pool is asked first;
    when that call fails the static table decides: the address it holds for
    (chain id, lower-cased asset) is returned, and — for an asset that is
    not the name of a member every object inherits — the resolution fails
    exactly when the table has none.  Every successful resolution leaves
    the address in the cache under the key of (chainId, asset), and every
    later call for the pair returns it from there. *)
Theorem getATokenAddress_resolution_policy
    (chainConfig : ChainConfig) (usdcAddress : string) (st : State) :
  let cacheKey := toString (chainId chainConfig) +:+ "-" +:+ usdcAddress in
  let known := KNOWN_ATOKEN_ADDRESSES !! chainId chainConfig
               ≫= (fun chainAddresses => chainAddresses !! toLowerCase usdcAddress) in
  (forall cached,
     aTokenAddressCache st !! cacheKey = Some cached ->
     getATokenAddress chainConfig usdcAddress st = (Ok cached, st))
  /\
  (aTokenAddressCache st !! cacheKey = None ->
   forall r w1,
     getReserveData (world st) (rpcUrl chainConfig) (aavePoolAddress chainConfig)
       usdcAddress = (r, w1) ->
     let resolved aTokenAddress :=
       (Ok aTokenAddress,
        {| aTokenAddressCache := <[cacheKey := aTokenAddress]> (aTokenAddressCache st);
           world := w1 |}) in
     (forall live, r = Ok live ->
        getATokenAddress chainConfig usdcAddress st = resolved live) /\
     (forall error a, r = Err error -> known = Some a ->
        getATokenAddress chainConfig usdcAddress st = resolved a) /\
     (forall error, r = Err error ->
        toLowerCase usdcAddress ∉ Object_prototype_names ->
        (known = None <->
         exists e', fst (getATokenAddress chainConfig usdcAddress st) = Err e')))
  /\
  (forall a st1,
     getATokenAddress chainConfig usdcAddress st = (Ok a, st1) ->
     aTokenAddressCache st1 !! cacheKey = Some a /\
     (forall st2, aTokenAddressCache st1 ⊆ aTokenAddressCache st2 ->
        getATokenAddress chainConfig usdcAddress st2 = (Ok a, st2)) /\
     (forall later : list (ChainConfig * string),
        let st2 := snd (run_all (map (fun '(c, x) => getATokenAddress c x) later) st1) in
        getATokenAddress chainConfig usdcAddress st2 = (Ok a, st2))).
Proof.
  intros cacheKey known. split; [|split].
  - intros cached Hc. apply getATokenAddress_cached, Hc.
  - intros Hmiss r w1 Hr resolved.
    pose proof (getATokenAddress_miss _ _ _ _ _ Hmiss Hr) as E.
    fold cacheKey known in E. rewrite E.
    split; [|split].
    + intros live ->. reflexivity.
    + intros error a -> ->. reflexivity.
    + intros error -> _. destruct known as [a|]; cbn [fst]; split.
      * discriminate.
      * intros [e' He']. discriminate.
      * intros _. eexists. reflexivity.
      * reflexivity.
  - intros a st1 Hs.
    pose proof (getATokenAddress_Ok_cached _ _ _ _ _ Hs) as Hc. fold cacheKey in Hc.
    assert (forall st2, aTokenAddressCache st1 ⊆ aTokenAddressCache st2 ->
              getATokenAddress chainConfig usdcAddress st2 = (Ok a, st2)) as Hlater.
    { intros st2 Hsub. apply getATokenAddress_cached.
      eapply lookup_weaken; eassumption. }
    split; [exact Hc|]. split; [exact Hlater|].
    intros later st2. apply Hlater, resolutions_cache_grow.
Qed.

(** *** Claims about the balance readers *)

(** C8 (as amended).  The readers tell failures apart by the error code
    alone.  A [balanceOf] that fails with the code BAD_DATA yields the
    balance 0: [fetchVaultUSDCBalance] returns "0", and
    [fetchATokenBalance] returns a record with balance "0" once the block
    number has been read; a [balanceOf] that fails with any other code
    makes the function fail, with the error wrapped in the function's own
    message.  BAD_DATA is the code of every return data that does not
    decode: empty return data, and a malformed response as well, yield 0. *)
Theorem balance_query_bad_data_is_zero
    (chainConfig : ChainConfig) (holder : string) (st : State) :
  (forall e w1,
     balanceOf (world st) (rpcUrl chainConfig) (usdcAddress chainConfig) holder
     = (Err e, w1) ->
     (ecode e = Some "BAD_DATA" ->
      fetchVaultUSDCBalance chainConfig holder st = (Ok "0", with_world st w1)) /\
     (ecode e <> Some "BAD_DATA" ->
      fetchVaultUSDCBalance chainConfig holder st
      = (Err (Error ("Failed to fetch USDC balance on " +:+ name chainConfig
                     +:+ ": " +:+ error_toString e)), with_world st w1)))
  /\
  (forall aTokenAddress st1 e w2,
     getATokenAddress chainConfig (usdcAddress chainConfig) st = (Ok aTokenAddress, st1) ->
     balanceOf (world st1) (rpcUrl chainConfig) aTokenAddress holder = (Err e, w2) ->
     (ecode e = Some "BAD_DATA" ->
      forall blockNumber w3,
        getBlockNumber w2 (rpcUrl chainConfig) = (Ok blockNumber, w3) ->
        fetchATokenBalance chainConfig holder st
        = (Ok {| cb_chainId := chainId chainConfig;
                 cb_chainName := name chainConfig;
                 cb_aTokenBalance := "0";
                 cb_aTokenAddress := aTokenAddress;
                 cb_blockNumber := blockNumber;
                 cb_timestamp := Date_now w3 / 1000 |}, with_world st1 w3)) /\
     (ecode e <> Some "BAD_DATA" ->
      fetchATokenBalance chainConfig holder st
      = (Err (Error ("Failed to fetch aToken balance on " +:+ name chainConfig
                     +:+ ": " +:+ error_toString e)), with_world st1 w2)))
  /\
  (forall data w1,
     call_balanceOf (world st) (rpcUrl chainConfig) (usdcAddress chainConfig) holder
     = (Ok data, w1) ->
     (data = [] \/ is_err (decode_uint256 data) = true) ->
     fetchVaultUSDCBalance chainConfig holder st = (Ok "0", with_world st w1))
  /\
  (forall aTokenAddress st1 data w2 blockNumber w3,
     getATokenAddress chainConfig (usdcAddress chainConfig) st = (Ok aTokenAddress, st1) ->
     call_balanceOf (world st1) (rpcUrl chainConfig) aTokenAddress holder
     = (Ok data, w2) ->
     (data = [] \/ is_err (decode_uint256 data) = true) ->
     getBlockNumber w2 (rpcUrl chainConfig) = (Ok blockNumber, w3) ->
     fetchATokenBalance chainConfig holder st
     = (Ok {| cb_chainId := chainId chainConfig;
              cb_chainName := name chainConfig;
              cb_aTokenBalance := "0";
              cb_aTokenAddress := aTokenAddress;
              cb_blockNumber := blockNumber;
              cb_timestamp := Date_now w3 / 1000 |}, with_world st1 w3)).
Proof.
  assert (forall w url token data w',
            call_balanceOf w url token holder = (Ok data, w') ->
            data = [] \/ is_err (decode_uint256 data) = true ->
            exists e, balanceOf w url token holder = (Err e, w') /\
                      ecode e = Some "BAD_DATA") as Hundecodable.
  { intros w url token data w' Hc Hbad. unfold balanceOf. rewrite Hc.
    cbn [mbind result_bind].
    assert (is_err (decode_uint256 data) = true) as Herr.
    { destruct Hbad as [-> | Hbad]; [apply decode_uint256_empty | exact Hbad]. }
    destruct (decode_uint256 data) as [v|e] eqn:Hd; [discriminate|].
    exists e. split; [reflexivity | eapply decode_uint256_BAD_DATA, Hd]. }
  assert (forall e w1,
            balanceOf (world st) (rpcUrl chainConfig) (usdcAddress chainConfig) holder
            = (Err e, w1) ->
            ecode e = Some "BAD_DATA" ->
            fetchVaultUSDCBalance chainConfig holder st = (Ok "0", with_world st w1)) as Husdc.
  { intros e w1 Hb Hcode. rewrite fetchVaultUSDCBalance_eq, Hb. cbn [balance_or_zero].
    destruct (decide (ecode e = Some "BAD_DATA")); [reflexivity|contradiction]. }
  assert (forall aTokenAddress st1 e w2 blockNumber w3,
            getATokenAddress chainConfig (usdcAddress chainConfig) st
            = (Ok aTokenAddress, st1) ->
            balanceOf (world st1) (rpcUrl chainConfig) aTokenAddress holder = (Err e, w2) ->
            ecode e = Some "BAD_DATA" ->
            getBlockNumber w2 (rpcUrl chainConfig) = (Ok blockNumber, w3) ->
            fetchATokenBalance chainConfig holder st
            = (Ok {| cb_chainId := chainId chainConfig;
                     cb_chainName := name chainConfig;
                     cb_aTokenBalance := "0";
                     cb_aTokenAddress := aTokenAddress;
                     cb_blockNumber := blockNumber;
                     cb_timestamp := Date_now w3 / 1000 |}, with_world st1 w3)) as Hatoken.
  { intros aTokenAddress st1 e w2 blockNumber w3 Ha Hb Hcode Hn.
    rewrite fetchATokenBalance_eq. cbv zeta. rewrite Ha, Hb. cbn [balance_or_zero].
    destruct (decide (ecode e = Some "BAD_DATA")); [|contradiction].
    rewrite Hn. reflexivity. }
  split; [|split; [|split]].
  - intros e w1 Hb. split; [apply Husdc, Hb|].
    intros Hcode. rewrite fetchVaultUSDCBalance_eq, Hb. cbn [balance_or_zero].
    destruct (decide (ecode e = Some "BAD_DATA")); [contradiction|reflexivity].
  - intros aTokenAddress st1 e w2 Ha Hb. split.
    + intros Hcode blockNumber w3 Hn. eapply Hatoken; eassumption.
    + intros Hcode. rewrite fetchATokenBalance_eq. cbv zeta. rewrite Ha, Hb.
      cbn [balance_or_zero].
      destruct (decide (ecode e = Some "BAD_DATA")); [contradiction|reflexivity].
  - intros data w1 Hc Hbad.
    destruct (Hundecodable _ _ _ _ _ Hc Hbad) as (e & Hb & Hcode).
    eapply Husdc; eassumption.
  - intros aTokenAddress st1 data w2 blockNumber w3 Ha Hc Hbad Hn.
    destruct (Hundecodable _ _ _ _ _ Hc Hbad) as (e & Hb & Hcode).
    eapply Hatoken; eassumption.
Qed.

(** C10.  Once the block number has been read, [fetchVaultBalance] calls
    [totalAssets]; when that call succeeds the record reports the whole
    value as the aToken balance and "0" as the USDC balance, and nothing
    else is queried (the world is the one the [totalAssets] call left).
    Only when it fails are the USDC and aToken balances of the vault read,
    and the record is made of them. *)
Theorem fetchVaultBalance_prefers_totalAssets
    (chainConfig : ChainConfig) (vault : string) (st : State) blockNumber w1 :
  getBlockNumber (world st) (rpcUrl chainConfig) = (Ok blockNumber, w1) ->
  (forall total w2,
     totalAssets w1 (rpcUrl chainConfig) vault = (Ok total, w2) ->
     fetchVaultBalance chainConfig vault st
     = (Ok {| vb_chainId := chainId chainConfig;
              vb_chainName := name chainConfig;
              vb_vaultAddress := vault;
              vb_usdcBalance := "0";
              vb_aTokenBalance := toString total;
              vb_blockNumber := blockNumber;
              vb_timestamp := Date_now w2 / 1000 |}, with_world st w2))
  /\
  (forall e w2 usdcBalance st3 aTokenBalance st4,
     totalAssets w1 (rpcUrl chainConfig) vault = (Err e, w2) ->
     fetchVaultUSDCBalance chainConfig vault (with_world st w2) = (Ok usdcBalance, st3) ->
     fetchVaultATokenBalance chainConfig vault st3 = (Ok aTokenBalance, st4) ->
     fetchVaultBalance chainConfig vault st
     = (Ok {| vb_chainId := chainId chainConfig;
              vb_chainName := name chainConfig;
              vb_vaultAddress := vault;
              vb_usdcBalance := usdcBalance;
              vb_aTokenBalance := aTokenBalance;
              vb_blockNumber := blockNumber;
              vb_timestamp := Date_now (world st4) / 1000 |}, st4)).
Proof.
  intros Hn. split.
  - intros total w2 Ht. rewrite fetchVaultBalance_eq. cbv zeta. rewrite Hn, Ht.
    reflexivity.
  - intros e w2 usdcBalance st3 aTokenBalance st4 Ht Hu Ha.
    rewrite fetchVaultBalance_eq. cbv zeta. rewrite Hn, Ht, Hu, Ha. reflexivity.
Qed.

(** *** [Promise.all] *)

Lemma all_fulfilled_Ok {A} (rs : list (result A)) l :
  all_fulfilled rs = Ok l <-> rs = map Ok l.
Proof.
  revert l. induction rs as [|[a|e] rs IH]; intros l; cbn [all_fulfilled].
  - split; [intros [= <-]; reflexivity | destruct l; [reflexivity|discriminate]].
  - destruct (all_fulfilled rs) as [l'|e'].
    + split.
      * intros [= <-]. cbn [map]. f_equal. apply IH. reflexivity.
      * destruct l as [|b l]; [discriminate|]. intros [= -> H].
        apply IH in H. injection H as ->. reflexivity.
    + split; [discriminate|].
      destruct l as [|b l]; [discriminate|]. intros [= -> H].
      apply IH in H. discriminate.
  - split; [discriminate|]. destruct l; discriminate.
Qed.

Lemma all_fulfilled_Err {A} (rs : list (result A)) :
  (exists e, all_fulfilled rs = Err e) <-> (exists e, Err e ∈ rs).
Proof.
  induction rs as [|[a|e] rs IH]; cbn [all_fulfilled].
  - split; intros [e H]; [discriminate | apply elem_of_nil in H; contradiction].
  - destruct (all_fulfilled rs) as [l'|e'].
    + split; [intros [e H]; discriminate|].
      intros [e H]. apply elem_of_cons in H as [H|H]; [discriminate|].
      destruct (proj2 IH (ex_intro _ e H)) as [e0 He0]. discriminate.
    + split; [|intros _; eexists; reflexivity].
      intros _. destruct (proj1 IH (ex_intro _ e' eq_refl)) as [e0 He0].
      exists e0. apply elem_of_cons. right. exact He0.
  - split; intros _; [|eexists; reflexivity].
    exists e. apply elem_of_cons. left. reflexivity.
Qed.

Lemma run_all_Forall2 {A B} (f : A -> Async B) (P : A -> B -> Prop) xs :
  (forall x st b st', f x st = (Ok b, st') -> P x b) ->
  forall st bs, fst (run_all (map f xs) st) = map Ok bs -> Forall2 P xs bs.
Proof.
  intros Hf. induction xs as [|x xs IH]; intros st bs; cbn [map run_all].
  - destruct bs; [constructor|discriminate].
  - destruct (f x st) as [r st1] eqn:E.
    destruct (run_all (map f xs) st1) as [rs st2] eqn:E2.
    cbn [fst]. destruct bs as [|b bs]; [discriminate|].
    cbn [map]. intros [= -> ->]. constructor.
    + eapply Hf, E.
    + apply (IH st1). rewrite E2. reflexivity.
Qed.

Lemma Promise_all_fst {A} (ms : list (Async A)) st :
  fst (Promise_all ms st) = all_fulfilled (fst (run_all ms st)).
Proof. unfold Promise_all. destruct (run_all ms st). reflexivity. Qed.

(** Two arrays of promises that behave alike, one by one, run alike. *)
Lemma run_all_ext {A} (ms ms' : list (Async A)) :
  Forall2 (fun m m' => forall st, m st = m' st) ms ms' ->
  forall st, run_all ms st = run_all ms' st.
Proof.
  induction 1 as [|m m' ms ms' Hm _ IH]; intros st; cbn [run_all]; [reflexivity|].
  rewrite Hm. destruct (m' st) as [r st1]. rewrite IH. reflexivity.
Qed.

(** *** What a fulfilled query returns *)

Lemma fetchATokenBalance_Ok chainConfig agentAddress st b st' :
  fetchATokenBalance chainConfig agentAddress st = (Ok b, st') ->
  cb_chainId b = chainId chainConfig /\ cb_chainName b = name chainConfig.
Proof.
  rewrite fetchATokenBalance_eq. cbv zeta.
  destruct (getATokenAddress _ _ st) as [[a|e] st1]; [|discriminate].
  destruct (balanceOf _ _ _ _) as [r w2].
  destruct (balance_or_zero r) as [bal|e]; [|discriminate].
  destruct (getBlockNumber _ _) as [[bn|e'] w3]; [|discriminate].
  intros [= <- _]. split; reflexivity.
Qed.

Lemma fetchVaultUSDCBalance_Ok chainConfig vault st s st' :
  fetchVaultUSDCBalance chainConfig vault st = (Ok s, st') ->
  exists z, s = toString z /\ 0 <= z < 2 ^ 256.
Proof.
  rewrite fetchVaultUSDCBalance_eq.
  destruct (balanceOf _ _ _ _) as [r w] eqn:Hb.
  destruct (balance_or_zero r) as [bal|e] eqn:Hz; [|discriminate].
  intros [= <- _]. exists bal. split; [reflexivity|].
  eapply balance_or_zero_range; eassumption.
Qed.

Lemma fetchVaultATokenBalance_Ok chainConfig vault st s st' :
  fetchVaultATokenBalance chainConfig vault st = (Ok s, st') ->
  exists z, s = toString z /\ 0 <= z < 2 ^ 256.
Proof.
  rewrite fetchVaultATokenBalance_eq.
  destruct (getATokenAddress _ _ st) as [[a|e] st1]; [|discriminate].
  destruct (balanceOf _ _ _ _) as [r w] eqn:Hb.
  destruct (balance_or_zero r) as [bal|e] eqn:Hz; [|discriminate].
  intros [= <- _]. exists bal. split; [reflexivity|].
  eapply balance_or_zero_range; eassumption.
Qed.

(** What [fetchVaultBalance] returns: the vault it was asked about, and two
    balances that are the decimal strings of unsigned 256-bit integers. *)
Lemma fetchVaultBalance_Ok_range chainConfig vault st b st' :
  fetchVaultBalance chainConfig vault st = (Ok b, st') ->
  vb_chainId b = chainId chainConfig /\ vb_vaultAddress b = vault /\
  exists invested idle,
    vb_aTokenBalance b = toString invested /\ vb_usdcBalance b = toString idle /\
    0 <= invested < 2 ^ 256 /\ 0 <= idle < 2 ^ 256.
Proof.
  rewrite fetchVaultBalance_eq. cbv zeta.
  destruct (getBlockNumber _ _) as [[bn|e] w1]; [|discriminate].
  destruct (totalAssets _ _ _) as [[total|e] w2] eqn:Ht.
  - intros [= <- _]. split; [reflexivity|]. split; [reflexivity|].
    exists total, 0. cbn [vb_aTokenBalance vb_usdcBalance].
    split; [reflexivity|]. split; [reflexivity|].
    split; [eapply totalAssets_range, Ht|].
    split; [lia | apply Z.pow_pos_nonneg; lia].
  - destruct (fetchVaultUSDCBalance _ _ _) as [[u|e1] st3] eqn:Hu;
      destruct (fetchVaultATokenBalance _ _ _) as [[a|e2] st4] eqn:Ha;
      try discriminate.
    intros [= <- _]. split; [reflexivity|]. split; [reflexivity|].
    apply fetchVaultUSDCBalance_Ok in Hu as (zu & -> & Hzu).
    apply fetchVaultATokenBalance_Ok in Ha as (za & -> & Hza).
    exists za, zu. cbn [vb_aTokenBalance vb_usdcBalance]. auto.
Qed.

Lemma fetchVaultBalance_Ok chainConfig vault st b st' :
  fetchVaultBalance chainConfig vault st = (Ok b, st') ->
  vb_chainId b = chainId chainConfig /\ vb_vaultAddress b = vault.
Proof.
  intros H. apply fetchVaultBalance_Ok_range in H as (H1 & H2 & _). auto.
Qed.

(** The two balances of a record built by [fetchVaultBalance] are decimal
    strings of integers, which [BigInt] reads back. *)
Lemma fetchVaultBalance_balances_parse chainConfig vault st b st' :
  fetchVaultBalance chainConfig vault st = (Ok b, st') ->
  exists invested idle,
    BigInt (vb_aTokenBalance b) = Ok invested /\ BigInt (vb_usdcBalance b) = Ok idle /\
    0 <= invested < 2 ^ 256 /\ 0 <= idle < 2 ^ 256.
Proof.
  intros H. apply fetchVaultBalance_Ok_range in H
    as (_ & _ & invested & idle & -> & -> & Hi & Hu).
  exists invested, idle. rewrite !JSProps.BigInt_toString. auto.
Qed.

Lemma getChainById_chainId supported id chain :
  getChainById supported id = Some chain -> chainId chain = id.
Proof.
  unfold getChainById. intros H. apply find_some in H as [_ H].
  apply Z.eqb_eq, H.
Qed.

(** Every vault that [getAllVaults] lists belongs to a configured chain,
    which [getChainById] finds. *)
Lemma getAllVaults_chain supported id vault :
  (id, vault) ∈ getAllVaults supported ->
  exists chain, getChainById supported id = Some chain.
Proof.
  unfold getAllVaults. intros H.
  apply list_elem_of_omap in H as (c & Hin & Hc).
  destruct (vaultAddress c) as [v0|]; [|discriminate].
  destruct (String.eqb v0 ""); [discriminate|]. injection Hc as <- <-.
  unfold getChainById.
  destruct (find (fun chain => chainId chain =? chainId c) (map snd supported))
    as [found|] eqn:Hf; [eexists; reflexivity|].
  pose proof (find_none _ _ Hf c (proj1 (list_elem_of_In _ _) Hin)) as Hn.
  cbv beta in Hn. rewrite Z.eqb_refl in Hn. discriminate.
Qed.

(** *** The promise arrays and the queries behind them *)

Lemma chain_promises_queries supported agentAddress st :
  run_all (chain_promises supported agentAddress) st
  = run_all (chain_queries supported agentAddress) st.
Proof.
  apply run_all_ext. unfold chain_promises, chain_queries.
  induction (getAllChains supported) as [|chain chains IH]; cbn [map]; constructor.
  - intros st0. apply try_catch_rethrow.
  - exact IH.
Qed.

Lemma vault_promises_queries supported st :
  run_all (vault_promises supported) st = run_all (vault_queries supported) st /\
  length (vault_queries supported) = length (getAllVaults supported).
Proof.
  pose proof (getAllVaults_chain supported) as Hfound.
  unfold vault_promises, vault_queries.
  revert Hfound. generalize (getAllVaults supported) as vaults. intros vaults Hfound.
  match goal with
  | |- run_all (map ?F vaults) _ = run_all (omap ?G vaults) _ /\ _ =>
      assert (Forall2 (fun m m' => forall st0 : State, m st0 = m' st0)
                (map F vaults) (omap G vaults)) as H
  end.
  { induction vaults as [|[id v] vaults IH]; cbn [map omap list_omap]; [constructor|].
    destruct (Hfound id v) as [chain Hc]; [apply elem_of_cons; left; reflexivity|].
    rewrite Hc. cbn [mbind option_bind]. constructor.
    - intros st0. apply try_catch_rethrow.
    - apply IH. intros id0 v0 Hv0. apply (Hfound id0 v0), elem_of_cons. right. exact Hv0. }
  split; [apply run_all_ext, H|].
  apply Forall2_length in H. rewrite length_map in H. symmetry. exact H.
Qed.

(** *** Claims about the aggregation *)

Lemma fetchChainBalances_rejects supported agentAddress st :
  (exists e, Err e ∈ fst (run_all (chain_promises supported agentAddress) st)) ->
  exists e', fst (fetchChainBalances supported agentAddress st) = Err e'.
Proof.
  intros Hfail. unfold fetchChainBalances. rewrite Promise_all_fst.
  apply all_fulfilled_Err, Hfail.
Qed.

Lemma fetchChainBalances_fulfils supported agentAddress st balances st' :
  fetchChainBalances supported agentAddress st = (Ok balances, st') ->
  fst (run_all (chain_promises supported agentAddress) st) = map Ok balances /\
  Forall2 (fun chain b => cb_chainId b = chainId chain /\ cb_chainName b = name chain)
          (getAllChains supported) balances.
Proof.
  intros H.
  assert (fst (run_all (chain_promises supported agentAddress) st) = map Ok balances) as E.
  { apply all_fulfilled_Ok. rewrite <- Promise_all_fst.
    unfold fetchChainBalances in H. rewrite H. reflexivity. }
  split; [exact E|]. revert E. unfold chain_promises.
  apply run_all_Forall2. intros chain st0 b st0' Hb.
  rewrite try_catch_rethrow in Hb. eapply fetchATokenBalance_Ok, Hb.
Qed.

Lemma fetchVaultBalances_rejects supported st :
  (exists e, Err e ∈ fst (run_all (vault_promises supported) st)) ->
  exists e', fst (fetchVaultBalances supported st) = Err e'.
Proof.
  intros Hfail. unfold fetchVaultBalances. rewrite Promise_all_fst.
  apply all_fulfilled_Err, Hfail.
Qed.

Lemma fetchVaultBalances_fulfils supported st balances st' :
  fetchVaultBalances supported st = (Ok balances, st') ->
  fst (run_all (vault_promises supported) st) = map Ok balances /\
  Forall2 (fun vault b => vb_chainId b = fst vault /\ vb_vaultAddress b = snd vault)
          (getAllVaults supported) balances.
Proof.
  intros H.
  assert (fst (run_all (vault_promises supported) st) = map Ok balances) as E.
  { apply all_fulfilled_Ok. rewrite <- Promise_all_fst.
    unfold fetchVaultBalances in H. rewrite H. reflexivity. }
  split; [exact E|]. revert E. unfold vault_promises.
  apply run_all_Forall2. intros [id v] st0 b st0' Hb.
  destruct (getChainById supported id) as [chain|] eqn:Hid; [|discriminate].
  rewrite try_catch_rethrow in Hb. apply fetchVaultBalance_Ok in Hb as [H1 H2].
  apply getChainById_chainId in Hid. cbn [fst snd]. split; congruence.
Qed.

(** C6.  [fetchChainBalances] and [fetchVaultBalances] are all-or-nothing.
    The queries are the balance readers themselves: [fetchATokenBalance]
    for every configured chain, [fetchVaultBalance] for every configured
    vault (none is left out), each run in the state its predecessors left.
    If any of them rejects, the fetch rejects.  A fetch that fulfils
    returns exactly the values of all the queries: one balance per
    configured chain (vault), in configuration order — never a list for a
    strict subset. *)
Theorem fetch_balances_all_or_nothing
    (supported : list (string * ChainConfig)) (agentAddress : string) (st : State) :
  let chain_results := fst (run_all (chain_queries supported agentAddress) st) in
  let vault_results := fst (run_all (vault_queries supported) st) in
  ((exists e, Err e ∈ chain_results) ->
   exists e', fst (fetchChainBalances supported agentAddress st) = Err e')
  /\
  (forall balances st',
     fetchChainBalances supported agentAddress st = (Ok balances, st') ->
     chain_results = map Ok balances /\
     length balances = length (getAllChains supported) /\
     Forall2 (fun chain b => cb_chainId b = chainId chain /\ cb_chainName b = name chain)
             (getAllChains supported) balances)
  /\
  length (vault_queries supported) = length (getAllVaults supported)
  /\
  ((exists e, Err e ∈ vault_results) ->
   exists e', fst (fetchVaultBalances supported st) = Err e')
  /\
  (forall balances st',
     fetchVaultBalances supported st = (Ok balances, st') ->
     vault_results = map Ok balances /\
     length balances = length (getAllVaults supported) /\
     Forall2 (fun vault b => vb_chainId b = fst vault /\ vb_vaultAddress b = snd vault)
             (getAllVaults supported) balances).
Proof.
  intros chain_results vault_results.
  unfold chain_results, vault_results.
  rewrite <- chain_promises_queries.
  destruct (vault_promises_queries supported st) as [<- Hlen].
  split; [|split; [|split; [|split]]].
  - apply fetchChainBalances_rejects.
  - intros balances st' H.
    apply fetchChainBalances_fulfils in H as [E Hall].
    split; [exact E|].
    split; [symmetry; eapply Forall2_length, Hall | exact Hall].
  - exact Hlen.
  - apply fetchVaultBalances_rejects.
  - intros balances st' H.
    apply fetchVaultBalances_fulfils in H as [E Hall].
    split; [exact E|].
    split; [symmetry; eapply Forall2_length, Hall | exact Hall].
Qed.

Lemma sum_BigInt_exact {A} (f : A -> string) (l : list A) (values : list Z) :
  Forall2 (fun x v => BigInt (f x) = Ok v) l values ->
  sum_BigInt f l = Ok (Zsum values).
Proof.
  unfold sum_BigInt.
  assert (forall acc, Forall2 (fun x v => BigInt (f x) = Ok v) l values ->
            fold_left (fun sum x => s ← sum; b ← BigInt (f x); Ok (s + b)) l (Ok acc)
            = Ok (acc + Zsum values)) as H.
  { intros acc Hall. revert acc.
    induction Hall as [|x v l values Hx _ IH]; intros acc; cbn [fold_left Zsum foldr].
    - f_equal. lia.
    - cbn [mbind result_bind]. rewrite Hx. cbn [mbind result_bind].
      rewrite IH. f_equal. unfold Zsum. lia. }
  intros Hall. rewrite (H 0 Hall). reflexivity.
Qed.

(** [aggregateBalances] once the two sums are known: the four log lines
    decide between the record and a RangeError. *)
Lemma aggregateBalances_sums now chainBalances vaultBalances invested idle :
  sum_BigInt vb_aTokenBalance vaultBalances = Ok invested ->
  sum_BigInt vb_usdcBalance vaultBalances = Ok idle ->
  (fits_512 invested /\ fits_512 idle /\ fits_512 (invested + idle) ->
   aggregateBalances now chainBalances vaultBalances
   = Ok {| totalATokens := toString invested;
           totalUSDC := toString idle;
           totalValue := toString (invested + idle);
           chainBalances := chainBalances;
           vaultBalances := vaultBalances;
           timestamp := now / 1000 |}) /\
  (~ (fits_512 invested /\ fits_512 idle /\ fits_512 (invested + idle)) ->
   exists message,
     aggregateBalances now chainBalances vaultBalances
     = Err (mkError "RangeError" (Some "NUMERIC_FAULT") message)).
Proof.
  intros Ha Hu. unfold aggregateBalances. rewrite Ha. cbn [mbind result_bind].
  rewrite Hu. cbn [mbind result_bind]. split.
  - intros (Hfa & Hfu & Hfv).
    destruct (formatUnits_Ok _ Hfa) as [t1 ->]. cbn [mbind result_bind].
    destruct (formatUnits_Ok _ Hfu) as [t2 ->]. cbn [mbind result_bind].
    destruct (formatUnits_Ok _ Hfv) as [t3 ->]. reflexivity.
  - intros Hout.
    destruct (decide (fits_512 invested)) as [Hfa|Hfa].
    2: { destruct (formatUnits_overflow _ Hfa) as [message ->].
         exists message. reflexivity. }
    destruct (formatUnits_Ok _ Hfa) as [t1 ->]. cbn [mbind result_bind].
    destruct (decide (fits_512 idle)) as [Hfu|Hfu].
    2: { destruct (formatUnits_overflow _ Hfu) as [message ->].
         exists message. reflexivity. }
    destruct (formatUnits_Ok _ Hfu) as [t2 ->]. cbn [mbind result_bind].
    destruct (decide (fits_512 (invested + idle))) as [Hfv|Hfv]; [tauto|].
    destruct (formatUnits_overflow _ Hfv) as [message ->].
    exists message. reflexivity.
Qed.

(** C7 (as amended).  For vault balances whose two balance strings denote
    the integers [invested] and [idle], and whose three totals lie in
    [-2^511, 2^511), [aggregateBalances] returns the decimal strings of the
    exact sums: totalATokens = Σ invested, totalUSDC = Σ idle and
    totalValue = Σ invested + Σ idle.  When a total lies outside that
    range, it throws the RangeError of [formatUnits]. *)
Theorem aggregateBalances_exact_sums
    (now : Z) (chainBalances : list ChainBalance) (vaultBalances : list VaultBalance)
    (invested idle : list Z) :
  Forall2 (fun vault v => BigInt (vb_aTokenBalance vault) = Ok v) vaultBalances invested ->
  Forall2 (fun vault v => BigInt (vb_usdcBalance vault) = Ok v) vaultBalances idle ->
  (fits_512 (Zsum invested) /\ fits_512 (Zsum idle) /\
   fits_512 (Zsum invested + Zsum idle) ->
   aggregateBalances now chainBalances vaultBalances
   = Ok {| totalATokens := toString (Zsum invested);
           totalUSDC := toString (Zsum idle);
           totalValue := toString (Zsum invested + Zsum idle);
           chainBalances := chainBalances;
           vaultBalances := vaultBalances;
           timestamp := now / 1000 |}) /\
  (~ (fits_512 (Zsum invested) /\ fits_512 (Zsum idle) /\
      fits_512 (Zsum invested + Zsum idle)) ->
   exists message,
     aggregateBalances now chainBalances vaultBalances
     = Err (mkError "RangeError" (Some "NUMERIC_FAULT") message)).
Proof.
  intros Hinv Hidle.
  apply aggregateBalances_sums; apply sum_BigInt_exact; assumption.
Qed.

End Fetcher.

(** *** The statements at concrete collaborators *)

Import Fixtures.

Lemma balance_query_bad_data_is_zero_witness :
  let R := balance_data_rpc [] in
  fetchVaultUSDCBalance (R := R) base_sepolia "0x773035EABdA16B5416B26E12156483C6B6F56451"
    (fresh R 0%nat)
  = (Ok "0", with_world (fresh R 0%nat) 1%nat).
Proof.
  intros R.
  refine (proj1 (proj2 (proj2 (balance_query_bad_data_is_zero (R := R) base_sepolia
                                 "0x773035EABdA16B5416B26E12156483C6B6F56451"
                                 (fresh R 0%nat))))
            [] 1%nat eq_refl (or_introl eq_refl)).
Defined.

(** C8 as stated fails for a malformed response: return data of two bytes
    does not decode, and the balance is 0, not an error. *)
Lemma malformed_response_is_zero :
  let R := balance_data_rpc [18; 52] in
  let vault := "0x773035EABdA16B5416B26E12156483C6B6F56451" in
  call_balanceOf (Rpc := R) 0%nat (rpcUrl base_sepolia) (usdcAddress base_sepolia) vault
  = (Ok [18; 52], 1%nat) /\
  is_err (decode_uint256 (Rpc := R) [18; 52]) = true /\
  fetchVaultUSDCBalance (R := R) base_sepolia vault (fresh R 0%nat)
  = (Ok "0", with_world (fresh R 0%nat) 1%nat) /\
  is_ok (fst (fetchATokenBalance (R := R) base_sepolia vault (fresh R 0%nat))) = true.
Proof.
  intros R vault. split; [reflexivity|]. split; [reflexivity|].
  split; [reflexivity|]. vm_compute. reflexivity.
Qed.

Lemma fetchVaultBalance_prefers_totalAssets_witness :
  fetchVaultBalance (R := healthy_rpc) base_sepolia
    "0x773035EABdA16B5416B26E12156483C6B6F56451" (fresh healthy_rpc 0%nat)
  = (Ok {| vb_chainId := 84532;
           vb_chainName := "Base Sepolia";
           vb_vaultAddress := "0x773035EABdA16B5416B26E12156483C6B6F56451";
           vb_usdcBalance := "0";
           vb_aTokenBalance := "5000000";
           vb_blockNumber := 42;
           vb_timestamp := 1762041600 |},
     with_world (fresh healthy_rpc 0%nat) 2%nat).
Proof.
  refine (proj1 (fetchVaultBalance_prefers_totalAssets (R := healthy_rpc) base_sepolia
                   "0x773035EABdA16B5416B26E12156483C6B6F56451" (fresh healthy_rpc 0%nat)
                   42 1%nat eq_refl) 5000000 2%nat eq_refl).
Defined.

Lemma getATokenAddress_resolution_policy_witness :
  let R := one_down_rpc "https://sepolia.base.org" in
  getATokenAddress (R := R) base_sepolia (usdcAddress base_sepolia) (fresh R 0%nat)
  = (Ok "0x4e65fE4DbA92790696d040ac24Aa414708F5c0AB",
     {| aTokenAddressCache :=
          <["84532-0x036CbD53842c5426634e7929541eC2318f3dCF7e"
            := "0x4e65fE4DbA92790696d040ac24Aa414708F5c0AB"]> ∅;
        world := 1%nat |}) /\
  exists e',
    fst (getATokenAddress (R := R) base_sepolia
           "0x000000000000000000000000000000000000dEaD" (fresh R 0%nat)) = Err e'.
Proof.
  intros R. split.
  - destruct (getATokenAddress_resolution_policy (R := R) base_sepolia
                (usdcAddress base_sepolia) (fresh R 0%nat)) as (_ & H & _).
    destruct (H (lookup_empty _) (Err network_error) 1%nat eq_refl) as (_ & H2 & _).
    refine (H2 network_error "0x4e65fE4DbA92790696d040ac24Aa414708F5c0AB" eq_refl _).
    vm_compute. reflexivity.
  - destruct (getATokenAddress_resolution_policy (R := R) base_sepolia
                "0x000000000000000000000000000000000000dEaD" (fresh R 0%nat))
      as (_ & H & _).
    destruct (H (lookup_empty _) (Err network_error) 1%nat eq_refl) as (_ & _ & H3).
    refine (proj1 (H3 network_error eq_refl _) _).
    + apply (bool_decide_unpack _). vm_compute. exact I.
    + vm_compute. reflexivity.
Defined.

Lemma fetch_balances_all_or_nothing_witness :
  let R := one_down_rpc "https://sepolia.base.org" in
  is_err (fst (fetchChainBalances (R := R) (SUPPORTED_CHAINS no_env)
                 "0x20f2747bbc52453ac0774b5b2fe0e28dc6637f30" (fresh R 0%nat))) = true.
Proof.
  intros R.
  destruct (fetch_balances_all_or_nothing (R := R) (SUPPORTED_CHAINS no_env)
              "0x20f2747bbc52453ac0774b5b2fe0e28dc6637f30" (fresh R 0%nat))
    as (H & _).
  destruct H as [e' He'].
  - exists (Error "Failed to fetch aToken balance on Base Sepolia: Error: failed to detect network").
    apply list_elem_of_lookup. exists 1%nat. vm_compute. reflexivity.
  - rewrite He'. reflexivity.
Defined.

Lemma aggregateBalances_exact_sums_witness :
  let vault (a u : string) :=
    {| vb_chainId := 84532; vb_chainName := "Base Sepolia";
       vb_vaultAddress := "0x773035EABdA16B5416B26E12156483C6B6F56451";
       vb_usdcBalance := u; vb_aTokenBalance := a;
       vb_blockNumber := 42; vb_timestamp := 1762041600 |} in
  let vaults := [vault "340282366920938463463374607431768211456" "18446744073709551616";
                 vault "7" "3"] in
  aggregateBalances (R := healthy_rpc) 1762041600123 [] vaults
  = Ok {| totalATokens := "340282366920938463463374607431768211463";
          totalUSDC := "18446744073709551619";
          totalValue := "340282366920938463481821351505477763082";
          chainBalances := [];
          vaultBalances := vaults;
          timestamp := 1762041600 |}.
Proof.
  intros vault vaults.
  refine (proj1 (aggregateBalances_exact_sums (R := healthy_rpc) 1762041600123 [] vaults
                   [340282366920938463463374607431768211456; 7]
                   [18446744073709551616; 3] _ _) _).
  - repeat constructor.
  - repeat constructor.
  - unfold fits_512, Zsum. cbn [foldr]. lia.
Defined.

(** C7 as stated fails once a total reaches 2^511: the sum is exact, but
    [aggregateBalances] throws instead of returning it. *)
Lemma aggregateBalances_overflows_at_2_511 :
  let total := "6703903964971298549787012499102923063739682910296196688861780721860882015036773488400937149083451713845015929093243025426876941405973284973216824503042048" in
  let vault :=
    {| vb_chainId := 84532; vb_chainName := "Base Sepolia";
       vb_vaultAddress := "0x773035EABdA16B5416B26E12156483C6B6F56451";
       vb_usdcBalance := "0"; vb_aTokenBalance := total;
       vb_blockNumber := 42; vb_timestamp := 1762041600 |} in
  BigInt total = Ok (2 ^ 511) /\
  sum_BigInt vb_aTokenBalance [vault] = Ok (2 ^ 511) /\
  is_err (aggregateBalances (R := healthy_rpc) 1762041600123 [] [vault]) = true.
Proof.
  intros total vault. split; [vm_compute; reflexivity|].
  split; vm_compute; reflexivity.
Qed.

End FetcherProps.

(** ** The oracle service *)

Module OracleProps.

Import BalanceFetcher Oracle.

Section Pool.
Context `{X : NearContract.External} `{R : Rpc}.

(** [getPoolValue] inherits the all-or-nothing behaviour of the two
    fetches: a rejected chain query rejects it, and a response has one
    breakdown entry per configured vault, in order. *)
Lemma getPoolValue_all_or_nothing
    (supported : list (string * ChainConfig)) (this : OracleService) (st : State) :
  ((exists e, Err e ∈ fst (run_all (chain_promises supported
                                      (NearContract.getAgentAddress (nearMpc this))) st)) ->
   exists e', fst (getPoolValue supported this st) = Err e')
  /\
  (forall resp st',
     getPoolValue supported this st = (Ok resp, st') ->
     Forall2 (fun vault entry => entry_chainId entry = fst vault)
             (getAllVaults supported) (breakdown resp)).
Proof.
  split.
  - intros Hfail. apply FetcherProps.fetchChainBalances_rejects in Hfail as [e' He'].
    unfold getPoolValue. rewrite FetcherProps.try_catch_rethrow. unfold async_bind at 1.
    destruct (fetchChainBalances _ _ st) as [[l|e] st1]; [discriminate|].
    eexists. reflexivity.
  - intros resp st'. unfold getPoolValue.
    rewrite FetcherProps.try_catch_rethrow. unfold async_bind at 1.
    destruct (fetchChainBalances _ _ st) as [[chainBalances|e] st1]; [|discriminate].
    unfold async_bind at 1.
    destruct (fetchVaultBalances supported st1) as [[vaultBalances|e] st2] eqn:Hv;
      [|discriminate].
    unfold async_bind at 1.
    destruct (aggregateBalances _ _ _) as [aggregated|e]; [|discriminate].
    unfold async_bind, now_seconds, async_ret. intros [= <- _]. cbn [breakdown].
    apply FetcherProps.fetchVaultBalances_fulfils in Hv as [_ Hall].
    clear -Hall. induction Hall as [|v b vs bs [Hid _] _ IH]; cbn [map]; constructor.
    + exact Hid.
    + exact IH.
Qed.

End Pool.

End OracleProps.

(** ** The agent address derivation *)

Module DeriveProps.

Import Derive.

Section Derivation.
Context `{C : Secp256k1}.

(** C4.  For a root public key given in the 64-byte raw form or in the
    33-byte compressed form, and for every contract id and path, the
    address returned by [deriveAgentAddress] is "0x" and the hex of the last
    20 bytes of the Keccak hash of the point
    [root + Hash256(prefix || contractId || "," || path) * G] in uncompressed
    form without its marker byte. *)
Theorem deriveAgentAddress_matches_spec
    (contractId path publicKeyStr : string) (decoded : list Z)
    (root : Point) (address : list Z) :
  query_public_key MPC_CONTRACT = Ok publicKeyStr ->
  base_decode (replace "secp256k1:" "" publicKeyStr) = Ok decoded ->
  decoded = raw root \/ decoded = compressed root ->
  spec_address root contractId path = Some address ->
  deriveAgentAddress contractId path = Ok ("0x" +:+ toHex address).
Proof.
  intros Hq Hd Hform Hspec.
  unfold spec_address in Hspec.
  destruct (mulG _) as [E|] eqn:HE; [|discriminate].
  cbn [mbind option_bind] in Hspec.
  destruct (padd root E) as [D|] eqn:HD; [|discriminate].
  cbn [mbind option_bind] in Hspec. injection Hspec as <-.
  unfold deriveAgentAddress, EPSILON_DERIVATION_PREFIX.
  rewrite Hq. cbn [mbind result_bind]. rewrite Hd.
  cbn [mbind result_bind].
  assert ((if (length decoded =? 64)%nat then Ok (4 :: decoded)
           else if (length decoded =? 33)%nat then publicKeyConvert decoded
                else Ok decoded) = Ok (4 :: raw root)) as ->.
  { destruct Hform as [-> | ->].
    - rewrite raw_length. reflexivity.
    - rewrite compressed_length. cbn [Nat.eqb]. apply publicKeyConvert_spec. }
  cbn [mbind result_bind].
  rewrite (publicKeyCreate_spec _ E (SHA3_256_length _) (SHA3_256_bytes _) HE).
  cbn [mbind result_bind].
  rewrite (publicKeyCombine_spec _ _ _ HD). cbn [mbind result_bind].
  reflexivity.
Qed.

End Derivation.

Import Fixtures.

Lemma deriveAgentAddress_matches_spec_witness :
  deriveAgentAddress (L := toy_libraries (toy_compressed 5)) NEAR_CONTRACT_ID PATH
  = Ok "0x01010101010101010101010101010101010101c5".
Proof.
  refine (deriveAgentAddress_matches_spec (C := toy_curve (toy_compressed 5))
            NEAR_CONTRACT_ID PATH _ (toy_compressed 5) 5 (repeat 1 19 ++ [197])
            eq_refl eq_refl (or_intror eq_refl) _).
  vm_compute. reflexivity.
Defined.

End DeriveProps.

(** ** The signing service: construction, initialisation and the error
    paths of [signBalanceSnapshot] *)

Module SignerMore.

Import NearContract.

Section Signer.
Context `{X : External}.

(** X1.  [getNearContract] builds the service once: after a call that
    returned an object, every later call returns that same object whatever
    the environment has become; a call whose construction failed leaves no
    instance behind, so the next call constructs again. *)
Theorem getNearContract_is_a_singleton env instance r instance' :
  getNearContract env instance = (r, instance') ->
  (forall service, r = Ok service ->
     instance' = Some service /\
     forall env', getNearContract env' instance' = (Ok service, instance')) /\
  (forall e, r = Err e ->
     instance = None /\ instance' = None /\ constructor env = Err e).
Proof.
  unfold getNearContract. destruct instance as [i|].
  - intros [= <- <-]. split; [|discriminate].
    intros service [= <-]. split; reflexivity.
  - destruct (constructor env) as [i|e0] eqn:Hc; intros [= <- <-].
    + split; [|discriminate]. intros service [= <-]. split; reflexivity.
    + split; [discriminate|]. intros e [= <-]. repeat split; reflexivity.
Qed.

(** X2.  The first [initialize] of an object either parses the private key,
    stores it as the only key of a fresh key store under
    ("testnet", nearAccountId) and marks the object initialised — after
    which [initialize] does nothing, whatever the environment — or fails
    with the parser's error, leaving the object uninitialised with an empty
    key store.  The identity fields are never touched. *)
Theorem initialize_first_call env (this : NearContractService) r this1 :
  isInitialized this = false ->
  initialize env this = (r, this1) ->
  nearContractId this1 = nearContractId this /\
  nearAccountId this1 = nearAccountId this /\
  agentAddress this1 = agentAddress this /\
  match r with
  | Ok _ =>
      exists keyPair,
        KeyPair_fromString (NEAR_PRIVATE_KEY env) = Ok keyPair /\
        keyStore this1 = Some [("testnet", nearAccountId this, keyPair)] /\
        isInitialized this1 = true /\
        forall env', initialize env' this1 = (Ok tt, this1)
  | Err e =>
      KeyPair_fromString (NEAR_PRIVATE_KEY env) = Err e /\
      keyStore this1 = Some [] /\
      isInitialized this1 = false
  end.
Proof.
  intros Hi. unfold initialize at 1. rewrite Hi.
  destruct (KeyPair_fromString (NEAR_PRIVATE_KEY env)) as [keyPair|e];
    intros [= <- <-]; cbn; repeat split; try reflexivity.
  exists keyPair. repeat split; reflexivity.
Qed.

(** X3.  When the private key of an uninitialised service does not parse,
    [signBalanceSnapshot] fails with the parser's error without calling the
    contract: the network is untouched and the service stays
    uninitialised. *)
Theorem signBalanceSnapshot_bad_key_makes_no_call
    env w (this : NearContractService) snapshot vaultAddress chainId e :
  isInitialized this = false ->
  KeyPair_fromString (NEAR_PRIVATE_KEY env) = Err e ->
  exists this',
    signBalanceSnapshot env w this snapshot vaultAddress chainId = (Err e, this', w) /\
    isInitialized this' = false.
Proof.
  intros Hi Hk. rewrite SignerProps.signBalanceSnapshot_unfold.
  unfold initialize. rewrite Hi, Hk. eexists. split; reflexivity.
Qed.

(** X4.  [signBalanceSnapshot] never changes the contract id, the account
    id or the agent address of the service; on an initialised service it
    changes nothing at all, and a service that returned a response is
    initialised. *)
Theorem signBalanceSnapshot_object_after
    env w (this : NearContractService) snapshot vaultAddress chainId r this' w' :
  signBalanceSnapshot env w this snapshot vaultAddress chainId = (r, this', w') ->
  nearContractId this' = nearContractId this /\
  nearAccountId this' = nearAccountId this /\
  agentAddress this' = agentAddress this /\
  (isInitialized this = true -> this' = this) /\
  (forall response, r = Ok response -> isInitialized this' = true).
Proof.
  rewrite SignerProps.signBalanceSnapshot_unfold.
  assert (forall r0 this1, initialize env this = (r0, this1) ->
            nearContractId this1 = nearContractId this /\
            nearAccountId this1 = nearAccountId this /\
            agentAddress this1 = agentAddress this /\
            (isInitialized this = true -> this1 = this) /\
            (r0 = Ok tt -> isInitialized this1 = true)) as Hinit.
  { intros r0 this1. unfold initialize.
    destruct (isInitialized this) eqn:Hi.
    - intros [= <- <-]. repeat split; auto.
    - destruct (KeyPair_fromString (NEAR_PRIVATE_KEY env));
        intros [= <- <-]; cbn; repeat split; auto; discriminate. }
  destruct (initialize env this) as [[[]|e] this1] eqn:Hi.
  - destruct (Hinit _ _ eq_refl) as (H1 & H2 & H3 & H4 & H5).
    destruct (call_contract env w this1 snapshot vaultAddress chainId) as [[o|e] w1];
      intros [= <- <- <-]; repeat split; auto; discriminate.
  - destruct (Hinit _ _ eq_refl) as (H1 & H2 & H3 & H4 & _).
    intros [= <- <- <-]. repeat split; auto; discriminate.
Qed.

(** X5.  Which failure gives which error, once the service is initialised:
    a failed contract call is rethrown as it is; an outcome with no status,
    no [SuccessValue] or an empty one gives "No SuccessValue in NEAR
    transaction result"; a return value that is not JSON gives the parser's
    error; JSON that is not an array gives "Expected signature to be an
    array of bytes". *)
Theorem signBalanceSnapshot_decode_errors
    env w (this : NearContractService) snapshot vaultAddress chainId this1 called w1 :
  initialize env this = (Ok tt, this1) ->
  call_contract env w this1 snapshot vaultAddress chainId = (called, w1) ->
  let result := signBalanceSnapshot env w this snapshot vaultAddress chainId in
  match called with
  | Err e => result = (Err e, this1, w1)
  | Ok outcome =>
      match status outcome ≫= SuccessValue with
      | None =>
          result = (Err (Error "No SuccessValue in NEAR transaction result"), this1, w1)
      | Some successValue =>
          if String.eqb successValue "" then
            result = (Err (Error "No SuccessValue in NEAR transaction result"), this1, w1)
          else
            match JSON_parse (base64_to_utf8 successValue) with
            | Err e => result = (Err e, this1, w1)
            | Ok (JArray _) => True
            | Ok _ =>
                result = (Err (Error "Expected signature to be an array of bytes"),
                          this1, w1)
            end
      end
  end.
Proof.
  intros Hi Hc result. unfold result.
  rewrite SignerProps.signBalanceSnapshot_unfold, Hi, Hc.
  destruct called as [outcome|e]; [|reflexivity].
  unfold decode_and_verify.
  destruct (status outcome ≫= SuccessValue) as [sv|]; [|reflexivity].
  destruct (String.eqb sv ""); [reflexivity|].
  destruct (JSON_parse (base64_to_utf8 sv)) as [j|e]; [|reflexivity].
  destruct j; first [exact I | reflexivity].
Qed.

(** X6.  The comparison of the recovered signer with the agent address
    ignores case: when the two are equal after lower-casing,
    [signBalanceSnapshot] returns the rebuilt signature and the agent
    address. *)
Theorem signBalanceSnapshot_accepts_matching_signer
    env w (this : NearContractService) snapshot vaultAddress chainId
    this1 outcome w1 successValue elements digest recovered :
  initialize env this = (Ok tt, this1) ->
  call_contract env w this1 snapshot vaultAddress chainId = (Ok outcome, w1) ->
  status outcome ≫= SuccessValue = Some successValue ->
  successValue <> "" ->
  JSON_parse (base64_to_utf8 successValue) = Ok (JArray elements) ->
  length elements = 65%nat ->
  TypedDataEncoder_hash (domain_of chainId vaultAddress) types snapshot = Ok digest ->
  recoverAddress digest (signature65_of (Buffer_from elements)) = Ok recovered ->
  toLowerCase recovered = toLowerCase (agentAddress this) ->
  signBalanceSnapshot env w this snapshot vaultAddress chainId
  = (Ok {| response_signature := signature65_of (Buffer_from elements);
           response_agentAddress := agentAddress this |}, this1, w1).
Proof.
  intros Hi Hc Hs Hne Hp Hlen Hh Hr Heq.
  rewrite SignerProps.signBalanceSnapshot_unfold, Hi, Hc.
  pose proof (SignerProps.initialize_agentAddress _ _ _ _ Hi) as Ha.
  unfold decode_and_verify. rewrite SignerProps.snapshot_eta, Hs.
  apply String.eqb_neq in Hne. rewrite Hne, Hp. cbn [mbind result_bind].
  rewrite SignerProps.Buffer_from_length, Hlen.
  change (Z.of_nat 65 =? 65) with true. cbn [negb].
  rewrite Hh. cbn [mbind result_bind]. rewrite Hr. cbn [mbind result_bind].
  rewrite Ha, Heq, String.eqb_refl. reflexivity.
Qed.

(** X7.  For a snapshot whose balance, nonce and deadline are the decimal
    strings of integers below 2^53, the argument object sent to the contract
    holds exactly those integers, the chain id and the vault address it was
    given, the two strings unchanged, and a callback gas of 50. *)
Theorem build_args_exact_for_safe_integers
    (b n d : Z) (a r vaultAddress : string) (chainId : Z) :
  0 <= b < 2 ^ 53 -> 0 <= n < 2 ^ 53 -> 0 <= d < 2 ^ 53 ->
  build_args {| balance := toString b; nonce := toString n;
                deadline := toString d; assets := a;
                receiver := r |} vaultAddress chainId
  = {| args := {| args_balance := Num b;
                  args_chain_id := Num chainId;
                  args_verifying_contract := vaultAddress;
                  args_nonce := Num n;
                  args_deadline := Num d;
                  args_assets := a;
                  args_receiver := r |};
       callback_gas_tgas := Num 50 |}.
Proof.
  intros Hb Hn Hd. unfold build_args. cbn [balance nonce deadline assets receiver].
  rewrite !JSProps.parseInt_toString by assumption. reflexivity.
Qed.

Lemma hex_bytes_length bs : String.length (hex_bytes bs) = (2 * length bs)%nat.
Proof.
  induction bs as [|b bs IH]; [reflexivity|].
  cbn [hex_bytes]. unfold hex_byte.
  change (String.length (String (hex_digit (b / 16))
                           (String (hex_digit (b mod 16)) (hex_bytes bs)))
          = (2 * length (b :: bs))%nat).
  cbn [String.length length]. rewrite IH. lia.
Qed.

(** X8.  Every signature that [signBalanceSnapshot] returns is "0x"
    followed by 130 hex digits, and reads back as 65 bytes. *)
Theorem returned_signature_is_65_bytes
    env w (this : NearContractService) snapshot vaultAddress chainId response this' w' :
  signBalanceSnapshot env w this snapshot vaultAddress chainId = (Ok response, this', w') ->
  String.length (response_signature response) = 132%nat /\
  exists bytes,
    getBytes (response_signature response) = Some bytes /\
    length bytes = 65%nat /\ Forall is_byte bytes.
Proof.
  rewrite SignerProps.signBalanceSnapshot_unfold.
  destruct (initialize env this) as [[u|e] this1]; [|discriminate].
  destruct (call_contract env w this1 snapshot vaultAddress chainId) as [[o|e] w1];
    [|discriminate].
  intros [= Hd _ _].
  apply SignerProps.decode_and_verify_Ok in Hd
    as (sv & elements & digest & recovered & _ & _ & Hlen & _ & _ & _ & ->).
  cbn [response_signature]. unfold signature65_of.
  set (bytes := Buffer_from elements).
  assert (length bytes = 65%nat) as Hb
    by (unfold bytes; rewrite SignerProps.Buffer_from_length; exact Hlen).
  set (sig := (firstn 32 bytes ++ firstn 32 (skipn 32 bytes)
               ++ [toUint8 (nth 64 bytes 0 + 27)])%list).
  assert (length sig = 65%nat) as Hsig.
  { unfold sig. rewrite !length_app, !length_take, length_drop. cbn [length]. lia. }
  split.
  - unfold hexlify.
    change (String.length (String "0" (String "x" (hex_bytes sig))) = 132%nat).
    cbn [String.length]. rewrite hex_bytes_length, Hsig. reflexivity.
  - exists sig. split; [|split; [exact Hsig|]].
    + apply SignerProps.getBytes_hexlify.
      apply (SignerProps.signature65_bytes bytes), SignerProps.Buffer_from_bytes.
    + apply (SignerProps.signature65_bytes bytes), SignerProps.Buffer_from_bytes.
Qed.

End Signer.

(** *** The statements at concrete collaborators *)

Import Fixtures.

Lemma getNearContract_is_a_singleton_witness :
  getNearContract (X := good_signer) keyless_env (Some (sample_service good_signer))
  = (Ok (sample_service good_signer), Some (sample_service good_signer)).
Proof.
  exact (proj2 (proj1 (getNearContract_is_a_singleton (X := good_signer)
                         sample_env None (Ok (sample_service good_signer))
                         (Some (sample_service good_signer)) eq_refl)
                      (sample_service good_signer) eq_refl) keyless_env).
Defined.

Lemma initialize_first_call_witness :
  isInitialized (snd (initialize (X := good_signer) sample_env (sample_service good_signer)))
  = true.
Proof.
  destruct (initialize_first_call (X := good_signer) sample_env (sample_service good_signer)
              (Ok tt)
              (initialized_service good_signer "ed25519:key") eq_refl eq_refl)
    as (_ & _ & _ & keyPair & _ & _ & H & _).
  exact H.
Defined.

Lemma signBalanceSnapshot_bad_key_makes_no_call_witness :
  exists this',
    signBalanceSnapshot (X := good_signer) keyless_env 0%nat (sample_service good_signer)
      sample_snapshot sample_vault 421614
    = (Err (Error "invalid key"), this', 0%nat) /\
    isInitialized this' = false.
Proof.
  exact (signBalanceSnapshot_bad_key_makes_no_call (X := good_signer) keyless_env 0%nat
           (sample_service good_signer) sample_snapshot sample_vault 421614
           (Error "invalid key") eq_refl eq_refl).
Defined.

Lemma signBalanceSnapshot_object_after_witness :
  match signBalanceSnapshot (X := good_signer) sample_env 0%nat (sample_service good_signer)
          sample_snapshot sample_vault 421614 with
  | (Ok _, this', _) =>
      isInitialized this' = true /\ nearAccountId this' = "oracle.testnet"
  | (Err _, _, _) => False
  end.
Proof.
  destruct (signBalanceSnapshot (X := good_signer) sample_env 0%nat
              (sample_service good_signer) sample_snapshot sample_vault 421614)
    as [[r this'] w'] eqn:E.
  destruct (signBalanceSnapshot_object_after (X := good_signer) _ _ _ _ _ _ _ _ _ E)
    as (_ & Ha & _ & _ & Hi).
  destruct r as [response|e].
  - split; [apply (Hi response eq_refl) | exact Ha].
  - vm_compute in E. discriminate E.
Defined.

Lemma signBalanceSnapshot_decode_errors_witness :
  let X := toy_external_with (Ok {| status := None |}) (Ok JNull) "" in
  fst (fst (signBalanceSnapshot (X := X) sample_env 0%nat (sample_service X)
              sample_snapshot sample_vault 421614))
  = Err (Error "No SuccessValue in NEAR transaction result").
Proof.
  intros X.
  pose proof (signBalanceSnapshot_decode_errors (X := X) sample_env 0%nat (sample_service X)
                sample_snapshot sample_vault 421614
                (initialized_service X "ed25519:key")
                (Ok {| status := None |}) 1%nat eq_refl eq_refl) as H.
  cbv zeta beta iota in H. cbn [status mbind option_bind] in H.
  rewrite H. reflexivity.
Defined.

Lemma signBalanceSnapshot_accepts_matching_signer_witness :
  fst (fst (signBalanceSnapshot (X := good_signer) sample_env 0%nat
              (sample_service good_signer) sample_snapshot sample_vault 421614))
  = Ok {| response_signature :=
            "0x111111111111111111111111111111111111111111111111111111111111111122222222222222222222222222222222222222222222222222222222222222221c";
          response_agentAddress := "0x20f2747bbc52453ac0774b5b2fe0e28dc6637f30" |}.
Proof.
  rewrite (signBalanceSnapshot_accepts_matching_signer (X := good_signer)
             sample_env 0%nat (sample_service good_signer) sample_snapshot sample_vault 421614
             (initialized_service good_signer "ed25519:key")
             {| status := Some {| SuccessValue := Some "W10=" |} |} 1%nat
             "W10=" (sample_response 1) "0xd1"
             "0x20F2747BBC52453AC0774B5B2FE0E28DC6637F30"
             eq_refl eq_refl eq_refl).
  - vm_compute. reflexivity.
  - vm_compute. discriminate.
  - reflexivity.
  - reflexivity.
  - reflexivity.
  - reflexivity.
  - vm_compute. reflexivity.
Defined.

Lemma build_args_exact_for_safe_integers_witness :
  build_args sample_snapshot sample_vault 421614
  = {| args := {| args_balance := Num 1000000;
                  args_chain_id := Num 421614;
                  args_verifying_contract := sample_vault;
                  args_nonce := Num 0;
                  args_deadline := Num 1762041600;
                  args_assets := "500000";
                  args_receiver := "0x742d35Cc6634C0532925a3b844Bc454e7595f5dE" |};
       callback_gas_tgas := Num 50 |}.
Proof.
  refine (build_args_exact_for_safe_integers 1000000 0 1762041600 "500000"
            "0x742d35Cc6634C0532925a3b844Bc454e7595f5dE" sample_vault 421614 _ _ _);
    (split; [lia | reflexivity]).
Defined.

Lemma returned_signature_is_65_bytes_witness :
  match fst (fst (signBalanceSnapshot (X := good_signer) sample_env 0%nat
                    (sample_service good_signer) sample_snapshot sample_vault 421614)) with
  | Ok response => String.length (response_signature response) = 132%nat
  | Err _ => False
  end.
Proof.
  destruct (signBalanceSnapshot (X := good_signer) sample_env 0%nat
              (sample_service good_signer) sample_snapshot sample_vault 421614)
    as [[r this'] w'] eqn:E.
  cbn [fst]. destruct r as [response|e].
  - exact (proj1 (returned_signature_is_65_bytes (X := good_signer) _ _ _ _ _ _ _ _ _ E)).
  - vm_compute in E. discriminate E.
Defined.

End SignerMore.

(** ** The balance fetcher: the cache, the errors and the configuration *)

Module FetcherMore.

Import Decimal.
Import BalanceFetcher Invariants.

(** *** The cache key *)

Lemma app_cons c s t : String c s +:+ t = String c (s +:+ t).
Proof. reflexivity. Qed.

Lemma app_nil t : "" +:+ t = t.
Proof. reflexivity. Qed.

Lemma uint_key_inj (u1 u2 : uint) (a1 a2 : string) :
  NilEmpty.string_of_uint u1 +:+ "-" +:+ a1 = NilEmpty.string_of_uint u2 +:+ "-" +:+ a2 ->
  u1 = u2 /\ a1 = a2.
Proof.
  revert u2. induction u1; intros u2; destruct u2;
    cbn [NilEmpty.string_of_uint]; rewrite ?app_cons, ?app_nil; intros H;
    first [ discriminate H
          | injection H as ->; split; reflexivity
          | injection H as H; apply IHu1 in H as [-> ->]; split; reflexivity ].
Qed.

Lemma digits_not_dash u s t :
  u <> Nil -> NilEmpty.string_of_uint u +:+ s <> String "-" t.
Proof.
  intros Hu. destruct u; [contradiction|..];
    cbn [NilEmpty.string_of_uint]; rewrite app_cons; discriminate.
Qed.

Lemma toString_nonneg z :
  0 <= z ->
  exists u, toString z = NilEmpty.string_of_uint u /\ u <> Nil /\ Z.of_uint u = z.
Proof.
  intros Hz. destruct z as [|p|p]; [| |lia].
  - exists (D0 Nil). repeat split. discriminate.
  - exists (Pos.to_uint p). split; [apply JSProps.toString_pos|].
    split; [apply DecimalPos.Unsigned.to_uint_nonnil | apply JSProps.of_uint_to_uint].
Qed.

(** Two (chain id, asset) pairs with the same cache key are the same
    pair. *)
Lemma cache_key_inj (z1 z2 : Z) (a1 a2 : string) :
  toString z1 +:+ "-" +:+ a1 = toString z2 +:+ "-" +:+ a2 -> z1 = z2 /\ a1 = a2.
Proof.
  destruct (Z.le_gt_cases 0 z1) as [H1|H1], (Z.le_gt_cases 0 z2) as [H2|H2].
  - destruct (toString_nonneg z1 H1) as (u1 & -> & _ & <-).
    destruct (toString_nonneg z2 H2) as (u2 & -> & _ & <-).
    intros H. apply uint_key_inj in H as [-> ->]. split; reflexivity.
  - destruct (toString_nonneg z1 H1) as (u1 & -> & Hu & _).
    destruct z2 as [|p|p]; try lia. rewrite JSProps.toString_neg, app_cons.
    intros H. apply digits_not_dash in H; [contradiction | exact Hu].
  - destruct (toString_nonneg z2 H2) as (u2 & -> & Hu & _).
    destruct z1 as [|p|p]; try lia. rewrite JSProps.toString_neg, app_cons.
    intros H. symmetry in H. apply digits_not_dash in H; [contradiction | exact Hu].
  - destruct z1 as [|p1|p1], z2 as [|p2|p2]; try lia.
    rewrite !JSProps.toString_neg, !app_cons. intros [= H].
    apply uint_key_inj in H as [H ->].
    apply DecimalPos.Unsigned.to_uint_inj in H as ->. split; reflexivity.
Qed.

Section Fetcher.
Context `{R : Rpc}.

(** X9.  Cache entries of different (chain id, asset) pairs never collide:
    resolving the token address of one pair leaves the entry of every other
    pair as it was.  (The asset is compared as written: two spellings of one
    address that differ in case are different pairs.) *)
Theorem getATokenAddress_keeps_other_entries
    (chainConfig other : ChainConfig) (usdcAddress asset : string) st r st' :
  getATokenAddress chainConfig usdcAddress st = (r, st') ->
  (chainId other, asset) <> (chainId chainConfig, usdcAddress) ->
  aTokenAddressCache st' !! cacheKey other asset
  = aTokenAddressCache st !! cacheKey other asset.
Proof.
  intros Hg Hne.
  assert (cacheKey chainConfig usdcAddress <> cacheKey other asset) as Hkey.
  { unfold cacheKey. intros H. apply cache_key_inj in H as [H1 H2]. congruence. }
  destruct (aTokenAddressCache st !! cacheKey chainConfig usdcAddress) as [c|] eqn:Hc.
  - rewrite (FetcherProps.getATokenAddress_cached _ _ _ _ Hc) in Hg.
    injection Hg as _ <-. reflexivity.
  - destruct (getReserveData (world st) (rpcUrl chainConfig)
                (aavePoolAddress chainConfig) usdcAddress) as [r0 w1] eqn:Hr.
    rewrite (FetcherProps.getATokenAddress_miss _ _ _ _ _ Hc Hr) in Hg.
    fold (cacheKey chainConfig usdcAddress) in Hg.
    destruct r0 as [a|e];
      [|destruct (KNOWN_ATOKEN_ADDRESSES !! chainId chainConfig ≫= _)];
      injection Hg as _ <-; cbn [aTokenAddressCache with_world];
      try reflexivity; apply lookup_insert_ne, Hkey.
Qed.

(** *** The cache only grows *)

Lemma grows_ret {A} (a : A) : cache_grows (async_ret a).
Proof. intros st r st' [= _ <-]. reflexivity. Qed.

Lemma grows_throw {A} e : cache_grows (throw (A := A) e).
Proof. intros st r st' [= _ <-]. reflexivity. Qed.

Lemma grows_now : cache_grows now_seconds.
Proof. intros st r st' [= _ <-]. reflexivity. Qed.

Lemma grows_lift {A} (r : result A) : cache_grows (lift r).
Proof. intros st r0 st' [= _ <-]. reflexivity. Qed.

Lemma grows_call {A} (f : World -> result A * World) : cache_grows (call f).
Proof.
  intros st r st'. unfold call. destruct (f (world st)) as [r0 w].
  intros [= _ <-]. reflexivity.
Qed.

Lemma grows_bind {A B} (m : Async A) (k : A -> Async B) :
  cache_grows m -> (forall a, cache_grows (k a)) -> cache_grows (async_bind m k).
Proof.
  intros Hm Hk st r st'. unfold async_bind.
  destruct (m st) as [[a|e] st1] eqn:E.
  - intros H. etransitivity; [eapply Hm, E | eapply Hk, H].
  - intros [= _ <-]. eapply Hm, E.
Qed.

Lemma grows_try_catch {A} (m : Async A) (h : jserror -> Async A) :
  cache_grows m -> (forall e, cache_grows (h e)) -> cache_grows (try_catch m h).
Proof.
  intros Hm Hh st r st'. unfold try_catch.
  destruct (m st) as [[a|e] st1] eqn:E.
  - intros [= _ <-]. eapply Hm, E.
  - intros H. etransitivity; [eapply Hm, E | eapply Hh, H].
Qed.

Lemma grows_Promise_all {A} (ms : list (Async A)) :
  Forall cache_grows ms -> cache_grows (Promise_all ms).
Proof.
  intros Hms st r st'. unfold Promise_all.
  destruct (run_all ms st) as [rs st2] eqn:E. intros [= _ <-].
  revert st rs st2 E. induction Hms as [|m ms Hm _ IH]; intros st rs st2; cbn [run_all].
  - intros [= _ <-]. reflexivity.
  - destruct (m st) as [r0 st1] eqn:E1.
    destruct (run_all ms st1) as [rs1 st3] eqn:E2. intros [= _ <-].
    etransitivity; [eapply Hm, E1 | eapply IH, E2].
Qed.

Lemma grows_getATokenAddress chainConfig usdcAddress :
  cache_grows (getATokenAddress chainConfig usdcAddress).
Proof. intros st r st'. apply FetcherProps.getATokenAddress_cache_grows. Qed.

Lemma grows_balance_handler balanceError :
  cache_grows (if decide (ecode balanceError = Some "BAD_DATA")
               then async_ret 0 else throw balanceError).
Proof. case_decide; [apply grows_ret | apply grows_throw]. Qed.

Ltac grows :=
  repeat first
    [ apply grows_try_catch | apply grows_bind | apply grows_ret | apply grows_throw
    | apply grows_now | apply grows_call | apply grows_lift
    | apply grows_getATokenAddress
    | apply grows_balance_handler | intro ].

Lemma grows_fetchATokenBalance chainConfig holder :
  cache_grows (fetchATokenBalance chainConfig holder).
Proof. unfold fetchATokenBalance. grows. Qed.

Lemma grows_fetchVaultUSDCBalance chainConfig vault :
  cache_grows (fetchVaultUSDCBalance chainConfig vault).
Proof. unfold fetchVaultUSDCBalance. grows. Qed.

Lemma grows_fetchVaultATokenBalance chainConfig vault :
  cache_grows (fetchVaultATokenBalance chainConfig vault).
Proof. unfold fetchVaultATokenBalance. grows. Qed.

Lemma grows_fetchVaultBalance chainConfig vault :
  cache_grows (fetchVaultBalance chainConfig vault).
Proof.
  unfold fetchVaultBalance.
  apply grows_try_catch; [|intro; apply grows_throw].
  apply grows_bind; [apply grows_call|]. intros blockNumber.
  apply grows_bind.
  - apply grows_try_catch; [grows|]. intros error.
    apply grows_bind; [|grows].
    apply grows_Promise_all. repeat constructor.
    + apply grows_fetchVaultUSDCBalance.
    + apply grows_fetchVaultATokenBalance.
  - intros [total|fallback]; grows.
Qed.

Lemma grows_fetchChainBalances supported agentAddress :
  cache_grows (fetchChainBalances supported agentAddress).
Proof.
  unfold fetchChainBalances, chain_promises. apply grows_Promise_all.
  apply Forall_map, Forall_forall. intros chain _.
  apply grows_try_catch; [apply grows_fetchATokenBalance | intro; apply grows_throw].
Qed.

Lemma grows_fetchVaultBalances supported :
  cache_grows (fetchVaultBalances supported).
Proof.
  unfold fetchVaultBalances, vault_promises. apply grows_Promise_all.
  apply Forall_map, Forall_forall. intros [id v] _.
  destruct (getChainById supported id); [|apply grows_throw].
  apply grows_try_catch; [apply grows_fetchVaultBalance | intro; apply grows_throw].
Qed.

(** X10.  No function of the fetcher ever removes or overwrites an entry
    of the address cache: whatever the chains answer, and whether the call
    fulfils or rejects, every entry present before a call of
    [fetchATokenBalance], [fetchVaultATokenBalance], [fetchVaultBalance],
    [fetchChainBalances] or [fetchVaultBalances] is present, with the same
    address, after it; [fetchVaultUSDCBalance] leaves the cache exactly as
    it was. *)
Theorem fetchers_keep_the_cache
    (supported : list (string * ChainConfig)) (chainConfig : ChainConfig)
    (holder : string) (key address : string) (st : State) :
  aTokenAddressCache st !! key = Some address ->
  aTokenAddressCache (snd (fetchATokenBalance chainConfig holder st)) !! key = Some address /\
  aTokenAddressCache (snd (fetchVaultATokenBalance chainConfig holder st)) !! key
    = Some address /\
  aTokenAddressCache (snd (fetchVaultBalance chainConfig holder st)) !! key = Some address /\
  aTokenAddressCache (snd (fetchChainBalances supported holder st)) !! key = Some address /\
  aTokenAddressCache (snd (fetchVaultBalances supported st)) !! key = Some address /\
  aTokenAddressCache (snd (fetchVaultUSDCBalance chainConfig holder st))
    = aTokenAddressCache st.
Proof.
  intros Hk.
  assert (forall A (m : Async A), cache_grows m ->
            aTokenAddressCache (snd (m st)) !! key = Some address) as H.
  { intros A m Hm. destruct (m st) as [r st'] eqn:E. cbn [snd].
    eapply lookup_weaken; [exact Hk | eapply Hm, E]. }
  repeat split.
  - apply H, grows_fetchATokenBalance.
  - apply H, grows_fetchVaultATokenBalance.
  - apply H, grows_fetchVaultBalance.
  - apply H, grows_fetchChainBalances.
  - apply H, grows_fetchVaultBalances.
  - rewrite FetcherProps.fetchVaultUSDCBalance_eq.
    destruct (balanceOf _ _ _ _) as [r w]. reflexivity.
Qed.

(** *** Errors *)


(** *** The configuration *)

(** X12.  For every environment, the token address of a chain of
    [SUPPORTED_CHAINS] always resolves: whether the cache has it, the
    lending pool answers, or the pool call fails and the static table is
    used, [getATokenAddress] fulfils. *)
Theorem configured_chains_always_resolve env (chain : ChainConfig) st :
  chain ∈ getAllChains (SUPPORTED_CHAINS env) ->
  exists aTokenAddress st',
    getATokenAddress chain (usdcAddress chain) st = (Ok aTokenAddress, st').
Proof.
  intros Hin.
  destruct (aTokenAddressCache st !! (toString (chainId chain) +:+ "-" +:+ usdcAddress chain))
    as [c|] eqn:Hc.
  - exists c, st. apply FetcherProps.getATokenAddress_cached, Hc.
  - destruct (getReserveData (world st) (rpcUrl chain) (aavePoolAddress chain)
                (usdcAddress chain)) as [r w1] eqn:Hr.
    rewrite (FetcherProps.getATokenAddress_miss _ _ _ _ _ Hc Hr).
    destruct r as [a|e]; [eexists; eexists; reflexivity|].
    destruct (FetcherProps.SUPPORTED_CHAINS_known env chain Hin) as [a Ha].
    rewrite Ha. eexists. eexists. reflexivity.
Qed.

Lemma fetchATokenBalance_Ok_inv chainConfig holder st b st' :
  fetchATokenBalance chainConfig holder st = (Ok b, st') ->
  exists st1,
    getATokenAddress chainConfig (usdcAddress chainConfig) st
    = (Ok (cb_aTokenAddress b), st1) /\
    aTokenAddressCache st' = aTokenAddressCache st1.
Proof.
  rewrite FetcherProps.fetchATokenBalance_eq. cbv zeta.
  destruct (getATokenAddress _ _ st) as [[a|e] st1]; [|discriminate].
  destruct (balanceOf _ _ _ _) as [r w2].
  destruct (balance_or_zero r) as [bal|e]; [|discriminate].
  destruct (getBlockNumber _ _) as [[bn|e'] w3]; [|discriminate].
  intros [= <- <-]. exists st1. split; reflexivity.
Qed.

(** X13.  The token address of a chain is fixed by its first resolution:
    once [fetchATokenBalance] has returned a balance for a chain, every
    later balance it returns for that chain, for any holder and whatever the
    lending pool answers by then, reports the same token address. *)
Theorem fetchATokenBalance_address_is_stable
    (chainConfig : ChainConfig) (holder holder' : string) st b st1 st2 b' st3 :
  fetchATokenBalance chainConfig holder st = (Ok b, st1) ->
  aTokenAddressCache st1 ⊆ aTokenAddressCache st2 ->
  fetchATokenBalance chainConfig holder' st2 = (Ok b', st3) ->
  cb_aTokenAddress b' = cb_aTokenAddress b.
Proof.
  intros H1 Hsub H2.
  apply fetchATokenBalance_Ok_inv in H1 as (sta & Ha & Hc).
  apply FetcherProps.getATokenAddress_Ok_cached in Ha. rewrite <- Hc in Ha.
  apply fetchATokenBalance_Ok_inv in H2 as (stb & Hb & _).
  rewrite (FetcherProps.getATokenAddress_cached _ _ st2 (cb_aTokenAddress b)) in Hb.
  - injection Hb as <- _. reflexivity.
  - eapply lookup_weaken; eassumption.
Qed.

Lemma getAllVaults_elem supported id v :
  (id, v) ∈ getAllVaults supported ->
  exists chain, chain ∈ getAllChains supported /\
                chainId chain = id /\ vaultAddress chain = Some v /\ v <> "".
Proof.
  unfold getAllVaults, getAllChains. intros H.
  apply list_elem_of_omap in H as (chain & Hin & Hc).
  exists chain. split; [exact Hin|].
  destruct (vaultAddress chain) as [v0|]; [|discriminate].
  destruct (String.eqb v0 "") eqn:E; [discriminate|].
  injection Hc as <- <-. apply String.eqb_neq in E. repeat split. exact E.
Qed.

Lemma find_chainId_unique (chains : list ChainConfig) id chain found :
  NoDup (map chainId chains) ->
  chain ∈ chains -> chainId chain = id ->
  find (fun c => chainId c =? id) chains = Some found ->
  found = chain.
Proof.
  induction chains as [|c chains IH]; cbn [map find]; intros Hnd Hin Hid Hf.
  - discriminate.
  - apply NoDup_cons in Hnd as [Hnotin Hnd].
    destruct (Z.eqb_spec (chainId c) id) as [Hc|Hc].
    + injection Hf as <-. apply elem_of_cons in Hin as [->|Hin]; [reflexivity|].
      exfalso. apply Hnotin. rewrite Hc, <- Hid.
      apply list_elem_of_In, in_map, list_elem_of_In, Hin.
    + apply elem_of_cons in Hin as [->|Hin]; [contradiction|]. eauto.
Qed.

(** X14.  The chain of every vault that [getAllVaults] lists is found by
    [getChainById], so [fetchVaultBalances] never throws "Chain ... not
    found"; and when the configured chain ids are pairwise different the
    chain found is the one that holds the vault. *)
Theorem vault_chain_is_always_found (supported : list (string * ChainConfig)) id vault :
  (id, vault) ∈ getAllVaults supported ->
  exists chain,
    getChainById supported id = Some chain /\
    chainId chain = id /\
    (NoDup (map chainId (getAllChains supported)) -> vaultAddress chain = Some vault).
Proof.
  intros Hin. apply getAllVaults_elem in Hin as (chain & Hc & Hid & Hv & _).
  unfold getChainById. fold (getAllChains supported).
  destruct (find (fun c => chainId c =? id) (getAllChains supported)) as [found|] eqn:Hf.
  - exists found. split; [reflexivity|]. split.
    + apply find_some in Hf as [_ Hf]. apply Z.eqb_eq, Hf.
    + intros Hnd. rewrite (find_chainId_unique _ _ _ _ Hnd Hc Hid Hf). exact Hv.
  - exfalso. pose proof (find_none _ _ Hf chain (proj1 (list_elem_of_In _ _) Hc)) as Hn.
    cbv beta in Hn. apply Z.eqb_neq in Hn. contradiction.
Qed.

(** *** The aggregation *)

Lemma sum_BigInt_step_Err {A} (f : A -> string) (l : list A) e :
  fold_left (fun sum x => s ← sum; b ← BigInt (f x); Ok (s + b)) l (Err e) = Err e.
Proof. induction l as [|x l IH]; [reflexivity|]. cbn [fold_left]. exact IH. Qed.

Lemma sum_BigInt_inv {A} (f : A -> string) (l : list A) :
  match sum_BigInt f l with
  | Ok total =>
      exists values, Forall2 (fun x v => BigInt (f x) = Ok v) l values /\
                     total = Zsum values
  | Err e => exists x, x ∈ l /\ BigInt (f x) = Err e
  end.
Proof.
  unfold sum_BigInt.
  assert (forall acc,
            match fold_left (fun sum x => s ← sum; b ← BigInt (f x); Ok (s + b)) l (Ok acc) with
            | Ok total =>
                exists values, Forall2 (fun x v => BigInt (f x) = Ok v) l values /\
                               total = acc + Zsum values
            | Err e => exists x, x ∈ l /\ BigInt (f x) = Err e
            end) as H.
  { induction l as [|x l IH]; intros acc; cbn [fold_left].
    - exists []. split; [constructor | cbn; lia].
    - cbn [mbind result_bind]. destruct (BigInt (f x)) as [b|e] eqn:Hx.
      + cbn [mbind result_bind]. specialize (IH (acc + b)).
        destruct (fold_left _ l (Ok (acc + b))) as [total|e].
        * destruct IH as (values & Hall & ->). exists (b :: values).
          split; [constructor; assumption | cbn [Zsum foldr]; unfold Zsum; lia].
        * destruct IH as (y & Hy & Hey). exists y. split; [|exact Hey].
          apply elem_of_cons. right. exact Hy.
      + cbn [mbind result_bind]. rewrite sum_BigInt_step_Err.
        exists x. split; [apply elem_of_cons; left; reflexivity | exact Hx]. }
  specialize (H 0).
  destruct (fold_left _ l (Ok 0)) as [total|e]; [|exact H].
  destruct H as (values & Hall & ->). exists values. split; [exact Hall | lia].
Qed.

Lemma Forall2_parse_elem {A} (f : A -> string) (l : list A) values x :
  Forall2 (fun x v => BigInt (f x) = Ok v) l values -> x ∈ l ->
  is_err (BigInt (f x)) = false.
Proof.
  induction 1 as [|y v l values Hy _ IH]; intros Hin.
  - apply elem_of_nil in Hin. contradiction.
  - apply elem_of_cons in Hin as [->|Hin]; [rewrite Hy; reflexivity | auto].
Qed.

(** X15.  The totals of [aggregateBalances] are decided by the vault
    balances alone — the chain balances are passed through without being
    counted — and they are consistent: read back as integers, [totalValue]
    is the sum of [totalATokens] and [totalUSDC]; the two lists come back
    unchanged and the timestamp is the clock in whole seconds. *)
Theorem aggregateBalances_totals_from_vaults_only
    (now : Z) (chainBalances others : list ChainBalance)
    (vaultBalances : list VaultBalance) aggregated :
  aggregateBalances now chainBalances vaultBalances = Ok aggregated ->
  (exists invested idle,
     BigInt (totalATokens aggregated) = Ok invested /\
     BigInt (totalUSDC aggregated) = Ok idle /\
     BigInt (totalValue aggregated) = Ok (invested + idle)) /\
  BalanceFetcher.chainBalances aggregated = chainBalances /\
  BalanceFetcher.vaultBalances aggregated = vaultBalances /\
  timestamp aggregated = now / 1000 /\
  aggregateBalances now others vaultBalances
  = Ok {| totalATokens := totalATokens aggregated;
          totalUSDC := totalUSDC aggregated;
          totalValue := totalValue aggregated;
          BalanceFetcher.chainBalances := others;
          BalanceFetcher.vaultBalances := vaultBalances;
          timestamp := timestamp aggregated |}.
Proof.
  unfold aggregateBalances.
  destruct (sum_BigInt vb_aTokenBalance vaultBalances) as [a|e]; [|discriminate].
  cbn [mbind result_bind].
  destruct (sum_BigInt vb_usdcBalance vaultBalances) as [u|e]; [|discriminate].
  cbn [mbind result_bind].
  destruct (formatUnits a 6) as [t1|e]; [|discriminate]. cbn [mbind result_bind].
  destruct (formatUnits u 6) as [t2|e]; [|discriminate]. cbn [mbind result_bind].
  destruct (formatUnits (a + u) 6) as [t3|e]; [|discriminate]. cbn [mbind result_bind].
  intros [= <-]. cbn.
  split; [|repeat split].
  exists a, u. repeat split; apply JSProps.BigInt_toString.
Qed.

(** X16.  [aggregateBalances] throws exactly when some vault balance holds
    a string that [BigInt] does not accept (in its aToken or its USDC
    field), or — all strings being integers — one of the three totals lies
    outside [-2^511, 2^511), where [formatUnits] throws; with no vault at
    all it returns zero totals. *)
Theorem aggregateBalances_rejects_malformed_balances
    (now : Z) (chainBalances : list ChainBalance) (vaultBalances : list VaultBalance) :
  ((exists e, aggregateBalances now chainBalances vaultBalances = Err e) <->
   (exists vault, vault ∈ vaultBalances /\
                  (is_err (BigInt (vb_aTokenBalance vault)) = true \/
                   is_err (BigInt (vb_usdcBalance vault)) = true)) \/
   (exists invested idle,
      Forall2 (fun vault v => BigInt (vb_aTokenBalance vault) = Ok v)
              vaultBalances invested /\
      Forall2 (fun vault v => BigInt (vb_usdcBalance vault) = Ok v) vaultBalances idle /\
      ~ (fits_512 (Zsum invested) /\ fits_512 (Zsum idle) /\
         fits_512 (Zsum invested + Zsum idle)))) /\
  aggregateBalances now chainBalances []
  = Ok {| totalATokens := "0"; totalUSDC := "0"; totalValue := "0";
          BalanceFetcher.chainBalances := chainBalances;
          BalanceFetcher.vaultBalances := [];
          timestamp := now / 1000 |}.
Proof.
  split.
  2: { apply (FetcherProps.aggregateBalances_sums now chainBalances [] 0 0);
         [reflexivity | reflexivity |].
       assert (0 < 2 ^ 511) by (apply Z.pow_pos_nonneg; lia).
       unfold fits_512. cbn [Z.add]. lia. }
  pose proof (sum_BigInt_inv vb_aTokenBalance vaultBalances) as Ha.
  pose proof (sum_BigInt_inv vb_usdcBalance vaultBalances) as Hu.
  destruct (sum_BigInt vb_aTokenBalance vaultBalances) as [a|ea] eqn:Ea.
  - destruct (sum_BigInt vb_usdcBalance vaultBalances) as [u|eu] eqn:Eu.
    + destruct Ha as (va & Hva & ->), Hu as (vu & Hvu & ->).
      destruct (FetcherProps.aggregateBalances_sums now chainBalances vaultBalances
                  _ _ Ea Eu) as [Hfit Hout].
      split.
      * intros [e He]. right. exists va, vu. split; [exact Hva|]. split; [exact Hvu|].
        intros Hf. rewrite (Hfit Hf) in He. discriminate.
      * intros [(vault & Hin & [Hbad|Hbad]) | (va' & vu' & Hva' & Hvu' & Hf)].
        -- rewrite (Forall2_parse_elem _ _ _ _ Hva Hin) in Hbad. discriminate.
        -- rewrite (Forall2_parse_elem _ _ _ _ Hvu Hin) in Hbad. discriminate.
        -- rewrite (FetcherProps.sum_BigInt_exact _ _ _ Hva') in Ea.
           rewrite (FetcherProps.sum_BigInt_exact _ _ _ Hvu') in Eu.
           injection Ea as Ea. injection Eu as Eu. rewrite Ea, Eu in Hf.
           destruct (Hout Hf) as [message ->]. eexists. reflexivity.
    + unfold aggregateBalances. rewrite Ea, Eu. cbn [mbind result_bind].
      split; [|intros _; eexists; reflexivity].
      intros _. left. destruct Hu as (vault & Hin & Hv). exists vault.
      split; [exact Hin|]. right. rewrite Hv. reflexivity.
  - unfold aggregateBalances. rewrite Ea. cbn [mbind result_bind].
    split; [|intros _; eexists; reflexivity].
    intros _. left. destruct Ha as (vault & Hin & Hv). exists vault.
    split; [exact Hin|]. left. rewrite Hv. reflexivity.
Qed.

(** *** Fetched balances *)

Lemma Forall_parse_lists (l : list VaultBalance) :
  Forall (fun b => exists invested idle,
            BigInt (vb_aTokenBalance b) = Ok invested /\
            BigInt (vb_usdcBalance b) = Ok idle /\
            0 <= invested < 2 ^ 256 /\ 0 <= idle < 2 ^ 256) l ->
  exists invested idle,
    Forall2 (fun b v => BigInt (vb_aTokenBalance b) = Ok v) l invested /\
    Forall2 (fun b v => BigInt (vb_usdcBalance b) = Ok v) l idle /\
    Forall (fun v => 0 <= v < 2 ^ 256) invested /\
    Forall (fun v => 0 <= v < 2 ^ 256) idle.
Proof.
  induction 1 as [|b l (a & u & Ha & Hu & Hra & Hru) _ (va & vu & Hva & Hvu & Hrva & Hrvu)].
  - exists [], []. repeat split; constructor.
  - exists (a :: va), (u :: vu). repeat split; constructor; assumption.
Qed.

Lemma fetchVaultBalances_parse supported st balances st' :
  fetchVaultBalances supported st = (Ok balances, st') ->
  length balances = length (getAllVaults supported) /\
  Forall (fun b => exists invested idle,
            BigInt (vb_aTokenBalance b) = Ok invested /\
            BigInt (vb_usdcBalance b) = Ok idle /\
            0 <= invested < 2 ^ 256 /\ 0 <= idle < 2 ^ 256) balances.
Proof.
  intros H.
  assert (fst (run_all (vault_promises supported) st) = map Ok balances) as E.
  { apply FetcherProps.all_fulfilled_Ok. rewrite <- FetcherProps.Promise_all_fst.
    unfold fetchVaultBalances in H. rewrite H. reflexivity. }
  unfold vault_promises in E.
  apply (FetcherProps.run_all_Forall2 _
           (fun _ b => exists invested idle,
              BigInt (vb_aTokenBalance b) = Ok invested /\
              BigInt (vb_usdcBalance b) = Ok idle /\
              0 <= invested < 2 ^ 256 /\ 0 <= idle < 2 ^ 256)) in E.
  - split; [symmetry; eapply Forall2_length, E|].
    clear -E. induction E; constructor; assumption.
  - intros [id v] st0 b st0' Hb.
    destruct (getChainById supported id) as [chain|]; [|discriminate].
    rewrite FetcherProps.try_catch_rethrow in Hb.
    eapply FetcherProps.fetchVaultBalance_balances_parse, Hb.
Qed.

(** The sum of [n] unsigned 256-bit integers. *)
Lemma Zsum_uint256 (values : list Z) :
  Forall (fun v => 0 <= v < 2 ^ 256) values ->
  0 <= Zsum values <= Z.of_nat (length values) * (2 ^ 256 - 1).
Proof.
  induction 1 as [|v values Hv _ IH]; cbn [Zsum foldr length].
  - lia.
  - fold (Zsum values). lia.
Qed.

(** The totals of at most 2^254 vaults, each holding two unsigned 256-bit
    balances, are within the range of [formatUnits]. *)
Lemma totals_fit (n : Z) (invested idle : Z) :
  0 <= n <= 2 ^ 254 ->
  0 <= invested <= n * (2 ^ 256 - 1) ->
  0 <= idle <= n * (2 ^ 256 - 1) ->
  fits_512 invested /\ fits_512 idle /\ fits_512 (invested + idle).
Proof.
  unfold fits_512.
  replace (2 ^ 256) with (4 * 2 ^ 254) by reflexivity.
  replace (2 ^ 511) with (8 * 2 ^ 254 * 2 ^ 254) by reflexivity.
  assert (0 < 2 ^ 254) as Hpos by (apply Z.pow_pos_nonneg; lia).
  revert Hpos. generalize (2 ^ 254). intros a Hpos Hn Ha Hu.
  assert (n * (4 * a - 1) <= a * (4 * a - 1)) by (apply Z.mul_le_mono_nonneg_r; lia).
  nia.
Qed.

Lemma fetched_vault_balances_parse_sum
    (supported : list (string * ChainConfig)) st vaultBalances st'
    (now : Z) (chainBalances : list ChainBalance) :
  Z.of_nat (length (getAllVaults supported)) <= 2 ^ 254 ->
  fetchVaultBalances supported st = (Ok vaultBalances, st') ->
  exists aggregated, aggregateBalances now chainBalances vaultBalances = Ok aggregated.
Proof.
  intros Hn H. apply fetchVaultBalances_parse in H as [Hlen H].
  apply Forall_parse_lists in H as (invested & idle & Hinv & Hidle & Hra & Hru).
  pose proof (Zsum_uint256 _ Hra) as Ba. pose proof (Zsum_uint256 _ Hru) as Bu.
  rewrite <- (Forall2_length _ _ _ Hinv), Hlen in Ba.
  rewrite <- (Forall2_length _ _ _ Hidle), Hlen in Bu.
  eexists.
  apply (proj1 (FetcherProps.aggregateBalances_sums now chainBalances vaultBalances
                  _ _ (FetcherProps.sum_BigInt_exact _ _ _ Hinv)
                  (FetcherProps.sum_BigInt_exact _ _ _ Hidle))).
  apply (totals_fit (Z.of_nat (length (getAllVaults supported)))); [lia | exact Ba | exact Bu].
Qed.

(** X17.  The vault balances that [fetchVaultBalances] returns can always
    be aggregated: for a configuration of at most 2^254 vaults,
    [aggregateBalances] never throws on them, whatever chain balances it is
    given (every balance is an unsigned 256-bit integer, so no total
    reaches 2^511). *)
Theorem fetched_vault_balances_always_aggregate
    (supported : list (string * ChainConfig)) st vaultBalances st'
    (now : Z) (chainBalances : list ChainBalance) :
  Z.of_nat (length (getAllVaults supported)) <= 2 ^ 254 ->
  fetchVaultBalances supported st = (Ok vaultBalances, st') ->
  exists aggregated, aggregateBalances now chainBalances vaultBalances = Ok aggregated.
Proof. apply fetched_vault_balances_parse_sum. Qed.

End Fetcher.

(** *** The statements at concrete collaborators *)

Import Fixtures.

Lemma getATokenAddress_keeps_other_entries_witness :
  let st := @mkState healthy_rpc (<[cacheKey arbitrum_sepolia "0xA" := "0xB"]> ∅) 0%nat in
  aTokenAddressCache
    (snd (getATokenAddress (R := healthy_rpc) base_sepolia (usdcAddress base_sepolia) st))
  !! cacheKey arbitrum_sepolia "0xA" = Some "0xB".
Proof.
  intros st.
  destruct (getATokenAddress (R := healthy_rpc) base_sepolia (usdcAddress base_sepolia) st)
    as [r st'] eqn:E.
  cbn [snd].
  rewrite (getATokenAddress_keeps_other_entries (R := healthy_rpc) base_sepolia
             arbitrum_sepolia (usdcAddress base_sepolia) "0xA" st r st' E).
  - apply lookup_insert_eq.
  - intros H. inversion H.
Defined.

Lemma fetchers_keep_the_cache_witness :
  let st := @mkState healthy_rpc (<["1-0xA" := "0xB"]> ∅) 0%nat in
  aTokenAddressCache
    (snd (fetchChainBalances (R := healthy_rpc) (SUPPORTED_CHAINS no_env) "0xC" st))
  !! "1-0xA" = Some "0xB".
Proof.
  intros st.
  exact (proj1 (proj2 (proj2 (proj2
           (fetchers_keep_the_cache (R := healthy_rpc) (SUPPORTED_CHAINS no_env)
              base_sepolia "0xC" "1-0xA" "0xB" st (lookup_insert_eq _ _ _)))))).
Defined.


Lemma configured_chains_always_resolve_witness :
  let R := one_down_rpc "https://sepolia.base.org" in
  exists aTokenAddress st',
    getATokenAddress (R := R) base_sepolia (usdcAddress base_sepolia) (fresh R 0%nat)
    = (Ok aTokenAddress, st').
Proof.
  intros R.
  refine (configured_chains_always_resolve (R := R) no_env base_sepolia (fresh R 0%nat) _).
  apply list_elem_of_lookup. exists 1%nat. reflexivity.
Defined.

Lemma fetchATokenBalance_address_is_stable_witness :
  let R := healthy_rpc in
  let st1 := snd (fetchATokenBalance (R := R) base_sepolia "0xA" (fresh R 0%nat)) in
  match fst (fetchATokenBalance (R := R) base_sepolia "0xB" st1) with
  | Ok b' => cb_aTokenAddress b' = "0x4e65fE4DbA92790696d040ac24Aa414708F5c0AB"
  | Err _ => False
  end.
Proof.
  intros R st1.
  pose (b := {| cb_chainId := 84532; cb_chainName := "Base Sepolia";
                cb_aTokenBalance := "1500000";
                cb_aTokenAddress := "0x4e65fE4DbA92790696d040ac24Aa414708F5c0AB";
                cb_blockNumber := 42; cb_timestamp := 1762041600 |}).
  assert (E1 : fetchATokenBalance (R := R) base_sepolia "0xA" (fresh R 0%nat) = (Ok b, st1))
    by reflexivity.
  destruct (fetchATokenBalance (R := R) base_sepolia "0xB" st1) as [r st3] eqn:E2.
  destruct r as [b'|e]; cbn [fst].
  - refine (fetchATokenBalance_address_is_stable (R := R) base_sepolia "0xA" "0xB"
              (fresh R 0%nat) b st1 st1 b' st3 E1 _ E2).
    reflexivity.
  - apply (f_equal fst) in E2. vm_compute in E2. discriminate E2.
Defined.

Lemma vault_chain_is_always_found_witness :
  exists chain,
    getChainById (SUPPORTED_CHAINS no_env) 84532 = Some chain /\
    chainId chain = 84532 /\
    (NoDup (map chainId (getAllChains (SUPPORTED_CHAINS no_env))) ->
     vaultAddress chain = Some "0x773035EABdA16B5416B26E12156483C6B6F56451").
Proof.
  refine (vault_chain_is_always_found (SUPPORTED_CHAINS no_env) 84532
            "0x773035EABdA16B5416B26E12156483C6B6F56451" _).
  apply list_elem_of_lookup. exists 0%nat. reflexivity.
Defined.

Lemma aggregateBalances_totals_from_vaults_only_witness :
  let vault (a u : string) :=
    {| vb_chainId := 84532; vb_chainName := "Base Sepolia";
       vb_vaultAddress := "0x773035EABdA16B5416B26E12156483C6B6F56451";
       vb_usdcBalance := u; vb_aTokenBalance := a;
       vb_blockNumber := 42; vb_timestamp := 1762041600 |} in
  let chain :=
    {| cb_chainId := 84532; cb_chainName := "Base Sepolia";
       cb_aTokenBalance := "999"; cb_aTokenAddress := "0xA";
       cb_blockNumber := 42; cb_timestamp := 1762041600 |} in
  aggregateBalances (R := healthy_rpc) 1762041600123 [chain]
    [vault "7" "3"; vault "5" "1"]
  = Ok {| totalATokens := "12"; totalUSDC := "4"; totalValue := "16";
          BalanceFetcher.chainBalances := [chain];
          BalanceFetcher.vaultBalances := [vault "7" "3"; vault "5" "1"];
          timestamp := 1762041600 |}.
Proof.
  intros vault chain.
  refine (proj2 (proj2 (proj2 (proj2
            (aggregateBalances_totals_from_vaults_only (R := healthy_rpc)
               1762041600123 [] [chain]
               [vault "7" "3"; vault "5" "1"]
               {| totalATokens := "12"; totalUSDC := "4"; totalValue := "16";
                  BalanceFetcher.chainBalances := [];
                  BalanceFetcher.vaultBalances := [vault "7" "3"; vault "5" "1"];
                  timestamp := 1762041600 |} _))))).
  vm_compute. reflexivity.
Defined.

Lemma aggregateBalances_rejects_malformed_balances_witness :
  let vault (a u : string) :=
    {| vb_chainId := 84532; vb_chainName := "Base Sepolia";
       vb_vaultAddress := "0x773035EABdA16B5416B26E12156483C6B6F56451";
       vb_usdcBalance := u; vb_aTokenBalance := a;
       vb_blockNumber := 42; vb_timestamp := 1762041600 |} in
  exists e, aggregateBalances (R := healthy_rpc) 1762041600123 []
              [vault "7" "3"; vault "5" "1.5"] = Err e.
Proof.
  intros vault.
  refine (proj2 (proj1 (aggregateBalances_rejects_malformed_balances (R := healthy_rpc)
                          1762041600123 [] [vault "7" "3"; vault "5" "1.5"])) _).
  left. exists (vault "5" "1.5"). split.
  - apply list_elem_of_lookup. exists 1%nat. reflexivity.
  - right. vm_compute. reflexivity.
Defined.

Lemma fetched_vault_balances_always_aggregate_witness :
  let vault chain chainName address :=
    {| vb_chainId := chain; vb_chainName := chainName; vb_vaultAddress := address;
       vb_usdcBalance := "0"; vb_aTokenBalance := "5000000";
       vb_blockNumber := 42; vb_timestamp := 1762041600 |} in
  exists aggregated,
    aggregateBalances (R := healthy_rpc) 1762041600123 []
      [ vault 84532 "Base Sepolia" "0x773035EABdA16B5416B26E12156483C6B6F56451";
        vault 421614 "Arbitrum Sepolia" "0xE168d95f8d1B8EC167A63c8E696076EC8EE95337" ]
    = Ok aggregated.
Proof.
  intros vault.
  refine (fetched_vault_balances_always_aggregate (R := healthy_rpc) (SUPPORTED_CHAINS no_env)
            (fresh healthy_rpc 0%nat)
            [ vault 84532 "Base Sepolia" "0x773035EABdA16B5416B26E12156483C6B6F56451";
              vault 421614 "Arbitrum Sepolia" "0xE168d95f8d1B8EC167A63c8E696076EC8EE95337" ]
            (snd (fetchVaultBalances (R := healthy_rpc) (SUPPORTED_CHAINS no_env)
                    (fresh healthy_rpc 0%nat)))
            1762041600123 [] _ _).
  - vm_compute. discriminate.
  - reflexivity.
Defined.

End FetcherMore.

(** ** The oracle service: [getPoolValue] and [generateBalanceSnapshot] *)

Module OracleMore.

Import BalanceFetcher Oracle.

Section Pool.
Context `{X : NearContract.External} `{R : Rpc}.

Lemma getPoolValue_unfold supported (this : OracleService) st :
  getPoolValue supported this st =
  match fetchChainBalances supported (NearContract.getAgentAddress (nearMpc this)) st with
  | (Err e, st1) => (Err e, st1)
  | (Ok chainBalances, st1) =>
      match fetchVaultBalances supported st1 with
      | (Err e, st2) => (Err e, st2)
      | (Ok vaultBalances, st2) =>
          match aggregateBalances (Date_now (world st2)) chainBalances vaultBalances with
          | Err e => (Err e, st2)
          | Ok aggregated =>
              (Ok {| pool_totalATokens := totalATokens aggregated;
                     pool_totalUSDC := totalUSDC aggregated;
                     totalPoolValue := totalValue aggregated;
                     breakdown :=
                       map (fun vb => {| entry_chainId := vb_chainId vb;
                                         entry_chainName := vb_chainName vb;
                                         aTokens := vb_aTokenBalance vb;
                                         usdc := vb_usdcBalance vb |}) vaultBalances;
                     pool_timestamp := Date_now (world st2) / 1000 |}, st2)
          end
      end
  end.
Proof.
  unfold getPoolValue. rewrite FetcherProps.try_catch_rethrow. unfold async_bind at 1.
  destruct (fetchChainBalances _ _ st) as [[chainBalances|e] st1]; [|reflexivity].
  unfold async_bind at 1.
  destruct (fetchVaultBalances supported st1) as [[vaultBalances|e] st2]; [|reflexivity].
  unfold async_bind at 1.
  destruct (aggregateBalances _ _ _) as [aggregated|e]; reflexivity.
Qed.

(** X18.  [getPoolValue] fulfils exactly when the chain fetch and then the
    vault fetch fulfil: for a configuration of at most 2^254 vaults the
    aggregation in between never fails on fetched balances.  It makes no
    call of its own: the state it leaves is the one the vault fetch left. *)
Theorem getPoolValue_fulfils_iff_fetches_fulfil
    (supported : list (string * ChainConfig)) (this : OracleService) (st : State) :
  let agentAddress := NearContract.getAgentAddress (nearMpc this) in
  (Z.of_nat (length (getAllVaults supported)) <= 2 ^ 254 ->
   forall chainBalances st1 vaultBalances st2,
     fetchChainBalances supported agentAddress st = (Ok chainBalances, st1) ->
     fetchVaultBalances supported st1 = (Ok vaultBalances, st2) ->
     exists response, getPoolValue supported this st = (Ok response, st2)) /\
  (forall response st',
     getPoolValue supported this st = (Ok response, st') ->
     exists chainBalances st1 vaultBalances,
       fetchChainBalances supported agentAddress st = (Ok chainBalances, st1) /\
       fetchVaultBalances supported st1 = (Ok vaultBalances, st')).
Proof.
  intros agentAddress. split.
  - intros Hn chainBalances st1 vaultBalances st2 Hc Hv.
    rewrite getPoolValue_unfold. fold agentAddress. rewrite Hc, Hv.
    destruct (FetcherMore.fetched_vault_balances_parse_sum supported st1 vaultBalances st2
                (Date_now (world st2)) chainBalances Hn Hv) as [aggregated ->].
    eexists. reflexivity.
  - intros response st'. rewrite getPoolValue_unfold. fold agentAddress.
    destruct (fetchChainBalances _ _ st) as [[chainBalances|e] st1]; [|discriminate].
    destruct (fetchVaultBalances supported st1) as [[vaultBalances|e] st2] eqn:Hv;
      [|discriminate].
    destruct (aggregateBalances _ _ _) as [aggregated|e]; [|discriminate].
    intros [= _ <-]. exists chainBalances, st1, vaultBalances.
    split; [reflexivity | exact Hv].
Qed.

Lemma Forall2_map_l {A B C} (P : B -> C -> Prop) (g : A -> B) (l : list A) (vs : list C) :
  Forall2 (fun x v => P (g x) v) l vs -> Forall2 P (map g l) vs.
Proof. induction 1; cbn [map]; constructor; assumption. Qed.

(** X19.  A response of [getPoolValue] has one breakdown entry per
    configured vault, in order, and its totals are the exact sums of the
    entries: totalATokens = Σ aTokens, totalUSDC = Σ usdc and
    totalPoolValue = Σ aTokens + Σ usdc. *)
Theorem getPoolValue_totals_match_breakdown
    (supported : list (string * ChainConfig)) (this : OracleService) st response st' :
  getPoolValue supported this st = (Ok response, st') ->
  Forall2 (fun vault entry => entry_chainId entry = fst vault)
          (getAllVaults supported) (breakdown response) /\
  exists invested idle,
    Forall2 (fun entry v => BigInt (aTokens entry) = Ok v) (breakdown response) invested /\
    Forall2 (fun entry v => BigInt (usdc entry) = Ok v) (breakdown response) idle /\
    pool_totalATokens response = toString (Zsum invested) /\
    pool_totalUSDC response = toString (Zsum idle) /\
    totalPoolValue response = toString (Zsum invested + Zsum idle).
Proof.
  intros H. split; [eapply OracleProps.getPoolValue_all_or_nothing, H|].
  rewrite getPoolValue_unfold in H.
  destruct (fetchChainBalances _ _ st) as [[chainBalances|e] st1]; [|discriminate].
  destruct (fetchVaultBalances supported st1) as [[vaultBalances|e] st2]; [|discriminate].
  unfold aggregateBalances in H.
  pose proof (FetcherMore.sum_BigInt_inv vb_aTokenBalance vaultBalances) as Ha.
  pose proof (FetcherMore.sum_BigInt_inv vb_usdcBalance vaultBalances) as Hu.
  destruct (sum_BigInt vb_aTokenBalance vaultBalances) as [a|ea]; [|discriminate].
  cbn [mbind result_bind] in H.
  destruct (sum_BigInt vb_usdcBalance vaultBalances) as [u|eu]; [|discriminate].
  cbn [mbind result_bind] in H.
  destruct (formatUnits a 6) as [t1|e]; [|discriminate]. cbn [mbind result_bind] in H.
  destruct (formatUnits u 6) as [t2|e]; [|discriminate]. cbn [mbind result_bind] in H.
  destruct (formatUnits (a + u) 6) as [t3|e]; [|discriminate].
  cbn [mbind result_bind] in H. injection H as <- <-.
  destruct Ha as (invested & Hinv & ->), Hu as (idle & Hidle & ->).
  exists invested, idle. cbn.
  split; [apply Forall2_map_l; exact Hinv|].
  split; [apply Forall2_map_l; exact Hidle|].
  repeat split.
Qed.

End Pool.

Section Snapshot.
Context `{X : NearContract.External} `{R : Rpc} `{V : !VaultService}.

Lemma OracleService_eta (this : OracleService) : {| nearMpc := nearMpc this |} = this.
Proof. destruct this. reflexivity. Qed.

Lemma configured_vault_Some supported id vaultChain vault :
  configured_vault supported id = Some (vaultChain, vault) ->
  getChainById supported id = Some vaultChain /\
  chainId vaultChain = id /\ vaultAddress vaultChain = Some vault /\ vault <> "".
Proof.
  unfold configured_vault.
  destruct (getChainById supported id) as [c|] eqn:Hc; [|discriminate].
  destruct (vaultAddress c) as [v|] eqn:Hv; [|discriminate].
  destruct (String.eqb v "") eqn:E; [discriminate|].
  intros [= <- <-]. apply String.eqb_neq in E.
  repeat split; try assumption. eapply FetcherProps.getChainById_chainId, Hc.
Qed.


(** X21.  Every record that [generateBalanceSnapshot] returns carries the
    caller's assets and receiver, the service's agent address, a balance
    and a nonce that are decimal integers, a deadline 300 seconds after the
    clock was read, and a signature that was verified for exactly these
    five fields under the EIP-712 domain of the requested chain id and that
    chain's vault. *)
Theorem generateBalanceSnapshot_returns_verified_snapshot
    (supported : list (string * ChainConfig)) env (this : OracleService)
    (assets receiver : string) (vaultChainId : Z) st w signed this' st' w' :
  generateBalanceSnapshot supported env this assets receiver vaultChainId st w
  = (Ok signed, this', st', w') ->
  signed_assets signed = assets /\
  signed_receiver signed = receiver /\
  signed_agentAddress signed = NearContract.agentAddress (nearMpc this) /\
  (exists balance nonce,
     signed_balance signed = toString balance /\ signed_nonce signed = toString nonce) /\
  signed_deadline signed = toString (Date_now (world st') / 1000 + 300) /\
  exists vaultChain vault digest recovered,
    configured_vault supported vaultChainId = Some (vaultChain, vault) /\
    NearContract.TypedDataEncoder_hash
      (NearContract.domain_of vaultChainId vault) NearContract.types
      {| NearContract.balance := signed_balance signed;
         NearContract.nonce := signed_nonce signed;
         NearContract.deadline := signed_deadline signed;
         NearContract.assets := signed_assets signed;
         NearContract.receiver := signed_receiver signed |} = Ok digest /\
    NearContract.recoverAddress digest (signed_signature signed) = Ok recovered /\
    toLowerCase recovered = toLowerCase (NearContract.agentAddress (nearMpc this)).
Proof.
  unfold generateBalanceSnapshot.
  destruct (fetchChainBalances _ _ st) as [[chainBalances|e] st1]; [|discriminate].
  destruct (fetchVaultBalances supported st1) as [[vaultBalances|e] st2]; [|discriminate].
  destruct (aggregateBalances _ _ _) as [aggregated|e]; [|discriminate].
  destruct (configured_vault supported vaultChainId) as [[vaultChain vault]|] eqn:Hcv;
    [|discriminate].
  unfold call.
  destruct (getCrossChainInvestedAssets _ _ _ _) as [[balance|e] rw1]; [|discriminate].
  cbn [world aTokenAddressCache].
  destruct (getVaultNonce _ _ _ _) as [[nonce|e] rw2]; [|discriminate].
  cbn [world aTokenAddressCache].
  destruct (NearContract.signBalanceSnapshot _ _ _ _ _ _) as [[[response|e] mpc'] w1] eqn:Hs;
    [|discriminate].
  intros [= <- <- <- <-]. cbn.
  apply SignerProps.signBalanceSnapshot_Ok_verified in Hs
    as (_ & digest & recovered & Hh & Hr & Hl).
  apply configured_vault_Some in Hcv as Hcv'. destruct Hcv' as (_ & Hid & _ & _).
  rewrite Hid in Hh.
  repeat split; eauto.
  exists vaultChain, vault, digest, recovered. repeat split; assumption.
Qed.

(** X22.  [generateBalanceSnapshot] touches the signer only in its last
    step: a rejection either left the oracle object and the NEAR network
    untouched (a fetch, the aggregation, the vault lookup or a vault read
    failed) or is the rejection of [signBalanceSnapshot] itself, called for
    the configured vault of the requested chain. *)
Theorem generateBalanceSnapshot_failure_is_local
    (supported : list (string * ChainConfig)) env (this : OracleService)
    (assets receiver : string) (vaultChainId : Z) st w e this' st' w' :
  generateBalanceSnapshot supported env this assets receiver vaultChainId st w
  = (Err e, this', st', w') ->
  (this' = this /\ w' = w) \/
  (exists vaultChain vault snapshot,
     configured_vault supported vaultChainId = Some (vaultChain, vault) /\
     NearContract.assets snapshot = assets /\
     NearContract.receiver snapshot = receiver /\
     NearContract.signBalanceSnapshot env w (nearMpc this) snapshot vault
       (chainId vaultChain) = (Err e, nearMpc this', w')).
Proof.
  unfold generateBalanceSnapshot.
  destruct (fetchChainBalances _ _ st) as [[chainBalances|e0] st1];
    [|intros [= _ <- _ <-]; left; split; reflexivity].
  destruct (fetchVaultBalances supported st1) as [[vaultBalances|e0] st2];
    [|intros [= _ <- _ <-]; left; split; reflexivity].
  destruct (aggregateBalances _ _ _) as [aggregated|e0];
    [|intros [= _ <- _ <-]; left; split; reflexivity].
  destruct (configured_vault supported vaultChainId) as [[vaultChain vault]|] eqn:Hcv;
    [|intros [= _ <- _ <-]; left; split; reflexivity].
  unfold call.
  destruct (getCrossChainInvestedAssets _ _ _ _) as [[balance|e0] rw1];
    [|intros [= _ <- _ <-]; left; split; reflexivity].
  cbn [world aTokenAddressCache].
  destruct (getVaultNonce _ _ _ _) as [[nonce|e0] rw2];
    [|intros [= _ <- _ <-]; left; split; reflexivity].
  cbn [world aTokenAddressCache].
  destruct (NearContract.signBalanceSnapshot _ _ _ _ _ _) as [[[response|e0] mpc'] w1] eqn:Hs;
    [discriminate|].
  intros [= <- <- _ <-]. right.
  eexists vaultChain, vault, _. split; [reflexivity|].
  split; [|split; [|exact Hs]]; reflexivity.
Qed.

End Snapshot.

(** *** The statements at concrete collaborators *)

Import Fixtures.

Lemma getPoolValue_fulfils_iff_fetches_fulfil_witness :
  let R := healthy_rpc in
  let this := sample_oracle good_signer in
  exists chainBalances st1 vaultBalances,
    fetchChainBalances (R := R) (SUPPORTED_CHAINS no_env)
      (NearContract.getAgentAddress (nearMpc this)) (fresh R 0%nat)
    = (Ok chainBalances, st1) /\
    fetchVaultBalances (R := R) (SUPPORTED_CHAINS no_env) st1
    = (Ok vaultBalances,
       snd (getPoolValue (R := R) (SUPPORTED_CHAINS no_env) this (fresh R 0%nat))).
Proof.
  intros R this.
  refine (proj2 (getPoolValue_fulfils_iff_fetches_fulfil (X := good_signer) (R := R)
                   (SUPPORTED_CHAINS no_env) this (fresh R 0%nat))
            {| pool_totalATokens := "10000000"; pool_totalUSDC := "0";
               totalPoolValue := "10000000";
               breakdown := [ mkBreakdown 84532 "Base Sepolia" "5000000" "0";
                              mkBreakdown 421614 "Arbitrum Sepolia" "5000000" "0" ];
               pool_timestamp := 1762041600 |}
            (snd (getPoolValue (R := R) (SUPPORTED_CHAINS no_env) this (fresh R 0%nat))) _).
  reflexivity.
Defined.

Lemma getPoolValue_totals_match_breakdown_witness :
  let response :=
    {| pool_totalATokens := "10000000"; pool_totalUSDC := "0";
       totalPoolValue := "10000000";
       breakdown := [ mkBreakdown 84532 "Base Sepolia" "5000000" "0";
                      mkBreakdown 421614 "Arbitrum Sepolia" "5000000" "0" ];
       pool_timestamp := 1762041600 |} in
  Forall2 (fun vault entry => entry_chainId entry = fst vault)
          (getAllVaults (SUPPORTED_CHAINS no_env)) (breakdown response) /\
  exists invested idle,
    Forall2 (fun entry v => BigInt (aTokens entry) = Ok v) (breakdown response) invested /\
    Forall2 (fun entry v => BigInt (usdc entry) = Ok v) (breakdown response) idle /\
    pool_totalATokens response = toString (Zsum invested) /\
    pool_totalUSDC response = toString (Zsum idle) /\
    totalPoolValue response = toString (Zsum invested + Zsum idle).
Proof.
  intros response.
  refine (getPoolValue_totals_match_breakdown (X := good_signer) (R := healthy_rpc)
            (SUPPORTED_CHAINS no_env) (sample_oracle good_signer) (fresh healthy_rpc 0%nat)
            response
            (snd (getPoolValue (R := healthy_rpc) (SUPPORTED_CHAINS no_env)
                    (sample_oracle good_signer) (fresh healthy_rpc 0%nat))) _).
  reflexivity.
Defined.


Lemma generateBalanceSnapshot_returns_verified_snapshot_witness :
  let signed :=
    {| signed_balance := "2500000"; signed_nonce := "7";
       signed_deadline := "1762041900"; signed_assets := "500000";
       signed_receiver := "0x742d35Cc6634C0532925a3b844Bc454e7595f5dE";
       signed_signature := "0x111111111111111111111111111111111111111111111111111111111111111122222222222222222222222222222222222222222222222222222222222222221c";
       signed_agentAddress := "0x20f2747bbc52453ac0774b5b2fe0e28dc6637f30" |} in
  exists vaultChain vault digest recovered,
    configured_vault (SUPPORTED_CHAINS no_env) 84532 = Some (vaultChain, vault) /\
    NearContract.TypedDataEncoder_hash (External := good_signer)
      (NearContract.domain_of 84532 vault) NearContract.types
      {| NearContract.balance := signed_balance signed;
         NearContract.nonce := signed_nonce signed;
         NearContract.deadline := signed_deadline signed;
         NearContract.assets := signed_assets signed;
         NearContract.receiver := signed_receiver signed |} = Ok digest /\
    NearContract.recoverAddress (External := good_signer) digest (signed_signature signed)
    = Ok recovered /\
    toLowerCase recovered
    = toLowerCase (NearContract.agentAddress (nearMpc (sample_oracle good_signer))).
Proof.
  intros signed.
  pose (out := generateBalanceSnapshot (X := good_signer)
                 (V := toy_vault_service healthy_rpc S)
                 (SUPPORTED_CHAINS no_env) sample_env (sample_oracle good_signer)
                 "500000" "0x742d35Cc6634C0532925a3b844Bc454e7595f5dE" 84532
                 (fresh healthy_rpc 0%nat) 0%nat).
  refine (proj2 (proj2 (proj2 (proj2 (proj2
            (generateBalanceSnapshot_returns_verified_snapshot (X := good_signer)
               (V := toy_vault_service healthy_rpc S)
               (SUPPORTED_CHAINS no_env) sample_env (sample_oracle good_signer)
               "500000" "0x742d35Cc6634C0532925a3b844Bc454e7595f5dE" 84532
               (fresh healthy_rpc 0%nat) 0%nat signed
               (snd (fst (fst out))) (snd (fst out)) (snd out) _)))))).
  reflexivity.
Defined.

Lemma generateBalanceSnapshot_failure_is_local_witness :
  let X := toy_external (sample_response 1) "0x000000000000000000000000000000000000dEaD" in
  let R := healthy_rpc in
  let e := Error "Signature verification failed! Recovered 0x000000000000000000000000000000000000dEaD, expected 0x20f2747bbc52453ac0774b5b2fe0e28dc6637f30" in
  let out :=
    generateBalanceSnapshot (X := X) (V := toy_vault_service R S)
      (SUPPORTED_CHAINS no_env) sample_env (sample_oracle X)
      "500000" "0x742d35Cc6634C0532925a3b844Bc454e7595f5dE" 84532
      (fresh R 0%nat) 0%nat in
  (snd (fst (fst out)) = sample_oracle X /\ snd out = 0%nat) \/
  (exists vaultChain vault snapshot,
     configured_vault (SUPPORTED_CHAINS no_env) 84532 = Some (vaultChain, vault) /\
     NearContract.assets snapshot = "500000" /\
     NearContract.receiver snapshot = "0x742d35Cc6634C0532925a3b844Bc454e7595f5dE" /\
     NearContract.signBalanceSnapshot (X := X) sample_env 0%nat (nearMpc (sample_oracle X))
       snapshot vault (chainId vaultChain)
     = (Err e, nearMpc (snd (fst (fst out))), snd out)).
Proof.
  intros X R e out.
  refine (generateBalanceSnapshot_failure_is_local (X := X) (V := toy_vault_service R S)
            (SUPPORTED_CHAINS no_env) sample_env (sample_oracle X)
            "500000" "0x742d35Cc6634C0532925a3b844Bc454e7595f5dE" 84532
            (fresh R 0%nat) 0%nat e
            (snd (fst (fst out))) (snd (fst out)) (snd out) _).
  reflexivity.
Defined.

End OracleMore.

(** ** The derivation script: key formats and the shape of the address *)

Module DeriveMore.

Import Derive.

Lemma hex_digit_lower n : lower_ascii (hex_digit n) = hex_digit n.
Proof.
  unfold hex_digit. generalize (Z.to_nat n). intros k.
  do 16 (destruct k as [|k]; [reflexivity|]).
  reflexivity.
Qed.

Lemma hex_bytes_lower bs : toLowerCase (hex_bytes bs) = hex_bytes bs.
Proof.
  induction bs as [|b bs IH]; [reflexivity|].
  cbn [hex_bytes]. unfold hex_byte.
  change (toLowerCase (String (hex_digit (b / 16))
                         (String (hex_digit (b mod 16)) (hex_bytes bs)))
          = String (hex_digit (b / 16)) (String (hex_digit (b mod 16)) (hex_bytes bs))).
  cbn [toLowerCase]. rewrite !hex_digit_lower, IH. reflexivity.
Qed.

Lemma slice_last_length n (bs : list Z) :
  (n <= length bs)%nat -> length (slice_last n bs) = n.
Proof. intros H. unfold slice_last. rewrite length_drop. lia. Qed.

Lemma hex_digit_hex n : In (hex_digit n) (list_ascii_of_string "0123456789abcdef").
Proof.
  unfold hex_digit. generalize (Z.to_nat n). intros k.
  do 16 (destruct k as [|k]; [cbn; tauto|]).
  cbn. tauto.
Qed.

Lemma hex_bytes_hex bs :
  Forall (fun c => In c (list_ascii_of_string "0123456789abcdef"))
         (list_ascii_of_string (hex_bytes bs)).
Proof.
  induction bs as [|b bs IH]; [constructor|].
  cbn [hex_bytes]. unfold hex_byte.
  change (Forall (fun c => In c (list_ascii_of_string "0123456789abcdef"))
            (hex_digit (b / 16) :: hex_digit (b mod 16)
             :: list_ascii_of_string (hex_bytes bs))).
  constructor; [apply hex_digit_hex|]. constructor; [apply hex_digit_hex | exact IH].
Qed.

Section Derivation.
Context `{C : Secp256k1}.

(** X23.  The key string "secp256k1:K" is read as K, and a root key that
    is already in the 65-byte uncompressed form is used as it is: the
    address derived is again that of [root + epsilon * G]. *)
Theorem deriveAgentAddress_uncompressed_root
    (contractId path key : string) (root : Point) (address : list Z) :
  query_public_key MPC_CONTRACT = Ok ("secp256k1:" +:+ key) ->
  base_decode key = Ok (4 :: raw root) ->
  spec_address root contractId path = Some address ->
  deriveAgentAddress contractId path = Ok ("0x" +:+ toHex address).
Proof.
  intros Hq Hd Hspec.
  unfold spec_address in Hspec.
  destruct (mulG _) as [E|] eqn:HE; [|discriminate].
  cbn [mbind option_bind] in Hspec.
  destruct (padd root E) as [D|] eqn:HD; [|discriminate].
  cbn [mbind option_bind] in Hspec. injection Hspec as <-.
  unfold deriveAgentAddress, EPSILON_DERIVATION_PREFIX.
  rewrite Hq. cbn [mbind result_bind].
  change (replace "secp256k1:" "" ("secp256k1:" +:+ key)) with key.
  rewrite Hd. cbn [mbind result_bind].
  cbn [length]. rewrite raw_length. cbn [Nat.eqb]. cbn [mbind result_bind].
  rewrite (publicKeyCreate_spec _ E (SHA3_256_length _) (SHA3_256_bytes _) HE).
  cbn [mbind result_bind].
  rewrite (publicKeyCombine_spec _ _ _ HD). cbn [mbind result_bind].
  reflexivity.
Qed.

End Derivation.

Section Format.
Context `{L : Libraries}.

(** X24.  With a Keccak function whose digests have at least 20 bytes,
    every address that [deriveAgentAddress] returns is "0x" followed by 40
    characters, each one of 0123456789abcdef (so it has 42 characters and
    is unchanged by [toLowerCase]). *)
Theorem deriveAgentAddress_address_format (contractId path address : string) :
  (forall bs, (20 <= length (keccak256 bs))%nat) ->
  deriveAgentAddress contractId path = Ok address ->
  String.length address = 42%nat /\
  toLowerCase address = address /\
  exists digits,
    address = "0x" +:+ digits /\ String.length digits = 40%nat /\
    Forall (fun c => In c (list_ascii_of_string "0123456789abcdef"))
           (list_ascii_of_string digits).
Proof.
  intros Hk. unfold deriveAgentAddress.
  destruct (query_public_key MPC_CONTRACT) as [publicKeyStr|e]; [|discriminate].
  cbn [mbind result_bind].
  destruct (base_decode _) as [decoded|e]; [|discriminate].
  cbn [mbind result_bind].
  destruct (if (length decoded =? 64)%nat then _ else _) as [rootPkBytes|e];
    [|discriminate].
  cbn [mbind result_bind].
  destruct (publicKeyCreate _) as [epsilonPoint|e]; [|discriminate].
  cbn [mbind result_bind].
  destruct (publicKeyCombine _) as [derivedPkBytes|e]; [|discriminate].
  cbn [mbind result_bind]. intros [= <-].
  set (hash := keccak256 (skipn 1 derivedPkBytes)).
  assert (String.length (toHex (slice_last 20 hash)) = 40%nat) as Hlen.
  { unfold toHex. rewrite SignerMore.hex_bytes_length, slice_last_length; [reflexivity|].
    apply Hk. }
  change ("0x" +:+ toHex (slice_last 20 hash))
    with (String "0" (String "x" (toHex (slice_last 20 hash)))).
  split; [cbn [String.length]; rewrite Hlen; reflexivity|].
  split.
  - cbn [toLowerCase]. unfold toHex. rewrite hex_bytes_lower. reflexivity.
  - exists (toHex (slice_last 20 hash)). split; [reflexivity|].
    split; [exact Hlen | apply hex_bytes_hex].
Qed.

End Format.

(** *** The statements at concrete libraries *)

Import Fixtures.

Lemma deriveAgentAddress_uncompressed_root_witness :
  deriveAgentAddress (L := toy_libraries (4 :: toy_raw 5)) NEAR_CONTRACT_ID PATH
  = Ok "0x01010101010101010101010101010101010101c5".
Proof.
  refine (deriveAgentAddress_uncompressed_root (C := toy_curve (4 :: toy_raw 5))
            NEAR_CONTRACT_ID PATH "4vJ9JU1bJJE96FWSJKvHsmmFADCg4gpZQff4P3bkLKi"
            5 (repeat 1 19 ++ [197]) eq_refl eq_refl _).
  vm_compute. reflexivity.
Defined.

Lemma deriveAgentAddress_address_format_witness :
  let address := "0xd0d1d2d3d4d5d6d7d8d9dadbdcdddedfe0e1e2e3" in
  String.length address = 42%nat /\
  toLowerCase address = address /\
  exists digits,
    address = "0x" +:+ digits /\ String.length digits = 40%nat /\
    Forall (fun c => In c (list_ascii_of_string "0123456789abcdef"))
           (list_ascii_of_string digits).
Proof.
  intros address.
  refine (deriveAgentAddress_address_format (L := toy_libraries32) NEAR_CONTRACT_ID PATH
            address _ _).
  - intros bs. cbn [keccak256 toy_libraries32]. rewrite length_map, length_seq. lia.
  - vm_compute. reflexivity.
Defined.

End DeriveMore.

(** ** The verification script *)

Module VerifyProps.

Import VerifyScript.

Section Script.
Context `{L : Derive.Libraries}.

Lemma checkChain_result `{K : ChainCalls} chain :
  fst (checkChain chain)
  = match getCode (snd chain) VAULT_ADDRESS with
    | Ok _ => Ok tt
    | Err e => Err e
    end.
Proof.
  destruct chain as [name rpc]. unfold checkChain. cbn [snd].
  destruct (getCode rpc VAULT_ADDRESS) as [code|e]; [|reflexivity].
  destruct (String.eqb code "0x"); [reflexivity|].
  destruct (AI_AGENT rpc VAULT_ADDRESS); reflexivity.
Qed.

Lemma check_each_result (K1 K2 : ChainCalls) chains :
  (forall url address, getCode (ChainCalls := K1) url address
                       = getCode (ChainCalls := K2) url address) ->
  fst (check_each (K := K1) chains) = fst (check_each (K := K2) chains).
Proof.
  intros Hsame. induction chains as [|chain chains IH]; [reflexivity|].
  cbn [check_each].
  pose proof (checkChain_result (K := K1) chain) as H1.
  pose proof (checkChain_result (K := K2) chain) as H2.
  rewrite Hsame in H1.
  destruct (checkChain (K := K1) chain) as [r1 o1], (checkChain (K := K2) chain) as [r2 o2].
  cbn [fst] in H1, H2. rewrite H1, H2.
  destruct (getCode (ChainCalls := K2) (snd chain) VAULT_ADDRESS); [|reflexivity].
  destruct (check_each (K := K1) chains), (check_each (K := K2) chains).
  cbn [fst] in *. exact IH.
Qed.

End Script.

(** X25.  The script only prints: whether [verify] fulfils or rejects
    depends on the derivation succeeding and on the [getCode] calls, never
    on the derived address or on what [AI_AGENT] answers — a vault whose
    agent differs from the derived address, or whose [AI_AGENT] call fails,
    does not make it fail. *)
Theorem verify_never_compares_addresses
    (L1 L2 : Derive.Libraries) (K1 K2 : ChainCalls) (address1 address2 : string) :
  Derive.deriveAgentAddress (L := L1) Derive.NEAR_CONTRACT_ID Derive.PATH = Ok address1 ->
  Derive.deriveAgentAddress (L := L2) Derive.NEAR_CONTRACT_ID Derive.PATH = Ok address2 ->
  (forall url address, getCode (ChainCalls := K1) url address
                       = getCode (ChainCalls := K2) url address) ->
  fst (verify (L := L1) (K := K1)) = fst (verify (L := L2) (K := K2)).
Proof.
  intros H1 H2 Hsame. unfold verify. rewrite H1, H2.
  pose proof (check_each_result K1 K2 CHAINS Hsame) as H.
  destruct (check_each (K := K1) CHAINS), (check_each (K := K2) CHAINS).
  cbn [fst] in *. exact H.
Qed.

(** X26.  [verify] checks the chains in order and stops at the first one
    whose [getCode] call fails: when the call for Base Sepolia fails, the
    script rejects with that error after its three opening lines, and
    Arbitrum Sepolia is not looked at. *)
Theorem verify_stops_at_first_failure
    (L : Derive.Libraries) (K : ChainCalls) (address : string) e :
  Derive.deriveAgentAddress (L := L) Derive.NEAR_CONTRACT_ID Derive.PATH = Ok address ->
  getCode "https://sepolia.base.org" VAULT_ADDRESS = Err e ->
  fst (verify (L := L) (K := K)) = Err e /\
  length (snd (verify (L := L) (K := K))) = 3%nat /\
  forall K' : ChainCalls,
    getCode (ChainCalls := K') "https://sepolia.base.org" VAULT_ADDRESS = Err e ->
    verify (L := L) (K := K') = verify (L := L) (K := K).
Proof.
  intros Hd Hc.
  assert (forall K0 : ChainCalls,
            getCode (ChainCalls := K0) "https://sepolia.base.org" VAULT_ADDRESS = Err e ->
            verify (L := L) (K := K0)
            = (Err e, [ "Deriving agent address from MPC...";
                        "Derived Agent: " +:+ address +:+ "
";
                        "Checking vault " +:+ VAULT_ADDRESS +:+ " on chains:
" ])) as H.
  { intros K0 H0. unfold verify. rewrite Hd. unfold CHAINS. cbn [check_each].
    unfold checkChain. rewrite H0. reflexivity. }
  rewrite (H K Hc). repeat split. intros K' Hc'. apply H, Hc'.
Qed.

(** *** The statements at concrete collaborators *)

Import Fixtures.

Lemma verify_never_compares_addresses_witness :
  fst (verify (L := toy_libraries32)
         (K := toy_chain_calls (fun _ => Ok "0x6080")
                 (fun _ => Ok "0xd0d1d2d3d4d5d6d7d8d9dadbdcdddedfe0e1e2e3")))
  = fst (verify (L := toy_libraries (toy_compressed 5))
           (K := toy_chain_calls (fun _ => Ok "0x6080") (fun _ => Err network_error))).
Proof.
  refine (verify_never_compares_addresses toy_libraries32 (toy_libraries (toy_compressed 5))
            _ _ "0xd0d1d2d3d4d5d6d7d8d9dadbdcdddedfe0e1e2e3"
            "0x01010101010101010101010101010101010101c5" _ _ _).
  - vm_compute. reflexivity.
  - vm_compute. reflexivity.
  - intros url address. reflexivity.
Defined.

Lemma verify_stops_at_first_failure_witness :
  let K := toy_chain_calls
             (fun url => if String.eqb url "https://sepolia.base.org"
                         then Err network_error else Ok "0x6080")
             (fun _ => Ok "0xd0d1d2d3d4d5d6d7d8d9dadbdcdddedfe0e1e2e3") in
  fst (verify (L := toy_libraries32) (K := K)) = Err network_error /\
  length (snd (verify (L := toy_libraries32) (K := K))) = 3%nat.
Proof.
  intros K.
  refine (let H := verify_stops_at_first_failure toy_libraries32 K
                     "0xd0d1d2d3d4d5d6d7d8d9dadbdcdddedfe0e1e2e3" network_error _ _ in
          conj (proj1 H) (proj1 (proj2 H))).
  - vm_compute. reflexivity.
  - reflexivity.
Defined.

End VerifyProps.
